(** * Air-pollution forecasting backend (app.py): embedding and verification

    The development follows the layout of [app.py]:
    the dataset loader with its process-wide cache, the series preparer
    ([load_and_preprocess_data]), the aggregator ([calculate_daily_aqi],
    [calculate_monthly_aqi]) and the forecast engine ([forecast_aqi_simple],
    [forecast_aqi_arima]).

    Modelling conventions.
    - A pandas timestamp is a calendar day, counted in days since 1970-01-01
      ([Z]); year, month and day-of-year are computed from it by the civil
      calendar of module [Calendar].
    - A float64 cell is a real number or NaN: [float := option R], [None]
      being NaN.  Arithmetic is exact (no rounding), NaN propagates, and a
      comparison with NaN is false, as in Python.
    - A DataFrame is the list of its rows, in index order.  DataFrames are
      heap objects: the loader's cache and the preparer's local variable [df]
      may name the same object, so the functions that assign to a column are
      written over an explicit heap.
    - A Python exception is a value of [exn]; [try/except] is a match on
      [result].
    - statsmodels is an interface ([statsmodels]): the program is verified
      for every implementation of it.
    - The forecast horizon is a number of periods ([nat]). *)

From Stdlib Require Import String Ascii.
From Stdlib Require Import ZArith Reals List Bool Lia Lra.
From Stdlib Require Import Permutation Sorted.
Import ListNotations.

Set Implicit Arguments.

(* ================================================================= *)
(** ** Exceptions *)

Inductive exn : Type :=
| ValueError (msg : string)
| IndexError
| KeyError
| LinAlgError
| FileError
| ModelError.

Inductive result (A : Type) : Type :=
| Ok (a : A)
| Raise (e : exn).

Arguments Ok {A} a.
Arguments Raise {A} e.

Definition bind {A B : Type} (c : result A) (k : A -> result B) : result B :=
  match c with
  | Ok a => k a
  | Raise e => Raise e
  end.

Notation "x <- c ;; k" := (bind c (fun x => k))
  (at level 61, c at next level, right associativity).

(* ================================================================= *)
(** ** Floats with NaN *)

Definition float : Type := option R.

Definition NaN : float := None.
Definition fin (x : R) : float := Some x.

Definition isna (a : float) : bool :=
  match a with
  | None => true
  | Some _ => false
  end.

Definition fadd (a b : float) : float :=
  match a, b with
  | Some x, Some y => Some (x + y)%R
  | _, _ => None
  end.

Definition fsub (a b : float) : float :=
  match a, b with
  | Some x, Some y => Some (x - y)%R
  | _, _ => None
  end.

Definition fmul (a b : float) : float :=
  match a, b with
  | Some x, Some y => Some (x * y)%R
  | _, _ => None
  end.

(** [a < b]; false as soon as one side is NaN. *)
Definition flt (a b : float) : bool :=
  match a, b with
  | Some x, Some y => if Rlt_dec x y then true else false
  | _, _ => false
  end.

(** Python's builtin [max(a, b)]: [a] unless [b > a]. *)
Definition py_max (a b : float) : float := if flt a b then b else a.

(** Python's builtin [min(a, b)]: [a] unless [b < a]. *)
Definition py_min (a b : float) : float := if flt b a then b else a.

(* ================================================================= *)
(** ** Series statistics (pandas, numpy) *)

Definition Rsum (l : list R) : R := fold_right Rplus 0%R l.

(** The non-missing cells of a column. *)
Definition dropna (l : list float) : list R :=
  flat_map (fun a => match a with Some x => [x] | None => [] end) l.

(** [Series.mean()]: missing cells are skipped; NaN when nothing is left. *)
Definition series_mean (l : list float) : float :=
  match dropna l with
  | [] => NaN
  | xs => fin (Rsum xs / INR (length xs))
  end.

(** [Series.std()]: sample standard deviation (ddof = 1) of the non-missing
    cells; NaN when fewer than two are left. *)
Definition series_std (l : list float) : float :=
  let xs := dropna l in
  if (length xs <? 2)%nat then NaN
  else
    let m := (Rsum xs / INR (length xs))%R in
    fin (sqrt (Rsum (map (fun x => ((x - m) * (x - m))%R) xs)
               / INR (length xs - 1))).

(** [Series.tail(n)]. *)
Definition tail {A : Type} (n : nat) (l : list A) : list A :=
  skipn (length l - n) l.

(** [np.arange(n)]. *)
Definition arange (n : nat) : list R := map INR (seq 0 n).

(** Slope of the least-squares line through the points [(x_i, y_i)].  numpy
    solves the system by an SVD; over exact numbers the solution is the closed
    form of the normal equations. *)
Definition lstsq_slope (x y : list R) : R :=
  let n := INR (length x) in
  let sx := Rsum x in
  let sy := Rsum y in
  let sxy := Rsum (map (fun p => (fst p * snd p)%R) (combine x y)) in
  let sxx := Rsum (map (fun a => (a * a)%R) x) in
  ((n * sxy - sx * sy) / (n * sxx - sx * sx))%R.

(** [np.polyfit(x, y, 1)[0]].  A NaN in [y] makes the LAPACK solver fail
    (LinAlgError). *)
Definition polyfit_slope (x : list R) (y : list float) : result float :=
  if forallb (fun a => negb (isna a)) y
  then Ok (fin (lstsq_slope x (dropna y)))
  else Raise LinAlgError.

(* ================================================================= *)
(** ** Civil calendar *)

Module Calendar.
Local Open Scope Z_scope.

(** Day number of the civil date [y-m-d] (proleptic Gregorian calendar,
    day 0 = 1970-01-01).  Years are counted from 1 March inside a 400-year
    era of 146097 days. *)
Definition days_from_civil (y m d : Z) : Z :=
  let y' := if m <=? 2 then y - 1 else y in
  let era := y' / 400 in
  let yoe := y' - era * 400 in
  let doy := (153 * (if 2 <? m then m - 3 else m + 9) + 2) / 5 + d - 1 in
  let doe := yoe * 365 + yoe / 4 - yoe / 100 + doy in
  era * 146097 + doe - 719468.

Definition year_of_era (doe : Z) : Z :=
  (doe - doe / 1460 + doe / 36524 - doe / 146096) / 365.

Definition year_start (yoe : Z) : Z := 365 * yoe + yoe / 4 - yoe / 100.

Definition civil_from_days (z : Z) : Z * Z * Z :=
  let z' := z + 719468 in
  let era := z' / 146097 in
  let doe := z' - era * 146097 in
  let yoe := year_of_era doe in
  let y := yoe + era * 400 in
  let doy := doe - year_start yoe in
  let mp := (5 * doy + 2) / 153 in
  let d := doy - (153 * mp + 2) / 5 + 1 in
  let m := if mp <? 10 then mp + 3 else mp - 9 in
  (if m <=? 2 then y + 1 else y, m, d).

(** [Timestamp.year], [.month], [.day], [.dayofyear]. *)
Definition dt_year (z : Z) : Z := fst (fst (civil_from_days z)).
Definition dt_month (z : Z) : Z := snd (fst (civil_from_days z)).
Definition dt_day (z : Z) : Z := snd (civil_from_days z).
Definition dayofyear (z : Z) : Z := z - days_from_civil (dt_year z) 1 1 + 1.

End Calendar.
Import Calendar.

(* ================================================================= *)
(** ** Strings: [str.strip] and [str.lower] *)

(** Whitespace removed by [str.strip()], on ASCII: tab to carriage return,
    the separators 28 to 31 and the space. *)
Definition is_space (c : ascii) : bool :=
  let n := nat_of_ascii c in
  ((9 <=? n) && (n <=? 13) || (28 <=? n) && (n <=? 31) || (n =? 32))%nat.

Definition to_lower (c : ascii) : ascii :=
  let n := nat_of_ascii c in
  if ((65 <=? n) && (n <=? 90))%nat then ascii_of_nat (n + 32) else c.

Fixpoint lstrip (s : string) : string :=
  match s with
  | EmptyString => EmptyString
  | String c s' => if is_space c then lstrip s' else s
  end.

Fixpoint rstrip (s : string) : string :=
  match s with
  | EmptyString => EmptyString
  | String c s' =>
      match rstrip s' with
      | EmptyString => if is_space c then EmptyString else String c EmptyString
      | t => String c t
      end
  end.

Definition strip (s : string) : string := lstrip (rstrip s).

Fixpoint lower (s : string) : string :=
  match s with
  | EmptyString => EmptyString
  | String c s' => String (to_lower c) (lower s')
  end.

(* ================================================================= *)
(** ** Generic table operations *)

(** Stable sort ([sort_values], [sort_index], group keys). *)
Fixpoint insert_by {A : Type} (leb : A -> A -> bool) (x : A) (l : list A)
  : list A :=
  match l with
  | [] => [x]
  | y :: l' => if leb x y then x :: l else y :: insert_by leb x l'
  end.

Definition sort_by {A : Type} (leb : A -> A -> bool) (l : list A) : list A :=
  fold_right (insert_by leb) [] l.

(** Order of the rows by an integer column. *)
Definition key_leb {A : Type} (key : A -> Z) (a b : A) : bool :=
  (key a <=? key b)%Z.

Definition key_le {A : Type} (key : A -> Z) (a b : A) : Prop :=
  (key a <= key b)%Z.

(** Keep the first row of every class of [same] ([keep='first']). *)
Fixpoint drop_dups_from {A : Type} (same : A -> A -> bool) (seen l : list A)
  : list A :=
  match l with
  | [] => []
  | x :: l' =>
      if existsb (same x) seen then drop_dups_from same seen l'
      else x :: drop_dups_from same (x :: seen) l'
  end.

Definition drop_duplicates {A : Type} (same : A -> A -> bool) (l : list A)
  : list A :=
  drop_dups_from same [] l.

(** [df.groupby(key)[val].mean().reset_index()]: one row per distinct key,
    keys in ascending order, the value being the mean of the group. *)
Definition groupby_mean {A K : Type} (eqb leb : K -> K -> bool)
    (key : A -> K) (val : A -> float) (l : list A) : list (K * float) :=
  map (fun k => (k, series_mean (map val (filter (fun r => eqb (key r) k) l))))
      (sort_by leb (drop_duplicates eqb (map key l))).

Definition pair_eqb (a b : Z * Z) : bool :=
  (fst a =? fst b)%Z && (snd a =? snd b)%Z.

Definition pair_leb (a b : Z * Z) : bool :=
  (fst a <? fst b)%Z || (fst a =? fst b)%Z && (snd a <=? snd b)%Z.

(* ================================================================= *)
(** ** Tables *)

(** A row of the normalized dataset: columns date, city, aqi and the date
    components added by the loader.  A missing city label is [None]. *)
Record row : Type := mkRow {
  date : Z;
  city : option string;
  aqi : float;
  year : Z;
  month : Z;
  day : Z
}.

(** A (date, aqi) table: daily and monthly series. *)
Definition series : Type := list (Z * float).

(** A row of the CSV file after [pd.to_datetime(errors='coerce')] and
    [pd.to_numeric(errors='coerce')]: an unparseable date or number is
    missing. *)
Record raw_row : Type := mkRaw {
  raw_date : option Z;
  raw_city : option string;
  raw_aqi : float
}.

(** The parsed file: its rows and whether a column named like "city" was
    found. *)
Record csv : Type := mkCsv {
  has_city_column : bool;
  csv_rows : list raw_row
}.

Inductive frame : Type :=
| Records (rows : list row)
| Series (pts : series).

Definition ALL_CITIES : string := "All Cities".

Definition option_string_eqb (a b : option string) : bool :=
  match a, b with
  | Some x, Some y => String.eqb x y
  | None, None => true
  | _, _ => false
  end.

(** Order of [sort_values(['city', 'date'])]: cities in code-point order,
    missing labels last, then dates. *)
Definition city_date_leb (a b : row) : bool :=
  match city a, city b with
  | Some x, Some y =>
      match String.compare x y with
      | Lt => true
      | Eq => (date a <=? date b)%Z
      | Gt => false
      end
  | Some _, None => true
  | None, Some _ => false
  | None, None => (date a <=? date b)%Z
  end.

Definition date_leb : row -> row -> bool := key_leb date.

Definition same_city_date (a b : row) : bool :=
  option_string_eqb (city a) (city b) && (date a =? date b)%Z.

Definition set_aqi (r : row) (v : float) : row :=
  mkRow (date r) (city r) v (year r) (month r) (day r).

(** [df['aqi'] = col]. *)
Definition assign_aqi (rows : list row) (col : list float) : list row :=
  map (fun p => set_aqi (fst p) (snd p)) (combine rows col).

(** [df.groupby('city')['aqi'].ffill()]: inside every city the last value seen
    is carried forward; [last] maps a city to that value.  groupby drops the
    rows without a key, so a row with a missing city gets NaN. *)
Fixpoint group_ffill (last : list (string * R)) (rows : list row)
  : list float :=
  match rows with
  | [] => []
  | r :: rows' =>
      match city r with
      | None => NaN :: group_ffill last rows'
      | Some c =>
          match aqi r with
          | Some v => fin v :: group_ffill ((c, v) :: last) rows'
          | None =>
              match find (fun p => String.eqb (fst p) c) last with
              | Some p => fin (snd p) :: group_ffill last rows'
              | None => NaN :: group_ffill last rows'
              end
          end
      end
  end.

(** [Series.ffill()] and [Series.bfill()]. *)
Fixpoint ffill_from (prev : float) (l : list float) : list float :=
  match l with
  | [] => []
  | Some v :: l' => Some v :: ffill_from (Some v) l'
  | None :: l' => prev :: ffill_from prev l'
  end.

Definition ffill (l : list float) : list float := ffill_from NaN l.

Fixpoint bfill (l : list float) : list float :=
  match l with
  | [] => []
  | a :: l' =>
      let t := bfill l' in
      match a with
      | Some v => Some v :: t
      | None => hd NaN t :: t
      end
  end.

(** [Series.fillna(v)]. *)
Definition fillna (v : float) (l : list float) : list float :=
  map (fun a => if isna a then v else a) l.

(* ================================================================= *)
(** ** The heap of DataFrames and the dataset cache *)

Record state : Type := mkState {
  heap : list frame;
  _data_cache : option nat
}.

Definition alloc (f : frame) (s : state) : nat * state :=
  (length (heap s), mkState (heap s ++ [f]) (_data_cache s)).

Definition deref (l : nat) (s : state) : option frame := nth_error (heap s) l.

Fixpoint replace_nth {A : Type} (n : nat) (x : A) (l : list A) : list A :=
  match l, n with
  | [], _ => []
  | _ :: l', O => x :: l'
  | y :: l', S n' => y :: replace_nth n' x l'
  end.

Definition store (l : nat) (f : frame) (s : state) : state :=
  mkState (replace_nth l f (heap s)) (_data_cache s).

(** Lines 72-123 of [load_full_dataset] on the parsed file: rows without a
    date or an AQI are dropped, the city column is created when absent, the
    rows are sorted by city then date and the date components are added. *)
Definition normalize (f : csv) : list row :=
  let rows :=
    flat_map (fun r =>
      match raw_date r, raw_aqi r with
      | Some d, Some v =>
          [mkRow d (if has_city_column f then raw_city r else Some ALL_CITIES)
                 (fin v) (dt_year d) (dt_month d) (dt_day d)]
      | _, _ => []
      end) (csv_rows f) in
  sort_by city_date_leb rows.

(** [load_full_dataset(file_path)]; [file] is what [pd.read_csv(file_path)]
    gives, [None] when it raises.  The result is the address of the cached
    DataFrame, [None] on failure. *)
Definition load_full_dataset (file : option csv) (s : state)
  : option nat * state :=
  match _data_cache s with
  | Some l => (Some l, s)
  | None =>
      match file with
      | None => (None, s)
      | Some f =>
          let (l, s1) := alloc (Records (normalize f)) s in
          (Some l, mkState (heap s1) (Some l))
      end
  end.

(* ================================================================= *)
(** ** Series preparer *)

(** [df['city'].str.strip().str.lower() == city.strip().lower()]; a missing
    label compares unequal. *)
Definition city_mask (wanted : string) (r : row) : bool :=
  match city r with
  | Some c => String.eqb (lower (strip c)) (lower (strip wanted))
  | None => false
  end.

(** Truth value of the argument [city]: [None] and the empty string are
    false. *)
Definition truthy (c : option string) : bool :=
  match c with
  | None => false
  | Some EmptyString => false
  | Some _ => true
  end.

(** Lines 161-167 on the rows of [df]: the two assignments to [df['aqi']]. *)
Definition fill_missing (rows : list row) : list row :=
  let rows1 := assign_aqi rows (bfill (group_ffill [] rows)) in
  assign_aqi rows1 (fillna (series_mean (map aqi rows1)) (map aqi rows1)).

(** Lines 169-179: duplicates of (city, date) dropped, rows sorted by date. *)
Definition dedup_sort (rows : list row) : list row :=
  sort_by date_leb (drop_duplicates same_city_date rows).

(** Why the preparer returned [None]: the message it printed. *)
Inductive prep_error : Type :=
| LoadFailed
| NoDataForCity
| PreprocessError.

(** Line 154: [city and city != 'All Cities' and 'city' in df.columns]; the
    loader always leaves a city column. *)
Definition city_filter_applies (city_arg : option string) : bool :=
  match city_arg with
  | Some c => truthy city_arg && negb (String.eqb c ALL_CITIES)
  | None => false
  end.

Definition city_text (city_arg : option string) : string :=
  match city_arg with
  | Some c => c
  | None => EmptyString
  end.

(** [load_and_preprocess_data(file_path, city)].  [df] starts as the address
    returned by the loader, that is the cached object itself; only the city
    filter rebinds it to a copy.  The assignments of lines 161-167 go to
    whatever [df] names. *)
Definition load_and_preprocess_data (file : option csv)
    (city_arg : option string) (s : state) : (prep_error + nat) * state :=
  match load_full_dataset file s with
  | (None, s1) => (inl LoadFailed, s1)
  | (Some l0, s1) =>
      match deref l0 s1 with
      | Some (Records rows0) =>
          let (df, s2) :=
            if city_filter_applies city_arg
            then alloc (Records (filter (city_mask (city_text city_arg)) rows0))
                       s1
            else (l0, s1) in
          match deref df s2 with
          | Some (Records rows) =>
              if city_filter_applies city_arg && (length rows =? 0)%nat
              then (inl NoDataForCity, s2)
              else
                let s3 := store df (Records (fill_missing rows)) s2 in
                let (out, s4) :=
                  alloc (Records (dedup_sort (fill_missing rows))) s3 in
                (inr out, s4)
          | _ => (inl PreprocessError, s2)
          end
      | _ => (inl PreprocessError, s1)
      end
  end.

(* ================================================================= *)
(** ** Aggregator *)

(** The grouped means of [calculate_daily_aqi]: one row per calendar date. *)
Definition daily_table (rows : list row) : series :=
  groupby_mean Z.eqb Z.leb date aqi rows.

(** Lines 202-203: the year and month columns are set from the date. *)
Definition with_year_month (rows : list row) : list row :=
  map (fun r => mkRow (date r) (city r) (aqi r)
                      (dt_year (date r)) (dt_month (date r)) (day r)) rows.

Definition series_leb : Z * float -> Z * float -> bool := key_leb fst.

(** Lines 206-212 on the rows of [df_copy]: grouped means by (year, month),
    the date rebuilt as the first of the month, rows sorted by date. *)
Definition monthly_table (rows : list row) : series :=
  let monthly_aqi :=
    groupby_mean pair_eqb pair_leb (fun r => (year r, month r)) aqi rows in
  sort_by series_leb
    (map (fun g => (days_from_civil (fst (fst g)) (snd (fst g)) 1, snd g))
         monthly_aqi).

(** [calculate_daily_aqi(df)] for a prepared table at address [df]: the
    result is a new DataFrame. *)
Definition calculate_daily_aqi (df : nat) (s : state) : result nat * state :=
  match deref df s with
  | Some (Records rows) =>
      let (daily_aqi, s1) := alloc (Series (daily_table rows)) s in
      (Ok daily_aqi, s1)
  | _ => (Raise KeyError, s)
  end.

(** [calculate_monthly_aqi(df)]: [df_copy] is a new object and the column
    assignments go to it. *)
Definition calculate_monthly_aqi (df : nat) (s : state) : result nat * state :=
  match deref df s with
  | Some (Records rows) =>
      let (df_copy, s1) := alloc (Records rows) s in
      let s2 := store df_copy (Records (with_year_month rows)) s1 in
      match deref df_copy s2 with
      | Some (Records rows2) =>
          let (monthly_aqi, s3) := alloc (Series (monthly_table rows2)) s2 in
          (Ok monthly_aqi, s3)
      | _ => (Raise KeyError, s2)
      end
  | _ => (Raise KeyError, s)
  end.

(* ================================================================= *)
(** ** Forecast engine *)

Record forecast_row : Type := mkForecast {
  f_date : Z;
  f_aqi : float;
  lower_bound : float;
  upper_bound : float
}.

Definition sort_index (ts : series) : series := sort_by series_leb ts.

(** The days [d0, d0 + 1, ..., d1]. *)
Definition day_range (d0 d1 : Z) : list Z :=
  map (fun i => (d0 + Z.of_nat i)%Z) (seq 0 (Z.to_nat (d1 - d0 + 1))).

(** [resample('D').mean()] of a series sorted by date: one row per day from
    the first to the last date, the mean of the day's values, NaN for a day
    without values. *)
Definition resample_D_mean (ts : series) : series :=
  match ts with
  | [] => []
  | p0 :: _ =>
      map (fun d =>
             (d, series_mean (map snd (filter (fun p => (fst p =? d)%Z) ts))))
          (day_range (fst p0) (fst (last ts p0)))
  end.

Definition on_values (f : list float -> list float) (ts : series) : series :=
  combine (map fst ts) (f (map snd ts)).

(** Lines 230-237 (and 329-336): the time series both forecasters work on. *)
Definition regularize (df : series) : series :=
  let df_ts := sort_index df in
  if (0 <? length df_ts)%nat
  then on_values bfill (on_values ffill (resample_D_mean df_ts))
  else df_ts.

(** [df_ts.index[-1]]. *)
Definition index_last (ts : series) : result Z :=
  match ts with
  | [] => Raise IndexError
  | p0 :: _ => Ok (fst (last ts p0))
  end.

(** [pd.date_range(start, periods=n, freq='D')] for a range that pandas can
    hold; days are numbers without bound here, and the bound of pandas is
    [Timestamp_max] below. *)
Definition date_range (start : Z) (periods : nat) : list Z :=
  map (fun i => (start + Z.of_nat i)%Z) (seq 0 periods).

(** Lines 248-255. *)
Definition trend_slope_of (recent_data : list float) : result float :=
  if (1 <? length recent_data)%nat
  then polyfit_slope (arange (length recent_data)) recent_data
  else Ok (fin 0).

(** Lines 258-263: mean AQI per day of the year, when a year of data exists. *)
Definition seasonal_pattern_of (df_ts : series) : option (list (Z * float)) :=
  if (365 <=? length df_ts)%nat
  then Some (groupby_mean Z.eqb Z.leb (fun p => dayofyear (fst p)) snd df_ts)
  else None.

(** Line 288. *)
Definition confidence_range_of (recent_mean recent_std : float) : float :=
  if negb (isna recent_std)
  then fmul recent_std (fin (196 / 100))
  else fmul recent_mean (fin (2 / 10)).

(** Lines 275-285: the point forecast of step [i]. *)
Definition base_forecast_of (recent_mean trend_slope : float)
    (seasonal_pattern : option (list (Z * float)))
    (i : nat) (forecast_date : Z) : float :=
  let base_forecast := fadd recent_mean (fmul trend_slope (fin (INR (i + 1)))) in
  let base_forecast :=
    match seasonal_pattern with
    | Some pat =>
        match find (fun g => (fst g =? dayofyear forecast_date)%Z) pat with
        | Some g =>
            fadd base_forecast (fmul (fsub (snd g) recent_mean) (fin (3 / 10)))
        | None => base_forecast
        end
    | None => base_forecast
    end in
  py_max (fin 0) (py_min (fin 500) base_forecast).

(** [pd.DataFrame({...})] of four columns: the columns must have one length. *)
Definition DataFrame (dates : list Z) (values lower upper : list float)
  : result (list forecast_row) :=
  if ((length values =? length dates) && (length lower =? length dates)
      && (length upper =? length dates))%nat
  then Ok (map (fun q => mkForecast (fst (fst (fst q))) (snd (fst (fst q)))
                                    (snd (fst q)) (snd q))
               (combine (combine (combine dates values) lower) upper))
  else Raise (ValueError "All arrays must be of the same length").

(** The body of the [try] of [forecast_aqi_simple]. *)
Definition forecast_aqi_simple_body (df : series) (forecast_days : nat)
  : result (list forecast_row) :=
  let df_ts := regularize df in
  if (length df_ts <? 7)%nat
  then Raise (ValueError "Not enough data for forecasting")
  else
    let window := Nat.min 7 (length df_ts) in
    let recent_mean := series_mean (tail window (map snd df_ts)) in
    let recent_std := series_std (tail window (map snd df_ts)) in
    let recent_data := tail (Nat.min 30 (length df_ts)) (map snd df_ts) in
    trend_slope <- trend_slope_of recent_data ;;
    let seasonal_pattern := seasonal_pattern_of df_ts in
    last_date <- index_last df_ts ;;
    let forecast_dates := date_range (last_date + 1) forecast_days in
    let steps := combine (seq 0 (length forecast_dates)) forecast_dates in
    let forecast_values :=
      map (fun q => base_forecast_of recent_mean trend_slope seasonal_pattern
                                     (fst q) (snd q)) steps in
    let confidence_range := confidence_range_of recent_mean recent_std in
    let lower_bounds :=
      map (fun b => py_max (fin 0) (fsub b confidence_range)) forecast_values in
    let upper_bounds :=
      map (fun b => py_min (fin 500) (fadd b confidence_range)) forecast_values in
    DataFrame forecast_dates forecast_values lower_bounds upper_bounds.

(** [forecast_aqi_simple(df, forecast_days)]: the forecast table, or [None]
    when the body raised. *)
Definition forecast_aqi_simple (df : series) (forecast_days : nat)
  : option (list forecast_row) :=
  match forecast_aqi_simple_body df forecast_days with
  | Ok forecast_df => Some forecast_df
  | Raise _ => None
  end.

(** The part of statsmodels the program calls.  Fitting and forecasting are
    not computed here: a library is any implementation of this interface. *)
Record statsmodels : Type := mkStatsmodels {
  fitted_model : Type;
  (** [ARIMA(series, order=(p, d, q)).fit()] *)
  ARIMA_fit : series -> nat * nat * nat -> result fitted_model;
  (** [fitted_model.forecast(steps).values] *)
  forecast : fitted_model -> nat -> result (list float);
  (** [fitted_model.get_forecast(steps).conf_int()], a (lower, upper) pair per
      step *)
  conf_int : fitted_model -> nat -> result (list (float * float))
}.

Section ForecastArima.

(** Whether the import of statsmodels succeeded, and the library. *)
Variable ARIMA_AVAILABLE : bool.
Variable sm : statsmodels.

(** Lines 340-352: the three orders, each tried when the previous one
    raised. *)
Definition fit_ladder (ts : series) : result (fitted_model sm) :=
  match ARIMA_fit sm ts (1, 1, 1)%nat with
  | Ok m => Ok m
  | Raise _ =>
      match ARIMA_fit sm ts (1, 0, 1)%nat with
      | Ok m => Ok m
      | Raise _ => ARIMA_fit sm ts (1, 0, 0)%nat
      end
  end.

(** The body of the [try] of [forecast_aqi_arima]. *)
Definition forecast_aqi_arima_body (df : series) (forecast_days : nat)
  : result (list forecast_row) :=
  let df_ts := regularize df in
  fitted <- fit_ladder df_ts ;;
  fc <- forecast sm fitted forecast_days ;;
  forecast_conf_int <- conf_int sm fitted forecast_days ;;
  last_date <- index_last df_ts ;;
  let forecast_dates := date_range (last_date + 1) forecast_days in
  DataFrame forecast_dates fc (map fst forecast_conf_int)
            (map snd forecast_conf_int).

(** [forecast_aqi_arima(df, forecast_days)], first component of the result. *)
Definition forecast_aqi_arima (df : series) (forecast_days : nat)
  : option (list forecast_row) :=
  if negb ARIMA_AVAILABLE then forecast_aqi_simple df forecast_days
  else
    match forecast_aqi_arima_body df forecast_days with
    | Ok forecast_df => Some forecast_df
    | Raise _ => forecast_aqi_simple df forecast_days
    end.

End ForecastArima.

(* ================================================================= *)
(** ** The fallback formula in the words of the specification (section 4.3)

    Over a regularized history [hist] of (date, value) pairs without missing
    values. *)

Module Spec.

Definition mean (l : list R) : R := (Rsum l / INR (length l))%R.

(** Sample standard deviation: squared deviations from the mean, divided by
    one less than the number of values. *)
Definition sample_std (l : list R) : R :=
  sqrt (Rsum (map (fun x => ((x - mean l) * (x - mean l))%R) l)
        / (INR (length l) - 1)).

(** Slope of the least-squares line of the values against their 0-based
    index: covariance over variance; 0 for fewer than two points. *)
Definition ols_slope (ys : list R) : R :=
  let xs := arange (length ys) in
  if (length ys <? 2)%nat then 0%R
  else
    (Rsum (map (fun p => ((fst p - mean xs) * (snd p - mean ys))%R)
               (combine xs ys))
     / Rsum (map (fun x => ((x - mean xs) * (x - mean xs))%R) xs))%R.

Definition clamp (lo hi x : R) : R := Rmax lo (Rmin hi x).

Definition last_values (n : nat) (hist : list (Z * R)) : list R :=
  map snd (skipn (length hist - Nat.min n (length hist)) hist).

Definition recent_mean (hist : list (Z * R)) : R := mean (last_values 7 hist).
Definition recent_std (hist : list (Z * R)) : R :=
  sample_std (last_values 7 hist).
Definition trend_slope (hist : list (Z * R)) : R :=
  ols_slope (last_values 30 hist).

(** Mean value of the history on one day of the year, if that day occurs. *)
Definition seasonal_pattern (hist : list (Z * R)) (doy : Z) : option R :=
  match filter (fun p => (dayofyear (fst p) =? doy)%Z) hist with
  | [] => None
  | g => Some (mean (map snd g))
  end.

Definition last_date (hist : list (Z * R)) : Z := fst (last hist (0%Z, 0%R)).

Definition target_date (hist : list (Z * R)) (i : nat) : Z :=
  (last_date hist + 1 + Z.of_nat i)%Z.

Definition seasonal_adjustment (hist : list (Z * R)) (i : nat) : R :=
  if (365 <=? length hist)%nat
  then
    match seasonal_pattern hist (dayofyear (target_date hist i)) with
    | Some v => (3 / 10 * (v - recent_mean hist))%R
    | None => 0%R
    end
  else 0%R.

Definition base (hist : list (Z * R)) (i : nat) : R :=
  clamp 0 500 (recent_mean hist + trend_slope hist * INR (i + 1)
               + seasonal_adjustment hist i).

Definition confidence_range (hist : list (Z * R)) : R :=
  (196 / 100 * recent_std hist)%R.

Definition lower (hist : list (Z * R)) (i : nat) : R :=
  Rmax 0 (base hist i - confidence_range hist).

Definition upper (hist : list (Z * R)) (i : nat) : R :=
  Rmin 500 (base hist i + confidence_range hist).

Definition forecast_entry (hist : list (Z * R)) (i : nat) : forecast_row :=
  mkForecast (target_date hist i) (fin (base hist i)) (fin (lower hist i))
             (fin (upper hist i)).

Definition fallback (hist : list (Z * R)) (horizon_days : nat)
  : list forecast_row :=
  map (forecast_entry hist) (seq 0 horizon_days).

End Spec.

(** A series without missing values, seen as a table. *)
Definition lift (hist : list (Z * R)) : series :=
  map (fun p => (fst p, fin (snd p))) hist.

Definition no_nan (df : series) : Prop :=
  Forall (fun p => snd p <> NaN) df.

(** The invariant of a forecast entry: [0 <= lower <= aqi <= upper <= 500]. *)
Definition entry_in_bounds (e : forecast_row) : Prop :=
  exists a l u : R,
    f_aqi e = fin a /\ lower_bound e = fin l /\ upper_bound e = fin u /\
    (0 <= l <= a)%R /\ (a <= u <= 500)%R.

(* ================================================================= *)
(** ** Inputs used in the examples *)

(** A gap-free daily table: the values [xs] on the days [d0], [d0 + 1], ... *)
Definition daily_values (d0 : Z) (xs : list R) : series :=
  lift (combine (date_range d0 (length xs)) xs).

(** A statsmodels whose fits succeed and whose forecast is, at every step,
    the point [p] with the interval from [lo] to [hi]. *)
Definition constant_model (p lo hi : R) : statsmodels :=
  {| fitted_model := unit;
     ARIMA_fit := fun _ _ => Ok tt;
     forecast := fun _ n => Ok (repeat (fin p) n);
     conf_int := fun _ n => Ok (repeat (fin lo, fin hi) n) |}.

(** A statsmodels whose fits all raise. *)
Definition failing_model : statsmodels :=
  {| fitted_model := unit;
     ARIMA_fit := fun _ _ => Raise ModelError;
     forecast := fun _ _ => Raise ModelError;
     conf_int := fun _ _ => Raise ModelError |}.

(** Ten days of low readings, five days of readings, and the ten readings
    of the end-to-end example of the specification. *)
Definition low_aqi_days : list R := [3; 25; 8; 30; 2; 18; 5; 28; 4; 12]%R.
Definition five_days : list R := [10; 12; 11; 13; 12]%R.
Definition ten_days : list R := [50; 55; 60; 58; 62; 65; 61; 63; 67; 70]%R.

(** The requested city matches a row: equal labels, case-insensitively,
    after trimming whitespace on both sides. *)
Definition city_matches (r : row) (wanted : string) : Prop :=
  exists c, city r = Some c /\ lower (strip c) = lower (strip wanted).

(** The table of the loader has no missing AQI (line 112). *)
Definition canonical (table : list row) : Prop :=
  Forall (fun r => aqi r <> NaN) table.

(** Every row has a city label. *)
Definition labelled (rows : list row) : Prop :=
  Forall (fun r => city r <> None) rows.

(** ** The city match in the words of the specification *)

(** The whitespace characters of ASCII: tab, line feed, vertical tab, form
    feed, carriage return, the four separators and the space. *)
Definition whitespace : list ascii :=
  map ascii_of_nat [9; 10; 11; 12; 13; 28; 29; 30; 31; 32]%nat.

(** Every letter with its two cases. *)
Definition letter_cases : list (ascii * ascii) :=
  combine (list_ascii_of_string "ABCDEFGHIJKLMNOPQRSTUVWXYZ")
          (list_ascii_of_string "abcdefghijklmnopqrstuvwxyz").

(** A string of whitespace only. *)
Definition blank (s : string) : Prop :=
  Forall (fun c => In c whitespace) (list_ascii_of_string s).

(** [t] is [s] with the whitespace on both sides taken off: [s] is [t]
    between two blank strings, and [t] neither starts nor ends with a
    whitespace character. *)
Definition trimmed (s t : string) : Prop :=
  exists l r : string,
    s = (l ++ t ++ r)%string /\ blank l /\ blank r
    /\ (forall c u, t = String c u -> ~ In c whitespace)
    /\ (forall u c, t = (u ++ String c EmptyString)%string ->
                    ~ In c whitespace).

(** The same character, or the two cases of one letter. *)
Definition same_letter (a b : ascii) : Prop :=
  a = b \/ In (a, b) letter_cases \/ In (b, a) letter_cases.

(** Equal up to the case of the letters. *)
Definition same_text (a b : string) : Prop :=
  Forall2 same_letter (list_ascii_of_string a) (list_ascii_of_string b).

(** The label matches the requested city: equal case-insensitively once
    both are trimmed. *)
Definition label_matches (label wanted : string) : Prop :=
  exists a b : string,
    trimmed label a /\ trimmed wanted b /\ same_text a b.

(** A row matches the requested city when its label does; a row without a
    label matches no city. *)
Definition row_matches (r : row) (wanted : string) : Prop :=
  exists c, city r = Some c /\ label_matches c wanted.

(** The letters that [str.lower] changes. *)
Definition is_upper (c : ascii) : bool :=
  let n := nat_of_ascii c in ((65 <=? n) && (n <=? 90))%nat.

(** A process that has loaded nothing yet. *)
Definition empty_state : state := mkState [] None.

(** A file of three readings, the last one without a city label; the days
    are 2020-01-01 to 2020-01-03. *)
Definition blank_city_file : csv :=
  mkCsv true
    [ mkRaw (Some 18262%Z) (Some "Delhi"%string) (fin 100);
      mkRaw (Some 18263%Z) (Some "Delhi"%string) (fin 200);
      mkRaw (Some 18264%Z) None (fin 50) ].

Definition state_after_load : state :=
  snd (load_full_dataset (Some blank_city_file) empty_state).

Definition state_after_prepare : state :=
  snd (load_and_preprocess_data (Some blank_city_file) None state_after_load).

(** A file whose labels differ in case and in surrounding whitespace. *)
Definition spaced_city_file : csv :=
  mkCsv true
    [ mkRaw (Some 18262%Z) (Some " Delhi"%string) (fin 100);
      mkRaw (Some 18263%Z) (Some "DELHI "%string) (fin 200);
      mkRaw (Some 18264%Z) (Some "Mumbai"%string) (fin 50) ].

(** ** The aggregator in the words of the specification *)

(** The (year, month) of a date. *)
Definition year_month (d : Z) : Z * Z := (dt_year d, dt_month d).

(** The AQI values of the rows of one month. *)
Definition month_values (rows : list row) (ym : Z * Z) : list R :=
  dropna (map aqi (filter (fun r => pair_eqb (year_month (date r)) ym) rows)).

(** [t] is the monthly series of [rows]: sorted by date, one entry per
    (year, month) that occurs in [rows], each entry dated the first of its
    month and holding the arithmetic mean of the month's values. *)
Definition is_monthly_series (rows : list row) (t : series) : Prop :=
  StronglySorted (key_le fst) t
  /\ NoDup (map (fun e => year_month (fst e)) t)
  /\ (forall r, In r rows ->
         exists e, In e t /\ year_month (fst e) = year_month (date r))
  /\ (forall e, In e t ->
         dt_day (fst e) = 1%Z
         /\ (exists r, In r rows /\ year_month (date r) = year_month (fst e))
         /\ snd e = fin (Spec.mean (month_values rows (year_month (fst e))))).

(** Calling the aggregation [op] twice on the table at [df] gives two
    DataFrames with the same content, and leaves every DataFrame that existed
    before, and the cache, as they were. *)
Definition repeatable (op : nat -> state -> result nat * state) (df : nat)
    (s : state) : Prop :=
  exists (out1 out2 : nat) (s1 s2 : state) (t : series),
    op df s = (Ok out1, s1) /\ op df s1 = (Ok out2, s2)
    /\ deref out1 s1 = Some (Series t)
    /\ deref out2 s2 = Some (Series t)
    /\ deref out1 s2 = Some (Series t)
    /\ _data_cache s2 = _data_cache s
    /\ (forall l f, deref l s = Some f -> deref l s2 = Some f).

(* ================================================================= *)
(** ** HTTP endpoints

    The handlers of the Flask routes, as functions of the parsed request
    arguments, of what [pd.read_csv(DATA_FILE)] gives and of the state.  A
    response is the JSON body (status 200) or an error body with its
    status. *)

(** The text of an error body: a literal of the program, or [str(e)] of the
    exception the handler caught. *)
Inductive error_text : Type :=
| Text (msg : string)
| ExceptionText.

Inductive response (A : Type) : Type :=
| Json (body : A)
| ErrorJson (status : nat) (error : error_text).

Arguments Json {A} body.
Arguments ErrorJson {A} status error.

(** [strftime('%Y-%m-%d')], for the four-digit years of pandas timestamps. *)
Definition digit (n : Z) : ascii := ascii_of_nat (48 + Z.to_nat n).

Definition two_digits (n : Z) : string :=
  String (digit (n / 10)) (String (digit (n mod 10)) EmptyString).

Definition four_digits (n : Z) : string :=
  String (digit (n / 1000))
    (String (digit (n / 100 mod 10)) (two_digits (n mod 100))).

Definition strftime (z : Z) : string :=
  (four_digits (dt_year z) ++ "-" ++ two_digits (dt_month z) ++ "-"
   ++ two_digits (dt_day z))%string.

Definition is_missing (c : option string) : bool :=
  match c with
  | None => true
  | Some _ => false
  end.

(** The order [sorted] uses on labels: [a] before [b] unless [b < a]; two
    missing labels (NaN) never compare as smaller. *)
Definition label_leb (a b : option string) : bool :=
  match a, b with
  | Some x, Some y => String.leb x y
  | _, _ => true
  end.

(** [sorted(labels)]: comparing a missing label (a float NaN) with a string
    raises TypeError, which happens as soon as the list holds both kinds;
    [None] is that exception. *)
Definition py_sorted (labels : list (option string))
  : option (list (option string)) :=
  if existsb is_missing labels && existsb (fun c => negb (is_missing c)) labels
  then None
  else Some (sort_by label_leb labels).

(** Line 395: [pd.notna(c) and str(c).strip() != ''] *)
Definition shown_city (c : option string) : bool :=
  match c with
  | Some x => negb (String.eqb (strip x) EmptyString)
  | None => false
  end.

Definition label_text (c : option string) : list string :=
  match c with
  | Some x => [x]
  | None => []
  end.

(** [city if city else 'All Cities'] *)
Definition city_label (city_arg : option string) : string :=
  if truthy city_arg then city_text city_arg else ALL_CITIES.

Record trend_body : Type := mkTrend {
  trend_city : string;
  trend_dates : list string;
  trend_aqi_values : list float
}.

Record forecast_body : Type := mkForecastBody {
  body_city : string;
  body_historical_dates : list string;
  body_historical_aqi : list float;
  body_forecast_dates : list string;
  body_forecast_aqi : list float;
  body_lower_bound : list float;
  body_upper_bound : list float
}.

Module Api.

(** [GET /api/cities].  The loader always leaves a city column, so the
    branch for a table without one is not reached. *)
Definition get_cities (file : option csv) (s : state)
  : response (list string) * state :=
  match load_full_dataset file s with
  | (None, s1) => (ErrorJson 500 (Text "Failed to load data"), s1)
  | (Some df, s1) =>
      match deref df s1 with
      | Some (Records rows) =>
          match py_sorted (drop_duplicates option_string_eqb (map city rows))
          with
          | Some cities =>
              (Json (flat_map label_text (filter shown_city cities)), s1)
          | None => (ErrorJson 500 ExceptionText, s1)
          end
      | _ => (ErrorJson 500 ExceptionText, s1)
      end
  end.

(** The body of a trend response from the table at [t]. *)
Definition trend_response (city_arg : option string) (r : result nat * state)
  : response trend_body * state :=
  match r with
  | (Ok t, s2) =>
      match deref t s2 with
      | Some (Series pts) =>
          (Json (mkTrend (city_label city_arg)
                         (map (fun p => strftime (fst p)) pts)
                         (map snd pts)), s2)
      | _ => (ErrorJson 500 ExceptionText, s2)
      end
  | (Raise _, s2) => (ErrorJson 500 ExceptionText, s2)
  end.

(** [GET /api/daily-trend?city=] *)
Definition daily_trend (file : option csv) (city_arg : option string)
    (s : state) : response trend_body * state :=
  match load_and_preprocess_data file city_arg s with
  | (inl _, s1) => (ErrorJson 500 (Text "Failed to load data"), s1)
  | (inr df, s1) => trend_response city_arg (calculate_daily_aqi df s1)
  end.

(** [GET /api/monthly-trend?city=] *)
Definition monthly_trend (file : option csv) (city_arg : option string)
    (s : state) : response trend_body * state :=
  match load_and_preprocess_data file city_arg s with
  | (inl _, s1) => (ErrorJson 500 (Text "Failed to load data"), s1)
  | (inr df, s1) => trend_response city_arg (calculate_monthly_aqi df s1)
  end.

Section Forecast.

Variable ARIMA_AVAILABLE : bool.
Variable sm : statsmodels.

(** [POST /api/forecast] with body [{days?, city?}]; [days] defaults to
    30.  The bodies modelled are those whose [days] is absent or a
    non-negative integer. *)
Definition forecast (file : option csv) (days : option nat)
    (city_arg : option string) (s : state) : response forecast_body * state :=
  let forecast_days := match days with Some d => d | None => 30%nat end in
  match load_and_preprocess_data file city_arg s with
  | (inl _, s1) => (ErrorJson 500 (Text "Failed to load data"), s1)
  | (inr df, s1) =>
      match calculate_daily_aqi df s1 with
      | (Ok daily_df, s2) =>
          match deref daily_df s2 with
          | Some (Series pts) =>
              match forecast_aqi_arima ARIMA_AVAILABLE sm pts forecast_days
              with
              | None =>
                  (ErrorJson 500 (Text "Failed to generate forecast"), s2)
              | Some forecast_df =>
                  (Json (mkForecastBody
                           (city_label city_arg)
                           (map (fun p => strftime (fst p)) pts)
                           (map snd pts)
                           (map (fun e => strftime (f_date e)) forecast_df)
                           (map f_aqi forecast_df)
                           (map lower_bound forecast_df)
                           (map upper_bound forecast_df)), s2)
              end
          | _ => (ErrorJson 500 ExceptionText, s2)
          end
      | (Raise _, s2) => (ErrorJson 500 ExceptionText, s2)
      end
  end.

End Forecast.

End Api.

(** ** Vocabulary of the further properties *)

(** The (city, date) of a row: the key of [drop_duplicates]. *)
Definition row_key (r : row) : option string * Z := (city r, date r).

(** A row of the file with a date and an AQI. *)
Definition complete (q : raw_row) : bool :=
  match raw_date q, raw_aqi q with
  | Some _, Some _ => true
  | _, _ => false
  end.



(** The AQI values of the rows of one date. *)
Definition date_values (rows : list row) (d : Z) : list R :=
  dropna (map aqi (filter (fun r => (date r =? d)%Z) rows)).

(** [t] is the daily series of [rows]: dates strictly increasing, one entry
    per date that occurs in [rows], holding the arithmetic mean of the
    date's values. *)
Definition is_daily_series (rows : list row) (t : series) : Prop :=
  StronglySorted Z.lt (map fst t)
  /\ (forall d, In d (map fst t) <-> exists r, In r rows /\ date r = d)
  /\ (forall e, In e t -> snd e = fin (Spec.mean (date_values rows (fst e)))).

(** The values observed on one day in a (date, aqi) table, in table order. *)
Definition observations (df : series) (d : Z) : list R :=
  dropna (map snd (filter (fun p => (fst p =? d)%Z) df)).

(** The rows the preparer works on: the table, or with a city filter its
    matching rows (lines 153-158). *)
Definition rows_worked_on (city_arg : option string) (table : list row)
  : list row :=
  if city_filter_applies city_arg
  then filter (city_mask (city_text city_arg)) table
  else table.

(** No two rows are [k] days or more apart. *)
Definition span_below (k : Z) (rows : list row) : Prop :=
  forall r r', In r rows -> In r' rows -> (date r' - date r < k)%Z.

(** Line 508: [data.get('days', 30)]. *)
Definition forecast_days (days : option nat) : nat :=
  match days with
  | Some d => d
  | None => 30%nat
  end.

(** The last day a pandas timestamp can hold, 2262-04-11: beyond it
    [pd.date_range] raises OutOfBoundsDatetime. *)
Definition Timestamp_max : Z := days_from_civil 2262 4 11.

(** The [n] days that follow the dates of [df], and the end of their range,
    are days pandas can hold. *)
Definition horizon_in_range (df : series) (n : nat) : Prop :=
  forall p, In p df -> (fst p + Z.of_nat n < Timestamp_max)%Z.

Definition rows_in_range (rows : list row) (n : nat) : Prop :=
  forall r, In r rows -> (date r + Z.of_nat n < Timestamp_max)%Z.

(* ================================================================= *)
(** * Proofs *)

(** ** The model on small inputs *)

Example civil_2020_01_01 : civil_from_days 18262 = (2020, 1, 1)%Z.
Proof. reflexivity. Qed.

Example civil_epoch : civil_from_days 0 = (1970, 1, 1)%Z.
Proof. reflexivity. Qed.

Example days_2020_01_01 : days_from_civil 2020 1 1 = 18262%Z.
Proof. reflexivity. Qed.

Example dayofyear_leap_day : dayofyear 18321 = 60%Z.
Proof. reflexivity. Qed.

Example dayofyear_last_day : dayofyear 18627 = 366%Z.
Proof. reflexivity. Qed.

Example strip_spaces : strip "  New Delhi  " = "New Delhi"%string.
Proof. reflexivity. Qed.

Example lower_mixed : lower "DeLHi" = "delhi"%string.
Proof. reflexivity. Qed.

Example city_mask_trims :
  city_mask " delhi " (mkRow 18262 (Some "Delhi "%string) (fin 100) 2020 1 1)
  = true.
Proof. reflexivity. Qed.

Example drop_duplicates_keeps_first :
  drop_duplicates Z.eqb [3; 1; 3; 2; 1]%Z = [3; 1; 2]%Z.
Proof. reflexivity. Qed.

Example date_range_three : date_range 10 3 = [10; 11; 12]%Z.
Proof. reflexivity. Qed.

(** ** Floats *)

Lemma py_max_fin (a b : R) : py_max (fin a) (fin b) = fin (Rmax a b).
Proof.
  unfold py_max, flt, fin, Rmax.
  destruct (Rlt_dec a b) as [H | H]; destruct (Rle_dec a b) as [H' | H'];
    try reflexivity; try lra.
  f_equal. lra.
Qed.

Lemma py_min_fin (a b : R) : py_min (fin a) (fin b) = fin (Rmin a b).
Proof.
  unfold py_min, flt, fin, Rmin.
  destruct (Rlt_dec b a) as [H | H]; destruct (Rle_dec a b) as [H' | H'];
    try reflexivity; lra.
Qed.

(** ** Sums, means and deviations *)

Lemma dropna_map_fin (xs : list R) : dropna (map fin xs) = xs.
Proof.
  induction xs as [| x xs IH]; simpl; [reflexivity | now rewrite IH].
Qed.

Lemma forallb_notna_map_fin (xs : list R) :
  forallb (fun a => negb (isna a)) (map fin xs) = true.
Proof.
  induction xs as [| x xs IH]; simpl; [reflexivity | exact IH].
Qed.

Lemma series_mean_fin (xs : list R) :
  xs <> [] -> series_mean (map fin xs) = fin (Spec.mean xs).
Proof.
  intros H. unfold series_mean. rewrite dropna_map_fin.
  destruct xs as [| x xs]; [congruence | reflexivity].
Qed.

Lemma series_std_fin (xs : list R) :
  (2 <= length xs)%nat -> series_std (map fin xs) = fin (Spec.sample_std xs).
Proof.
  intros H. unfold series_std. rewrite dropna_map_fin.
  destruct (Nat.ltb_spec (length xs) 2) as [Hlt | _]; [lia |].
  unfold Spec.sample_std, Spec.mean.
  rewrite minus_INR by lia. reflexivity.
Qed.

Lemma Rsum_app (l1 l2 : list R) : Rsum (l1 ++ l2) = (Rsum l1 + Rsum l2)%R.
Proof.
  induction l1 as [| x l1 IH]; simpl; [lra | rewrite IH; lra].
Qed.

Lemma Rsum_map_plus {A : Type} (f g : A -> R) (l : list A) :
  Rsum (map (fun a => (f a + g a)%R) l)
  = (Rsum (map f l) + Rsum (map g l))%R.
Proof.
  induction l as [| a l IH]; simpl; [lra | rewrite IH; lra].
Qed.

Lemma Rsum_map_scale {A : Type} (c : R) (f : A -> R) (l : list A) :
  Rsum (map (fun a => (c * f a)%R) l) = (c * Rsum (map f l))%R.
Proof.
  induction l as [| a l IH]; simpl; [lra | rewrite IH; lra].
Qed.

Lemma Rsum_map_const {A : Type} (c : R) (l : list A) :
  Rsum (map (fun _ => c) l) = (INR (length l) * c)%R.
Proof.
  induction l as [| a l IH]; [simpl; lra |].
  change (length (a :: l)) with (S (length l)). rewrite S_INR.
  simpl. rewrite IH. lra.
Qed.

Lemma Rsum_map_ext {A : Type} (f g : A -> R) (l : list A) :
  (forall a, f a = g a) -> Rsum (map f l) = Rsum (map g l).
Proof.
  intros H. induction l as [| a l IH]; simpl; [reflexivity |].
  now rewrite H, IH.
Qed.

Lemma Rsum_map_sq_nonneg {A : Type} (f : A -> R) (l : list A) :
  (0 <= Rsum (map (fun a => (f a * f a)%R) l))%R.
Proof.
  induction l as [| a l IH]; simpl; [lra | nra].
Qed.

Lemma sample_std_nonneg (xs : list R) : (0 <= Spec.sample_std xs)%R.
Proof. unfold Spec.sample_std. apply sqrt_pos. Qed.

(** ** Least squares: the normal-equation form is covariance over variance *)

Lemma map_fst_combine_eq {A B : Type} (l1 : list A) (l2 : list B) :
  length l1 = length l2 -> map fst (combine l1 l2) = l1.
Proof.
  revert l2. induction l1 as [| a l1 IH]; intros [| b l2] H; simpl in *;
    try reflexivity; try discriminate.
  f_equal. apply IH. lia.
Qed.

Lemma map_snd_combine_eq {A B : Type} (l1 : list A) (l2 : list B) :
  length l1 = length l2 -> map snd (combine l1 l2) = l2.
Proof.
  revert l2. induction l1 as [| a l1 IH]; intros [| b l2] H; simpl in *;
    try reflexivity; try discriminate.
  f_equal. apply IH. lia.
Qed.

Lemma Rsum_centered_products (a b : R) (l : list (R * R)) :
  Rsum (map (fun p => ((fst p - a) * (snd p - b))%R) l)
  = (Rsum (map (fun p => (fst p * snd p)%R) l) - b * Rsum (map fst l)
     - a * Rsum (map snd l) + INR (length l) * a * b)%R.
Proof.
  induction l as [| p l IH]; [simpl; ring |].
  change (length (p :: l)) with (S (length l)). rewrite S_INR.
  simpl. rewrite IH. ring.
Qed.

Lemma Rsum_centered_squares (a : R) (l : list R) :
  Rsum (map (fun x => ((x - a) * (x - a))%R) l)
  = (Rsum (map (fun x => (x * x)%R) l) - 2 * a * Rsum l
     + INR (length l) * a * a)%R.
Proof.
  induction l as [| x l IH]; [simpl; ring |].
  change (length (x :: l)) with (S (length l)). rewrite S_INR.
  simpl. rewrite IH. ring.
Qed.

Lemma length_arange (n : nat) : length (arange n) = n.
Proof. unfold arange. now rewrite length_map, length_seq. Qed.

Lemma lstsq_slope_is_ols (ys : list R) :
  (2 <= length ys)%nat ->
  lstsq_slope (arange (length ys)) ys = Spec.ols_slope ys.
Proof.
  intros Hn. unfold Spec.ols_slope, lstsq_slope.
  destruct (Nat.ltb_spec (length ys) 2) as [Hlt | _]; [lia |].
  set (xs := arange (length ys)).
  assert (Hlen : length xs = length ys) by apply length_arange.
  rewrite Rsum_centered_products, Rsum_centered_squares.
  rewrite (map_fst_combine_eq xs ys Hlen), (map_snd_combine_eq xs ys Hlen).
  rewrite length_combine, Hlen, Nat.min_id.
  unfold Spec.mean. rewrite Hlen.
  set (n := INR (length ys)).
  assert (Hn0 : n <> 0%R) by (unfold n; apply not_0_INR; lia).
  set (sxy := Rsum (map (fun p => (fst p * snd p)%R) (combine xs ys))).
  set (sxx := Rsum (map (fun x => (x * x)%R) xs)).
  set (sx := Rsum xs). set (sy := Rsum ys).
  replace (sxy - sy / n * sx - sx / n * sy + n * (sx / n) * (sy / n))%R
    with ((n * sxy - sx * sy) * / n)%R by (field; exact Hn0).
  replace (sxx - 2 * (sx / n) * sx + n * (sx / n) * (sx / n))%R
    with ((n * sxx - sx * sx) * / n)%R by (field; exact Hn0).
  unfold Rdiv. rewrite Rinv_mult, Rinv_inv.
  set (d := (/ (n * sxx - sx * sx))%R).
  field. exact Hn0.
Qed.

Lemma polyfit_slope_fin (ys : list R) :
  (2 <= length ys)%nat ->
  polyfit_slope (arange (length ys)) (map fin ys)
  = Ok (fin (Spec.ols_slope ys)).
Proof.
  intros H. unfold polyfit_slope.
  rewrite forallb_notna_map_fin, dropna_map_fin.
  now rewrite lstsq_slope_is_ols.
Qed.

(** ** Sorting *)

Lemma insert_by_perm {A : Type} (leb : A -> A -> bool) (x : A) (l : list A) :
  Permutation (insert_by leb x l) (x :: l).
Proof.
  induction l as [| y l IH]; simpl; [apply Permutation_refl |].
  destruct (leb x y); [apply Permutation_refl |].
  eapply Permutation_trans; [apply perm_skip, IH | apply perm_swap].
Qed.

Lemma sort_by_perm {A : Type} (leb : A -> A -> bool) (l : list A) :
  Permutation (sort_by leb l) l.
Proof.
  induction l as [| x l IH]; simpl; [apply Permutation_refl |].
  eapply Permutation_trans; [apply insert_by_perm | apply perm_skip, IH].
Qed.

Lemma sort_by_length {A : Type} (leb : A -> A -> bool) (l : list A) :
  length (sort_by leb l) = length l.
Proof. apply Permutation_length, sort_by_perm. Qed.

Lemma sort_by_in {A : Type} (leb : A -> A -> bool) (l : list A) (x : A) :
  In x (sort_by leb l) <-> In x l.
Proof.
  split; apply Permutation_in;
    [apply sort_by_perm | apply Permutation_sym, sort_by_perm].
Qed.

Section SortedByKey.

Variable A : Type.
Variable key : A -> Z.

Lemma insert_by_key_sorted (x : A) (l : list A) :
  StronglySorted (key_le key) l -> StronglySorted (key_le key) (insert_by (key_leb key) x l).
Proof.
  induction 1 as [| y l Hs IH Hall]; simpl.
  - constructor; constructor.
  - unfold key_leb at 1. destruct (Z.leb_spec (key x) (key y)) as [Hle | Hgt].
    + constructor; [constructor; assumption |].
      constructor; [exact Hle |].
      eapply Forall_impl; [| exact Hall].
      unfold key_le. intros a Ha. lia.
    + constructor; [exact IH |].
      apply (Permutation_Forall (Permutation_sym (insert_by_perm (key_leb key) x l))).
      constructor; [unfold key_le; lia | exact Hall].
Qed.

Lemma sort_by_key_sorted (l : list A) :
  StronglySorted (key_le key) (sort_by (key_leb key) l).
Proof.
  induction l as [| x l IH]; simpl; [constructor |].
  now apply insert_by_key_sorted.
Qed.

Lemma sorted_head_min (x : A) (l : list A) (a : A) :
  StronglySorted (key_le key) (x :: l) -> In a (x :: l) -> (key x <= key a)%Z.
Proof.
  intros Hs [-> | Hin]; [lia |].
  apply StronglySorted_inv in Hs. destruct Hs as [_ Hall].
  rewrite Forall_forall in Hall. exact (Hall a Hin).
Qed.

Lemma sorted_last_max (l : list A) (d a : A) :
  StronglySorted (key_le key) l -> In a l -> (key a <= key (last l d))%Z.
Proof.
  induction l as [| x l IH]; intros Hs Hin; [contradiction |].
  destruct l as [| y l].
  - destruct Hin as [-> | []]. simpl. lia.
  - change (last (x :: y :: l) d) with (last (y :: l) d).
    pose proof (StronglySorted_inv Hs) as [Hs' Hall].
    destruct Hin as [-> | Hin].
    + assert (Hy : In (last (y :: l) d) (y :: l)).
      { clear. revert y. induction l as [| z l IH]; intros y;
          [left; reflexivity | right; apply IH]. }
      rewrite Forall_forall in Hall. exact (Hall _ Hy).
    + apply IH; assumption.
Qed.

(** A list whose keys strictly increase is left as it is. *)
Lemma sort_by_key_increasing (l : list A) :
  StronglySorted (key_le key) l -> sort_by (key_leb key) l = l.
Proof.
  induction 1 as [| x l Hs IH Hall]; simpl; [reflexivity |].
  rewrite IH. destruct l as [| y l]; [reflexivity |].
  simpl. unfold key_leb. inversion Hall as [| ? ? Hxy _]; subst.
  unfold key_le in Hxy. destruct (Z.leb_spec (key x) (key y)); [reflexivity | lia].
Qed.

End SortedByKey.

(** ** Filling of missing values *)

Lemma ffill_from_length (prev : float) (l : list float) :
  length (ffill_from prev l) = length l.
Proof.
  revert prev. induction l as [| [v |] l IH]; intros prev; simpl;
    [reflexivity | |]; now rewrite IH.
Qed.

Lemma bfill_length (l : list float) : length (bfill l) = length l.
Proof.
  induction l as [| [v |] l IH]; simpl; [reflexivity | |]; now rewrite IH.
Qed.

Lemma ffill_from_fin (v : R) (l : list float) :
  exists xs, ffill_from (fin v) l = map fin xs.
Proof.
  revert v. induction l as [| [w |] l IH]; intros v; simpl.
  - exists []. reflexivity.
  - destruct (IH w) as [xs Hxs]. exists (w :: xs). simpl.
    rewrite <- Hxs. reflexivity.
  - destruct (IH v) as [xs Hxs]. exists (v :: xs). simpl.
    rewrite <- Hxs. reflexivity.
Qed.

Lemma ffill_from_map_fin (prev : float) (xs : list R) :
  ffill_from prev (map fin xs) = map fin xs.
Proof.
  revert prev. induction xs as [| x xs IH]; intros prev; simpl;
    [reflexivity | now rewrite IH].
Qed.

Lemma bfill_map_fin (xs : list R) : bfill (map fin xs) = map fin xs.
Proof.
  induction xs as [| x xs IH]; simpl; [reflexivity | now rewrite IH].
Qed.

Lemma dropna_in (l : list float) (x : R) : In (fin x) l -> In x (dropna l).
Proof.
  intros H. unfold dropna. apply in_flat_map. exists (fin x).
  split; [exact H | left; reflexivity].
Qed.

Lemma series_mean_defined (l : list float) (x : R) :
  In (fin x) l -> exists m, series_mean l = fin m.
Proof.
  intros H. apply dropna_in in H. unfold series_mean.
  destruct (dropna l) as [| y ys]; [contradiction | eauto].
Qed.

(** ** Shape of the regularized series *)

Lemma map_pair_combine {A B : Type} (h : A -> B) (l : list A) :
  map (fun d => (d, h d)) l = combine l (map h l).
Proof.
  induction l as [| a l IH]; simpl; [reflexivity | now rewrite IH].
Qed.

Lemma on_values_combine (f : list float -> list float) (ds : list Z)
    (cells : list float) :
  length ds = length cells ->
  on_values f (combine ds cells) = combine ds (f cells).
Proof.
  intros H. unfold on_values.
  now rewrite map_fst_combine_eq, map_snd_combine_eq.
Qed.

Lemma lift_combine (ds : list Z) (xs : list R) :
  lift (combine ds xs) = combine ds (map fin xs).
Proof.
  revert xs. induction ds as [| d ds IH]; intros [| x xs]; simpl;
    try reflexivity.
  f_equal. apply IH.
Qed.

Lemma length_lift (hist : list (Z * R)) : length (lift hist) = length hist.
Proof. apply length_map. Qed.

Lemma length_day_range (d0 d1 : Z) :
  length (day_range d0 d1) = Z.to_nat (d1 - d0 + 1).
Proof. unfold day_range. now rewrite length_map, length_seq. Qed.

Lemma day_range_cons (d0 d1 : Z) :
  (d0 <= d1)%Z -> exists rest, day_range d0 d1 = d0 :: rest.
Proof.
  intros H. unfold day_range.
  destruct (Z.to_nat (d1 - d0 + 1)) as [| k] eqn:E; [lia |].
  simpl. rewrite Z.add_0_r. eauto.
Qed.

Lemma last_map_seq (f : nat -> Z) (n : nat) (d : Z) :
  last (map f (seq 0 (S n))) d = f n.
Proof.
  rewrite seq_S, map_app. simpl. apply last_last.
Qed.

Lemma last_day_range (d0 d1 d : Z) :
  (d0 <= d1)%Z -> last (day_range d0 d1) d = d1.
Proof.
  intros H. unfold day_range.
  destruct (Z.to_nat (d1 - d0 + 1)) as [| k] eqn:E; [lia |].
  rewrite last_map_seq. lia.
Qed.

Lemma last_combine_fst {B : Type} (ds : list Z) (ys : list B) (p : Z * B) :
  length ds = length ys -> fst (last (combine ds ys) p) = last ds (fst p).
Proof.
  revert ys. induction ds as [| d ds IH]; intros [| y ys] H; simpl in *;
    try reflexivity; try discriminate.
  destruct ds as [| d' ds]; destruct ys as [| y' ys]; simpl in *;
    try reflexivity; try discriminate.
  apply (IH (y' :: ys)). simpl. lia.
Qed.

Lemma last_cons_in {A : Type} (l : list A) (x d : A) :
  In (last (x :: l) d) (x :: l).
Proof.
  revert x. induction l as [| y l IH]; intros x; [left; reflexivity |].
  right. change (last (x :: y :: l) d) with (last (y :: l) d). apply IH.
Qed.

Lemma no_nan_sort_index (df : series) : no_nan df -> no_nan (sort_index df).
Proof.
  unfold no_nan, sort_index. intros H.
  apply (Permutation_Forall (Permutation_sym (sort_by_perm series_leb df))), H.
Qed.

(** The regularized series of a non-empty table without missing values has
    one value per day from its earliest to its latest date. *)
Lemma regularize_shape (df : series) :
  df <> [] -> no_nan df ->
  exists (d0 d1 : Z) (xs : list R),
    (d0 <= d1)%Z /\
    length xs = Z.to_nat (d1 - d0 + 1) /\
    regularize df = lift (combine (day_range d0 d1) xs) /\
    (forall p, In p df -> (d0 <= fst p <= d1)%Z) /\
    (exists v, In (d0, v) df) /\ (exists v, In (d1, v) df).
Proof.
  intros Hne Hnan. unfold regularize.
  pose proof (sort_by_key_sorted (@fst Z float) df) as Hsorted.
  pose proof (sort_by_perm series_leb df) as Hperm.
  pose proof (no_nan_sort_index Hnan) as Hnan'.
  unfold sort_index, series_leb in *.
  destruct (sort_by (key_leb fst) df) as [| p0 ts] eqn:Ets.
  { apply Permutation_nil in Hperm. contradiction. }
  change (0 <? length (p0 :: ts))%nat with true. cbv iota.
  pose (all := p0 :: ts).
  pose (d0 := fst p0). pose (d1 := fst (last all p0)).
  assert (Hin0 : In p0 all) by (left; reflexivity).
  assert (Hlast : In (last all p0) all) by apply last_cons_in.
  assert (Hle : (d0 <= d1)%Z).
  { exact (@sorted_last_max _ fst all p0 p0 Hsorted Hin0). }
  pose (h := fun d : Z =>
               series_mean (map snd (filter (fun p => (fst p =? d)%Z) all))).
  change (resample_D_mean (p0 :: ts))
    with (map (fun d : Z => (d, h d)) (day_range d0 d1)).
  rewrite (map_pair_combine h).
  rewrite on_values_combine by now rewrite length_map.
  rewrite on_values_combine
    by (unfold ffill; now rewrite ffill_from_length, length_map).
  destruct (day_range_cons Hle) as [rest Hrange].
  assert (Hh0 : exists m, h d0 = fin m).
  { destruct p0 as [d v]. destruct v as [v |].
    - apply (series_mean_defined _ v). apply in_map_iff.
      exists (d, fin v). split; [reflexivity |].
      apply filter_In. split; [exact Hin0 |]. apply Z.eqb_refl.
    - inversion Hnan' as [| ? ? Hv _]. now contradiction Hv. }
  destruct Hh0 as [m Hm].
  assert (Hfill : exists xs, ffill (map h (day_range d0 d1)) = map fin xs).
  { rewrite Hrange. simpl. rewrite Hm. unfold ffill. simpl.
    destruct (ffill_from_fin m (map h rest)) as [xs Hxs].
    exists (m :: xs). simpl. rewrite <- Hxs. reflexivity. }
  destruct Hfill as [xs Hxs].
  exists d0, d1, xs.
  split; [exact Hle |].
  split.
  { rewrite <- length_day_range, <- (length_map fin xs), <- Hxs.
    unfold ffill. now rewrite ffill_from_length, length_map. }
  split.
  { rewrite Hxs, bfill_map_fin. symmetry. apply lift_combine. }
  split.
  { intros p Hp. apply (Permutation_in _ (Permutation_sym Hperm)) in Hp.
    split.
    - exact (@sorted_head_min _ fst p0 ts p Hsorted Hp).
    - exact (@sorted_last_max _ fst all p0 p Hsorted Hp). }
  split.
  - exists (snd p0). apply (Permutation_in _ Hperm). unfold d0.
    now rewrite <- surjective_pairing.
  - exists (snd (last all p0)). apply (Permutation_in _ Hperm). unfold d1.
    now rewrite <- surjective_pairing.
Qed.

(** ** Dropping duplicates and grouping *)

Section DropDuplicates.

Variable A : Type.
Variable same : A -> A -> bool.

Lemma drop_dups_from_subset (seen l : list A) (x : A) :
  In x (drop_dups_from same seen l) -> In x l.
Proof.
  revert seen. induction l as [| y l IH]; intros seen H; simpl in *;
    [contradiction |].
  destruct (existsb (same y) seen).
  - right. eapply IH, H.
  - destruct H as [-> | H]; [now left | right; eapply IH, H].
Qed.

Lemma drop_dups_from_unseen (seen l : list A) (x : A) :
  In x (drop_dups_from same seen l) -> existsb (same x) seen = false.
Proof.
  revert seen. induction l as [| y l IH]; intros seen H; simpl in *;
    [contradiction |].
  destruct (existsb (same y) seen) eqn:E.
  - apply IH, H.
  - destruct H as [-> | H]; [exact E |].
    apply IH in H. simpl in H. apply orb_false_iff in H. tauto.
Qed.

Hypothesis same_refl : forall x, same x x = true.

Lemma drop_dups_from_nodup (seen l : list A) :
  NoDup (drop_dups_from same seen l).
Proof.
  revert seen. induction l as [| y l IH]; intros seen; simpl; [constructor |].
  destruct (existsb (same y) seen); [apply IH |].
  constructor; [| apply IH].
  intros H. apply drop_dups_from_unseen in H. simpl in H.
  rewrite same_refl in H. discriminate.
Qed.

Lemma drop_dups_from_covers (seen l : list A) (x : A) :
  In x l ->
  existsb (same x) seen = true \/
  exists y, In y (drop_dups_from same seen l) /\ same x y = true.
Proof.
  revert seen. induction l as [| y l IH]; intros seen H; [contradiction |].
  simpl. destruct (existsb (same y) seen) eqn:E.
  - destruct H as [-> | H]; [now left | apply IH, H].
  - destruct H as [-> | H].
    + right. exists x. split; [now left | apply same_refl].
    + destruct (IH (y :: seen) H) as [Hs | [z [Hz Hxz]]].
      * simpl in Hs. apply orb_true_iff in Hs. destruct Hs as [Hs | Hs].
        -- right. exists y. split; [now left | exact Hs].
        -- now left.
      * right. exists z. split; [now right | exact Hxz].
Qed.

Lemma drop_duplicates_nodup (l : list A) : NoDup (drop_duplicates same l).
Proof. apply drop_dups_from_nodup. Qed.

Lemma drop_duplicates_subset (l : list A) (x : A) :
  In x (drop_duplicates same l) -> In x l.
Proof. apply drop_dups_from_subset. Qed.

Lemma drop_duplicates_covers (l : list A) (x : A) :
  In x l -> exists y, In y (drop_duplicates same l) /\ same x y = true.
Proof.
  intros H. destruct (drop_dups_from_covers [] l x H) as [Hs | Hy];
    [discriminate | exact Hy].
Qed.

Hypothesis same_eq : forall x y, same x y = true -> x = y.

Lemma drop_duplicates_in (l : list A) (x : A) :
  In x (drop_duplicates same l) <-> In x l.
Proof.
  split; [apply drop_duplicates_subset |].
  intros H. destruct (drop_duplicates_covers l x H) as [y [Hy Hxy]].
  apply same_eq in Hxy. now subst.
Qed.

End DropDuplicates.

Lemma find_key_map (F : Z -> float) (keys : list Z) (k : Z) :
  find (fun g : Z * float => (fst g =? k)%Z) (map (fun k' => (k', F k')) keys)
  = if in_dec Z.eq_dec k keys then Some (k, F k) else None.
Proof.
  induction keys as [| a keys IH]; simpl; [reflexivity |].
  destruct (Z.eqb_spec a k) as [-> | Hne].
  - destruct (Z.eq_dec k k); [reflexivity | contradiction].
  - rewrite IH. destruct (Z.eq_dec a k); [contradiction |].
    destruct (in_dec Z.eq_dec k keys); reflexivity.
Qed.

Lemma groupby_keys_in {A : Type} (key : A -> Z) (l : list A) (k : Z) :
  In k (sort_by Z.leb (drop_duplicates Z.eqb (map key l)))
  <-> exists r, In r l /\ key r = k.
Proof.
  rewrite sort_by_in, drop_duplicates_in.
  - rewrite in_map_iff. split; intros [r [H1 H2]]; exists r; tauto.
  - apply Z.eqb_refl.
  - intros x y H. now apply Z.eqb_eq.
Qed.

Lemma filter_lift (f : Z -> bool) (hist : list (Z * R)) :
  filter (fun p : Z * float => f (fst p)) (lift hist)
  = lift (filter (fun p : Z * R => f (fst p)) hist).
Proof.
  induction hist as [| p hist IH]; simpl; [reflexivity |].
  destruct (f (fst p)); simpl; now rewrite IH.
Qed.

Lemma map_snd_lift (hist : list (Z * R)) :
  map snd (lift hist) = map fin (map snd hist).
Proof. unfold lift. rewrite !map_map. reflexivity. Qed.

Lemma map_fst_lift (hist : list (Z * R)) : map fst (lift hist) = map fst hist.
Proof. unfold lift. rewrite !map_map. reflexivity. Qed.

(** The seasonal pattern of the program, looked up at a day of the year, is
    the mean of the history on that day of the year. *)
Lemma seasonal_lookup (hist : list (Z * R)) (doy : Z) :
  find (fun g : Z * float => (fst g =? doy)%Z)
       (groupby_mean Z.eqb Z.leb (fun p => dayofyear (fst p)) snd (lift hist))
  = match Spec.seasonal_pattern hist doy with
    | Some v => Some (doy, fin v)
    | None => None
    end.
Proof.
  unfold groupby_mean.
  rewrite (find_key_map
    (fun k => series_mean (map snd (filter
       (fun r : Z * float => (dayofyear (fst r) =? k)%Z) (lift hist))))).
  unfold Spec.seasonal_pattern.
  rewrite (filter_lift (fun d => (dayofyear d =? doy)%Z)), map_snd_lift.
  destruct (in_dec Z.eq_dec doy _) as [Hin | Hout].
  - apply groupby_keys_in in Hin. destruct Hin as [[d v] [Hr Hk]].
    simpl in Hk.
    assert (Hf : In (d, v) (lift (filter
               (fun p : Z * R => (dayofyear (fst p) =? doy)%Z) hist))).
    { rewrite <- (filter_lift (fun d => (dayofyear d =? doy)%Z)).
      apply filter_In. split; [exact Hr |]. simpl. now apply Z.eqb_eq. }
    destruct (filter _ hist) as [| q g] eqn:Eg; [contradiction |].
    rewrite series_mean_fin by (simpl; discriminate). reflexivity.
  - destruct (filter _ hist) as [| q g] eqn:Eg; [reflexivity |].
    exfalso. apply Hout, groupby_keys_in.
    assert (Hq : In q (filter
               (fun p : Z * R => (dayofyear (fst p) =? doy)%Z) hist))
      by (rewrite Eg; now left).
    apply filter_In in Hq. destruct Hq as [Hq1 Hq2].
    exists (fst q, fin (snd q)). split.
    + unfold lift. apply in_map_iff. exists q. tauto.
    + simpl. now apply Z.eqb_eq.
Qed.

(** ** The fallback computes the formula of the specification *)

Lemma length_last_values (k : nat) (hist : list (Z * R)) :
  length (Spec.last_values k hist) = Nat.min k (length hist).
Proof.
  unfold Spec.last_values. rewrite length_map, length_skipn. lia.
Qed.

Lemma tail_lift (k : nat) (hist : list (Z * R)) :
  tail (Nat.min k (length (lift hist))) (map snd (lift hist))
  = map fin (Spec.last_values k hist).
Proof.
  unfold tail, Spec.last_values.
  rewrite map_snd_lift, !length_map, length_lift.
  now rewrite <- !skipn_map.
Qed.

Lemma last_lift (hist : list (Z * R)) (p : Z * R) :
  fst (last (lift hist) (fst p, fin (snd p))) = fst (last hist p).
Proof.
  induction hist as [| q hist IH]; [reflexivity |].
  destruct hist as [| q' hist]; [reflexivity |].
  exact IH.
Qed.

Lemma last_default {A : Type} (l : list A) (d d' : A) :
  l <> [] -> last l d = last l d'.
Proof.
  induction l as [| x l IH]; intros H; [congruence |].
  destruct l as [| y l]; [reflexivity |].
  apply IH. discriminate.
Qed.

Lemma index_last_lift (hist : list (Z * R)) :
  hist <> [] -> index_last (lift hist) = Ok (Spec.last_date hist).
Proof.
  intros H. destruct hist as [| p hist]; [congruence |].
  unfold index_last, Spec.last_date.
  change (lift (p :: hist)) with ((fst p, fin (snd p)) :: lift hist).
  cbv iota. change ((fst p, fin (snd p)) :: lift hist) with (lift (p :: hist)).
  rewrite last_lift. f_equal. f_equal. apply last_default. discriminate.
Qed.

Lemma combine_map_same {A B C : Type} (f : A -> B) (g : A -> C) (l : list A) :
  combine (map f l) (map g l) = map (fun a => (f a, g a)) l.
Proof.
  induction l as [| a l IH]; simpl; [reflexivity | now rewrite IH].
Qed.

Lemma DataFrame_of_maps {A : Type} (fd : A -> Z) (fv fl fu : A -> float)
    (l : list A) :
  DataFrame (map fd l) (map fv l) (map fl l) (map fu l)
  = Ok (map (fun a => mkForecast (fd a) (fv a) (fl a) (fu a)) l).
Proof.
  unfold DataFrame. rewrite !length_map, Nat.eqb_refl. simpl.
  rewrite !combine_map_same, map_map. reflexivity.
Qed.

Lemma base_forecast_of_spec (hist : list (Z * R)) (i : nat) :
  base_forecast_of (fin (Spec.recent_mean hist)) (fin (Spec.trend_slope hist))
                   (seasonal_pattern_of (lift hist)) i
                   (Spec.target_date hist i)
  = fin (Spec.base hist i).
Proof.
  unfold base_forecast_of, seasonal_pattern_of, Spec.base,
    Spec.seasonal_adjustment, Spec.clamp.
  rewrite length_lift.
  destruct (365 <=? length hist)%nat.
  - rewrite seasonal_lookup.
    destruct (Spec.seasonal_pattern hist _) as [v |]; simpl;
      rewrite py_min_fin, py_max_fin; do 3 f_equal; ring.
  - simpl. rewrite py_min_fin, py_max_fin. do 3 f_equal. ring.
Qed.

Lemma confidence_range_of_fin (m s : R) :
  confidence_range_of (fin m) (fin s) = fin (196 / 100 * s).
Proof. unfold confidence_range_of. simpl. unfold fin. f_equal. ring. Qed.

(** Whenever the regularized series [hist] has no missing value and at least
    seven days, the body of [forecast_aqi_simple] returns the table computed
    by the formula of the specification. *)
Lemma forecast_aqi_simple_body_spec (df : series) (n : nat)
    (hist : list (Z * R)) :
  regularize df = lift hist -> (7 <= length hist)%nat ->
  forecast_aqi_simple_body df n = Ok (Spec.fallback hist n).
Proof.
  intros Hreg Hlen. unfold forecast_aqi_simple_body. rewrite Hreg.
  rewrite !tail_lift, length_lift.
  destruct (Nat.ltb_spec (length hist) 7) as [Hlt | _]; [lia |].
  assert (H7 : length (Spec.last_values 7 hist) = 7%nat)
    by (rewrite length_last_values; lia).
  assert (H30 : (2 <= length (Spec.last_values 30 hist))%nat)
    by (rewrite length_last_values; lia).
  rewrite series_mean_fin
    by (intros E; rewrite E in H7; discriminate).
  rewrite series_std_fin by lia.
  unfold trend_slope_of. rewrite length_map.
  destruct (Nat.ltb_spec 1 (length (Spec.last_values 30 hist))) as [_ | Hlt];
    [| lia].
  rewrite polyfit_slope_fin by exact H30.
  cbn [bind].
  rewrite index_last_lift by (intros E; rewrite E in Hlen; simpl in Hlen; lia).
  cbn [bind].
  unfold date_range. rewrite length_map, length_seq.
  rewrite <- map_pair_combine, !map_map. cbn [fst snd].
  rewrite confidence_range_of_fin.
  pose proof (DataFrame_of_maps
    (fun i => (Spec.last_date hist + 1 + Z.of_nat i)%Z)
    (fun i => base_forecast_of (fin (Spec.mean (Spec.last_values 7 hist)))
                (fin (Spec.ols_slope (Spec.last_values 30 hist)))
                (seasonal_pattern_of (lift hist)) i
                (Spec.last_date hist + 1 + Z.of_nat i)%Z)
    (fun i => py_max (fin 0)
                (fsub (base_forecast_of
                         (fin (Spec.mean (Spec.last_values 7 hist)))
                         (fin (Spec.ols_slope (Spec.last_values 30 hist)))
                         (seasonal_pattern_of (lift hist)) i
                         (Spec.last_date hist + 1 + Z.of_nat i)%Z)
                      (fin (196 / 100
                            * Spec.sample_std (Spec.last_values 7 hist)))))
    (fun i => py_min (fin 500)
                (fadd (base_forecast_of
                         (fin (Spec.mean (Spec.last_values 7 hist)))
                         (fin (Spec.ols_slope (Spec.last_values 30 hist)))
                         (seasonal_pattern_of (lift hist)) i
                         (Spec.last_date hist + 1 + Z.of_nat i)%Z)
                      (fin (196 / 100
                            * Spec.sample_std (Spec.last_values 7 hist)))))
    (seq 0 n)) as HDF.
  cbv beta in HDF. rewrite HDF. f_equal.
  unfold Spec.fallback. apply map_ext. intros i.
  pose proof (base_forecast_of_spec hist i) as Hb.
  unfold Spec.recent_mean, Spec.trend_slope, Spec.target_date in Hb.
  rewrite Hb. unfold Spec.forecast_entry, Spec.lower, Spec.upper,
    Spec.confidence_range, Spec.recent_std, Spec.target_date.
  simpl fsub. simpl fadd. rewrite py_max_fin, py_min_fin. reflexivity.
Qed.

(** ** Dates of the regularized series (missing values allowed) *)

Lemma map_fst_on_values (f : list float -> list float) (ts : series) :
  length (f (map snd ts)) = length ts ->
  map fst (on_values f ts) = map fst ts.
Proof.
  intros H. unfold on_values. apply map_fst_combine_eq.
  now rewrite length_map, H.
Qed.

Lemma length_on_values (f : list float -> list float) (ts : series) :
  length (f (map snd ts)) = length ts ->
  length (on_values f ts) = length ts.
Proof.
  intros H. unfold on_values. rewrite length_combine, length_map, H. lia.
Qed.

Lemma ffill_length (l : list float) : length (ffill l) = length l.
Proof. apply ffill_from_length. Qed.

Lemma regularize_dates (df : series) :
  df <> [] ->
  exists d0 d1 : Z,
    (d0 <= d1)%Z /\
    map fst (regularize df) = day_range d0 d1 /\
    (forall p, In p df -> (d0 <= fst p <= d1)%Z) /\
    (exists v, In (d0, v) df) /\ (exists v, In (d1, v) df).
Proof.
  intros Hne. unfold regularize.
  pose proof (sort_by_key_sorted (@fst Z float) df) as Hsorted.
  pose proof (sort_by_perm series_leb df) as Hperm.
  unfold sort_index, series_leb in *.
  destruct (sort_by (key_leb fst) df) as [| p0 ts] eqn:Ets.
  { apply Permutation_nil in Hperm. contradiction. }
  change (0 <? length (p0 :: ts))%nat with true. cbv iota.
  pose (all := p0 :: ts).
  assert (Hin0 : In p0 all) by (left; reflexivity).
  assert (Hlast : In (last all p0) all) by apply last_cons_in.
  exists (fst p0), (fst (last all p0)).
  split; [exact (@sorted_last_max _ fst all p0 p0 Hsorted Hin0) |].
  split.
  { rewrite (map_fst_on_values bfill)
      by (now rewrite bfill_length, length_map).
    rewrite (map_fst_on_values ffill)
      by (now rewrite ffill_length, length_map).
    unfold resample_D_mean. rewrite map_map. simpl. apply map_id. }
  split.
  { intros p Hp. apply (Permutation_in _ (Permutation_sym Hperm)) in Hp.
    split.
    - exact (@sorted_head_min _ fst p0 ts p Hsorted Hp).
    - exact (@sorted_last_max _ fst all p0 p Hsorted Hp). }
  split.
  - exists (snd p0). apply (Permutation_in _ Hperm).
    now rewrite <- surjective_pairing.
  - exists (snd (last all p0)). apply (Permutation_in _ Hperm).
    now rewrite <- surjective_pairing.
Qed.

Lemma regularize_nil : regularize [] = [].
Proof. reflexivity. Qed.

Lemma last_map_fst {B : Type} (l : list (Z * B)) (p : Z * B) :
  fst (last l p) = last (map fst l) (fst p).
Proof.
  induction l as [| q l IH]; [reflexivity |].
  destruct l as [| q' l]; [reflexivity | exact IH].
Qed.

Lemma index_last_of_dates (ts : series) (d0 d1 : Z) :
  (d0 <= d1)%Z -> map fst ts = day_range d0 d1 -> index_last ts = Ok d1.
Proof.
  intros Hle H. destruct (day_range_cons Hle) as [rest Hr].
  destruct ts as [| p ts]; [rewrite Hr in H; discriminate |].
  unfold index_last. rewrite last_map_fst, H. f_equal.
  now apply last_day_range.
Qed.

Lemma index_last_ok (ts : series) (d : Z) :
  index_last ts = Ok d -> ts <> [].
Proof. destruct ts; [discriminate | discriminate]. Qed.

(** ** A table that is already a gap-free daily series *)

Lemma date_range_S (d0 : Z) (n : nat) :
  date_range d0 (S n) = d0 :: date_range (d0 + 1) n.
Proof.
  unfold date_range. simpl. rewrite Z.add_0_r. f_equal.
  rewrite <- seq_shift, map_map. apply map_ext. intros i. lia.
Qed.

Lemma date_range_in (d0 : Z) (n : nat) (d : Z) :
  In d (date_range d0 n) -> (d0 <= d < d0 + Z.of_nat n)%Z.
Proof.
  unfold date_range. rewrite in_map_iff. intros [i [<- Hi]].
  apply in_seq in Hi. lia.
Qed.

Lemma length_date_range (d0 : Z) (n : nat) : length (date_range d0 n) = n.
Proof. unfold date_range. now rewrite length_map, length_seq. Qed.

Lemma day_range_date_range (d0 : Z) (n : nat) :
  day_range d0 (d0 + Z.of_nat n - 1) = date_range d0 n.
Proof.
  unfold day_range, date_range. f_equal. f_equal. lia.
Qed.

Lemma date_range_nodup (d0 : Z) (n : nat) : NoDup (date_range d0 n).
Proof.
  revert d0. induction n as [| n IH]; intros d0; [constructor |].
  rewrite date_range_S. constructor; [| apply IH].
  intros H. apply date_range_in in H. lia.
Qed.

Lemma date_range_sorted {B : Type} (d0 : Z) (n : nat) (ys : list B) :
  StronglySorted (key_le fst) (combine (date_range d0 n) ys).
Proof.
  revert d0 ys. induction n as [| n IH]; intros d0 ys; [constructor |].
  rewrite date_range_S. destruct ys as [| y ys]; [constructor |].
  simpl. constructor; [apply IH |].
  apply Forall_forall. intros [d v] Hin. apply in_combine_l in Hin.
  apply date_range_in in Hin. unfold key_le. simpl. lia.
Qed.

Lemma filter_unique_key (ts : series) (p : Z * float) :
  NoDup (map fst ts) -> In p ts ->
  filter (fun q => (fst q =? fst p)%Z) ts = [p].
Proof.
  induction ts as [| q ts IH]; intros Hnd Hin; [contradiction |].
  simpl in Hnd. inversion Hnd as [| ? ? Hq Hnd']; subst.
  simpl. destruct Hin as [-> | Hin].
  - rewrite Z.eqb_refl. f_equal.
    assert (Hnone : forall r, In r ts -> (fst r =? fst p)%Z = false).
    { intros r Hr. apply Z.eqb_neq. intros E. apply Hq. rewrite <- E.
      now apply in_map. }
    clear -Hnone. induction ts as [| r ts IH]; [reflexivity |].
    simpl. rewrite (Hnone r) by now left.
    apply IH. intros r' Hr'. apply Hnone. now right.
  - destruct (Z.eqb_spec (fst q) (fst p)) as [E | _].
    + exfalso. apply Hq. rewrite E. now apply in_map.
    + now apply IH.
Qed.

Lemma series_mean_single (x : R) : series_mean [fin x] = fin x.
Proof.
  unfold series_mean, fin. simpl. f_equal. field.
Qed.

Lemma resample_unfold (ts : series) (p0 : Z * float) (rest : series) :
  ts = p0 :: rest ->
  resample_D_mean ts
  = map (fun d =>
           (d, series_mean (map snd (filter (fun p => (fst p =? d)%Z) ts))))
        (day_range (fst p0) (fst (last ts p0))).
Proof. intros ->. reflexivity. Qed.

Lemma resample_gap_free (d0 : Z) (xs : list R) :
  xs <> [] ->
  resample_D_mean (lift (combine (date_range d0 (length xs)) xs))
  = lift (combine (date_range d0 (length xs)) xs).
Proof.
  intros Hne.
  remember (date_range d0 (length xs)) as ds eqn:Eds.
  assert (Hlen : length ds = length xs)
    by (rewrite Eds; apply length_date_range).
  remember (lift (combine ds xs)) as ts eqn:Ets.
  assert (Hfst : map fst ts = ds).
  { rewrite Ets, map_fst_lift. now apply map_fst_combine_eq. }
  assert (Hnd : NoDup (map fst ts))
    by (rewrite Hfst, Eds; apply date_range_nodup).
  destruct xs as [| x xs]; [congruence |].
  assert (Hts : ts = (d0, fin x)
                     :: lift (combine (date_range (d0 + 1) (length xs)) xs)).
  { rewrite Ets, Eds. change (length (x :: xs)) with (S (length xs)).
    rewrite date_range_S. reflexivity. }
  rewrite (resample_unfold Hts). cbn [fst].
  assert (Hlast : fst (last ts (d0, fin x))
                  = (d0 + Z.of_nat (length (x :: xs)) - 1)%Z).
  { rewrite last_map_fst, Hfst. cbn [fst]. rewrite Eds.
    rewrite <- day_range_date_range. apply last_day_range.
    change (length (x :: xs)) with (S (length xs)). lia. }
  rewrite Hlast, day_range_date_range, <- Eds, <- Hfst.
  rewrite map_map.
  transitivity (map (fun p : Z * float => p) ts); [| apply map_id].
  apply map_ext_in. intros p Hp.
  rewrite (filter_unique_key ts p Hnd Hp). simpl.
  rewrite Ets in Hp. unfold lift in Hp. apply in_map_iff in Hp.
  destruct Hp as [q [<- _]].
  simpl. now rewrite series_mean_single.
Qed.

Lemma regularize_gap_free (d0 : Z) (xs : list R) :
  xs <> [] ->
  regularize (lift (combine (date_range d0 (length xs)) xs))
  = lift (combine (date_range d0 (length xs)) xs).
Proof.
  intros Hne. unfold regularize, sort_index, series_leb.
  assert (Hs : sort_by (key_leb fst)
                 (lift (combine (date_range d0 (length xs)) xs))
               = lift (combine (date_range d0 (length xs)) xs)).
  { apply sort_by_key_increasing. rewrite lift_combine. apply date_range_sorted. }
  rewrite Hs.
  assert (Hpos : (0 <? length (lift (combine (date_range d0 (length xs)) xs)))%nat
                 = true).
  { apply Nat.ltb_lt. rewrite length_lift, length_combine, length_date_range.
    destruct xs; [congruence | simpl; lia]. }
  rewrite Hpos, resample_gap_free by exact Hne.
  rewrite lift_combine.
  rewrite !on_values_combine.
  - unfold ffill. now rewrite ffill_from_map_fin, bfill_map_fin.
  - now rewrite ffill_length, length_map, length_date_range.
  - now rewrite length_map, length_date_range.
Qed.

(** ** Forecast tables *)

Lemma DataFrame_dates (dates : list Z) (v l u : list float)
    (out : list forecast_row) :
  DataFrame dates v l u = Ok out -> map f_date out = dates.
Proof.
  unfold DataFrame.
  destruct ((length v =? length dates) && (length l =? length dates)
            && (length u =? length dates))%nat eqn:E; [| discriminate].
  apply andb_prop in E. destruct E as [E Eu]. apply andb_prop in E.
  destruct E as [Ev El].
  apply Nat.eqb_eq in Ev, El, Eu.
  intros H. injection H as <-. rewrite map_map. cbn [f_date].
  rewrite <- (map_map (fun q => fst (fst q)) fst).
  rewrite <- (map_map fst fst).
  rewrite !map_fst_combine_eq; try reflexivity.
  - now rewrite Ev.
  - rewrite length_combine, Ev, Nat.min_id. now rewrite El.
  - rewrite !length_combine, Ev, Nat.min_id, El, Nat.min_id. now rewrite Eu.
Qed.

Lemma regularize_lift (df : series) :
  no_nan df -> exists hist, regularize df = lift hist.
Proof.
  intros H. destruct df as [| p df].
  - exists []. reflexivity.
  - destruct (@regularize_shape (p :: df)) as (d0 & d1 & xs & _ & _ & Hr & _);
      [discriminate | exact H |].
    eauto.
Qed.

(** On a table of numbers whose regularized series has seven days or more,
    [forecast_aqi_simple] returns the table of the specification's formula. *)
Lemma fallback_refines (df : series) (n : nat) :
  no_nan df -> (7 <= length (regularize df))%nat ->
  exists hist,
    regularize df = lift hist /\
    forecast_aqi_simple df n = Some (Spec.fallback hist n).
Proof.
  intros Hnan Hlen. destruct (regularize_lift Hnan) as [hist Hreg].
  exists hist. split; [exact Hreg |].
  unfold forecast_aqi_simple.
  rewrite (forecast_aqi_simple_body_spec df n hist Hreg); [reflexivity |].
  now rewrite Hreg, length_lift in Hlen.
Qed.

Lemma forecast_aqi_simple_short (df : series) (n : nat) :
  (length (regularize df) < 7)%nat ->
  forecast_aqi_simple_body df n
  = Raise (ValueError "Not enough data for forecasting").
Proof.
  intros H. unfold forecast_aqi_simple_body.
  destruct (Nat.ltb_spec (length (regularize df)) 7); [reflexivity | lia].
Qed.

(** The fallback fails exactly on fewer than seven regularized days. *)
Lemma forecast_aqi_simple_none_iff (df : series) (n : nat) :
  no_nan df ->
  forecast_aqi_simple df n = None <-> (length (regularize df) < 7)%nat.
Proof.
  intros Hnan. split.
  - intros H. destruct (Nat.lt_ge_cases (length (regularize df)) 7) as [| Hge];
      [assumption |].
    destruct (fallback_refines n Hnan Hge) as [hist [_ Hs]].
    rewrite Hs in H. discriminate.
  - intros H. unfold forecast_aqi_simple.
    now rewrite forecast_aqi_simple_short.
Qed.

(** The only exception the body of the fallback raises on a table of numbers
    is the one for too few days. *)
Lemma forecast_aqi_simple_body_raises (df : series) (n : nat) (e : exn) :
  no_nan df -> forecast_aqi_simple_body df n = Raise e ->
  e = ValueError "Not enough data for forecasting"
  /\ (length (regularize df) < 7)%nat.
Proof.
  intros Hnan H.
  destruct (Nat.lt_ge_cases (length (regularize df)) 7) as [Hlt | Hge].
  - rewrite forecast_aqi_simple_short in H by exact Hlt.
    injection H as <-. split; [reflexivity | exact Hlt].
  - destruct (regularize_lift Hnan) as [hist Hreg].
    rewrite (forecast_aqi_simple_body_spec df n hist Hreg) in H;
      [discriminate |].
    now rewrite Hreg, length_lift in Hge.
Qed.

(** Whatever statsmodels does, a failure of [forecast_aqi_arima] on a table of
    numbers means fewer than seven regularized days. *)
Lemma forecast_aqi_arima_none (avail : bool) (sm : statsmodels) (df : series)
    (n : nat) :
  no_nan df -> forecast_aqi_arima avail sm df n = None ->
  (length (regularize df) < 7)%nat.
Proof.
  intros Hnan H. unfold forecast_aqi_arima in H.
  destruct (negb avail).
  - now apply (forecast_aqi_simple_none_iff n Hnan).
  - destruct (forecast_aqi_arima_body sm df n); [discriminate |].
    now apply (forecast_aqi_simple_none_iff n Hnan).
Qed.

(** Every entry of the specification's fallback table is inside the bounds. *)
Lemma fallback_in_bounds (hist : list (Z * R)) (n : nat) :
  Forall entry_in_bounds (Spec.fallback hist n).
Proof.
  unfold Spec.fallback. apply Forall_forall. intros e He.
  apply in_map_iff in He. destruct He as [i [<- _]].
  unfold entry_in_bounds, Spec.forecast_entry. cbn [f_aqi lower_bound upper_bound].
  exists (Spec.base hist i), (Spec.lower hist i), (Spec.upper hist i).
  repeat split; try reflexivity.
  - unfold Spec.lower. apply Rmax_l.
  - assert (Hb : (0 <= Spec.base hist i)%R)
      by (unfold Spec.base, Spec.clamp; apply Rmax_l).
    assert (Hc : (0 <= Spec.confidence_range hist)%R).
    { unfold Spec.confidence_range, Spec.recent_std.
      pose proof (sample_std_nonneg (Spec.last_values 7 hist)). lra. }
    unfold Spec.lower. apply Rmax_lub; lra.
  - assert (Hb : (Spec.base hist i <= 500)%R).
    { unfold Spec.base, Spec.clamp. apply Rmax_lub; [lra | apply Rmin_l]. }
    assert (Hc : (0 <= Spec.confidence_range hist)%R).
    { unfold Spec.confidence_range, Spec.recent_std.
      pose proof (sample_std_nonneg (Spec.last_values 7 hist)). lra. }
    unfold Spec.upper. apply Rmin_glb; lra.
  - unfold Spec.upper. apply Rmin_l.
Qed.

(** The fallback path keeps the invariant of the forecast series. *)
Lemma forecast_aqi_simple_in_bounds (df : series) (n : nat)
    (out : list forecast_row) :
  no_nan df -> forecast_aqi_simple df n = Some out ->
  Forall entry_in_bounds out.
Proof.
  intros Hnan H.
  destruct (Nat.lt_ge_cases (length (regularize df)) 7) as [Hlt | Hge].
  - apply (forecast_aqi_simple_none_iff n Hnan) in Hlt. congruence.
  - destruct (fallback_refines n Hnan Hge) as [hist [_ Hs]].
    rewrite Hs in H. injection H as <-. apply fallback_in_bounds.
Qed.

Lemma simple_body_dates (df : series) (n : nat) (out : list forecast_row) :
  forecast_aqi_simple_body df n = Ok out ->
  exists last,
    index_last (regularize df) = Ok last /\
    map f_date out = date_range (last + 1) n.
Proof.
  unfold forecast_aqi_simple_body.
  destruct (length (regularize df) <? 7)%nat; [discriminate |].
  destruct (trend_slope_of _) as [slope | e]; [| discriminate]. cbn [bind].
  destruct (index_last (regularize df)) as [last | e]; [| discriminate].
  cbn [bind]. intros H. apply DataFrame_dates in H. eauto.
Qed.

Lemma arima_body_dates (sm : statsmodels) (df : series) (n : nat)
    (out : list forecast_row) :
  forecast_aqi_arima_body sm df n = Ok out ->
  exists last,
    index_last (regularize df) = Ok last /\
    map f_date out = date_range (last + 1) n.
Proof.
  unfold forecast_aqi_arima_body.
  destruct (fit_ladder sm (regularize df)) as [m | e]; [| discriminate].
  cbn [bind].
  destruct (forecast sm m n) as [fc | e]; [| discriminate]. cbn [bind].
  destruct (conf_int sm m n) as [ci | e]; [| discriminate]. cbn [bind].
  destruct (index_last (regularize df)) as [last | e]; [| discriminate].
  cbn [bind]. intros H. apply DataFrame_dates in H. eauto.
Qed.

Lemma forecast_dates (avail : bool) (sm : statsmodels) (df : series) (n : nat)
    (out : list forecast_row) :
  forecast_aqi_arima avail sm df n = Some out ->
  exists last,
    index_last (regularize df) = Ok last /\
    map f_date out = date_range (last + 1) n.
Proof.
  unfold forecast_aqi_arima, forecast_aqi_simple. intros H.
  destruct (negb avail).
  - destruct (forecast_aqi_simple_body df n) as [o | e] eqn:E; [| discriminate].
    injection H as <-. now apply simple_body_dates.
  - destruct (forecast_aqi_arima_body sm df n) as [o | e] eqn:E.
    + injection H as <-. now apply (arima_body_dates sm df).
    + destruct (forecast_aqi_simple_body df n) as [o | e'] eqn:E';
        [| discriminate].
      injection H as <-. now apply simple_body_dates.
Qed.

(** The last date of the regularized series is the latest date of the
    table. *)
Lemma index_last_is_latest (df : series) (last : Z) :
  index_last (regularize df) = Ok last ->
  (exists v, In (last, v) df) /\ (forall p, In p df -> (fst p <= last)%Z).
Proof.
  intros H.
  assert (Hne : df <> []).
  { intros ->. rewrite regularize_nil in H. discriminate. }
  destruct (regularize_dates Hne) as (d0 & d1 & Hle & Hd & Hall & _ & Hin).
  rewrite (index_last_of_dates (regularize df) Hle Hd) in H.
  injection H as <-. split; [exact Hin |].
  intros p Hp. apply Hall in Hp. lia.
Qed.

(** ** Constant series *)

Lemma Rsum_repeat (c : R) (n : nat) : Rsum (repeat c n) = (INR n * c)%R.
Proof.
  induction n as [| n IH]; [simpl; lra |].
  rewrite S_INR. simpl. rewrite IH. lra.
Qed.

Lemma mean_repeat (c : R) (n : nat) :
  (0 < n)%nat -> Spec.mean (repeat c n) = c.
Proof.
  intros H. unfold Spec.mean. rewrite Rsum_repeat, repeat_length.
  field. apply not_0_INR. lia.
Qed.

Lemma Rsum_zero {A : Type} (f : A -> R) (l : list A) :
  (forall a, In a l -> f a = 0%R) -> Rsum (map f l) = 0%R.
Proof.
  induction l as [| a l IH]; intros H; simpl; [reflexivity |].
  rewrite (H a) by now left. rewrite IH; [lra |].
  intros b Hb. apply H. now right.
Qed.

Lemma sample_std_repeat (c : R) (n : nat) :
  (0 < n)%nat -> Spec.sample_std (repeat c n) = 0%R.
Proof.
  intros H. unfold Spec.sample_std. rewrite mean_repeat by exact H.
  rewrite Rsum_zero.
  - unfold Rdiv. rewrite Rmult_0_l. apply sqrt_0.
  - intros a Ha. apply repeat_spec in Ha. subst. ring.
Qed.

Lemma ols_slope_repeat (c : R) (n : nat) :
  (0 < n)%nat -> Spec.ols_slope (repeat c n) = 0%R.
Proof.
  intros H. unfold Spec.ols_slope.
  destruct (length (repeat c n) <? 2)%nat; [reflexivity |].
  rewrite mean_repeat by exact H.
  rewrite Rsum_zero.
  - unfold Rdiv. apply Rmult_0_l.
  - intros [x y] Hp. apply in_combine_r in Hp. apply repeat_spec in Hp.
    subst. simpl. ring.
Qed.

Lemma clamp_inside (x : R) : (0 <= x <= 500)%R -> Spec.clamp 0 500 x = x.
Proof.
  intros H. unfold Spec.clamp.
  rewrite Rmin_right by lra. apply Rmax_right. lra.
Qed.

(** The fallback table of forty days at the constant value 100. *)
Lemma constant_fallback (d0 : Z) (n : nat) :
  Spec.fallback (combine (date_range d0 40) (repeat 100%R 40)) n
  = map (fun i => mkForecast (d0 + 40 + Z.of_nat i) (fin 100) (fin 100)
                             (fin 100))
        (seq 0 n).
Proof.
  set (hist := combine (date_range d0 40) (repeat 100%R 40)).
  assert (Hm : Spec.recent_mean hist = 100%R).
  { unfold Spec.recent_mean.
    change (Spec.last_values 7 hist) with (repeat 100%R 7).
    apply mean_repeat. lia. }
  assert (Hs : Spec.recent_std hist = 0%R).
  { unfold Spec.recent_std.
    change (Spec.last_values 7 hist) with (repeat 100%R 7).
    apply sample_std_repeat. lia. }
  assert (Ht : Spec.trend_slope hist = 0%R).
  { unfold Spec.trend_slope.
    change (Spec.last_values 30 hist) with (repeat 100%R 30).
    apply ols_slope_repeat. lia. }
  assert (Hb : forall i, Spec.base hist i = 100%R).
  { intros i. unfold Spec.base, Spec.seasonal_adjustment.
    change (365 <=? length hist)%nat with false. cbv iota.
    rewrite Hm, Ht. rewrite <- (clamp_inside (x := 100)) at 2 by lra.
    f_equal. ring. }
  unfold Spec.fallback. apply map_ext. intros i.
  unfold Spec.forecast_entry, Spec.lower, Spec.upper, Spec.confidence_range.
  rewrite Hb, Hs. f_equal.
  - unfold Spec.target_date.
    change (Spec.last_date hist) with (d0 + 39)%Z. lia.
  - f_equal. rewrite Rmax_right; lra.
  - f_equal. rewrite Rmin_right; lra.
Qed.

Lemma no_nan_lift (hist : list (Z * R)) : no_nan (lift hist).
Proof.
  unfold no_nan, lift. apply Forall_forall. intros p Hp.
  apply in_map_iff in Hp. destruct Hp as [q [<- _]]. discriminate.
Qed.

Lemma regularize_daily_values (d0 : Z) (xs : list R) :
  xs <> [] -> regularize (daily_values d0 xs) = daily_values d0 xs.
Proof. apply regularize_gap_free. Qed.

Lemma length_daily_values (d0 : Z) (xs : list R) :
  length (daily_values d0 xs) = length xs.
Proof.
  unfold daily_values.
  rewrite length_lift, length_combine, length_date_range. lia.
Qed.

(* ================================================================= *)
(** * Forecast engine: the claims *)

(** C1 (defect of the ARIMA path).  The claim: every entry of every returned
    forecast satisfies [0 <= lower_bound <= aqi <= upper_bound <= 500], on the
    ARIMA path as on the fallback.  [forecast_aqi_simple] clamps its entries
    ([forecast_aqi_simple_in_bounds]); [forecast_aqi_arima] copies the
    point forecast and the interval of the fitted model into the table
    unchanged.  With a fitted model that forecasts 12 with the interval from
    -7 to 31 on ten days of low readings, the returned entry has a negative
    lower bound. *)
Theorem arima_forecast_outside_bounds :
  forecast_aqi_arima true (constant_model 12 (-7) 31)
                     (daily_values 0 low_aqi_days) 1
  = Some [mkForecast 10 (fin 12) (fin (-7)) (fin 31)]
  /\ ~ entry_in_bounds (mkForecast 10 (fin 12) (fin (-7)) (fin 31)).
Proof.
  split.
  - unfold forecast_aqi_arima, forecast_aqi_arima_body. cbn [negb].
    rewrite regularize_daily_values by discriminate.
    reflexivity.
  - intros (a & l & u & Ha & Hl & Hu & [Hl0 Hla] & _).
    cbn in Hl. injection Hl as <-. lra.
Qed.

(** C2 (defect of the ARIMA path).  The claim: the forecast fails with
    InsufficientData exactly when the regularized series has fewer than seven
    days, and no other error reaches the caller.  The second half holds
    ([forecast_aqi_arima_none], [forecast_aqi_simple_body_raises]) and the
    fallback fails exactly on fewer than seven days
    ([forecast_aqi_simple_none_iff]); but the check of the length is made in
    [forecast_aqi_simple] only.  On five regularized days, a statsmodels that
    fits returns a forecast, where the fallback alone fails. *)
Theorem arima_forecasts_five_days :
  length (regularize (daily_values 0 five_days)) = 5%nat
  /\ forecast_aqi_arima true (constant_model 12 8 16)
                        (daily_values 0 five_days) 2
     = Some [mkForecast 5 (fin 12) (fin 8) (fin 16);
             mkForecast 6 (fin 12) (fin 8) (fin 16)]
  /\ forecast_aqi_arima false (constant_model 12 8 16)
                        (daily_values 0 five_days) 2
     = None.
Proof.
  split; [| split].
  - rewrite regularize_daily_values by discriminate. reflexivity.
  - unfold forecast_aqi_arima, forecast_aqi_arima_body. cbn [negb].
    rewrite regularize_daily_values by discriminate.
    reflexivity.
  - unfold forecast_aqi_arima, forecast_aqi_simple. cbn [negb].
    rewrite forecast_aqi_simple_short; [reflexivity |].
    rewrite regularize_daily_values by discriminate.
    rewrite length_daily_values. simpl. lia.
Qed.

(** C3.  In the deterministic fallback, on a table of numbers whose
    regularized series [hist] has at least seven days, the returned table is
    [Spec.fallback hist]: entry [i] is dated [i + 1] days after the last
    date; its point forecast is
    [recent_mean + trend_slope * (i + 1)], plus
    [0.3 * (seasonal_pattern[day_of_year] - recent_mean)] when [hist] has at
    least 365 days and the day of the year of the target date occurs in it,
    clamped to [0, 500]; [recent_mean] and [recent_std] are the mean and the
    sample standard deviation of the last [min(7, N)] values; the bounds are
    [max(0, base - 1.96 * recent_std)] and
    [min(500, base + 1.96 * recent_std)]. *)
Theorem fallback_formula (df : series) (forecast_days : nat) :
  no_nan df -> (7 <= length (regularize df))%nat ->
  exists hist : list (Z * R),
    regularize df = lift hist /\
    forecast_aqi_simple df forecast_days
    = Some (Spec.fallback hist forecast_days).
Proof. intros Hnan Hlen. now apply fallback_refines. Qed.

Lemma fallback_formula_witness :
  no_nan (daily_values 0 ten_days)
  /\ (7 <= length (regularize (daily_values 0 ten_days)))%nat
  /\ exists hist : list (Z * R),
       regularize (daily_values 0 ten_days) = lift hist /\
       forecast_aqi_simple (daily_values 0 ten_days) 3
       = Some (Spec.fallback hist 3).
Proof.
  assert (Hnan : no_nan (daily_values 0 ten_days)) by apply no_nan_lift.
  assert (Hlen : (7 <= length (regularize (daily_values 0 ten_days)))%nat).
  { rewrite regularize_daily_values by discriminate.
    rewrite length_daily_values. simpl. lia. }
  split; [exact Hnan |]. split; [exact Hlen |].
  exact (fallback_formula 3 Hnan Hlen).
Defined.

(** C4.  A successful forecast with horizon [n], on either path, has exactly
    [n] entries, dated [last + 1], ..., [last + n], where [last] is the last
    date of the regularized series, which is the latest date of the
    historical table: the forecast days are consecutive, start the day after
    the history and none of them is a historical date. *)
Theorem forecast_dates_follow_history (ARIMA_AVAILABLE : bool)
    (sm : statsmodels) (df : series) (n : nat) (out : list forecast_row) :
  forecast_aqi_arima ARIMA_AVAILABLE sm df n = Some out ->
  exists last : Z,
    index_last (regularize df) = Ok last /\
    (exists v, In (last, v) df) /\
    (forall p, In p df -> (fst p <= last)%Z) /\
    length out = n /\
    map f_date out = map (fun i => (last + 1 + Z.of_nat i)%Z) (seq 0 n).
Proof.
  intros H. destruct (forecast_dates _ _ _ _ H) as [last [Hlast Hdates]].
  exists last. split; [exact Hlast |].
  destruct (index_last_is_latest df Hlast) as [Hin Hmax].
  split; [exact Hin |]. split; [exact Hmax |].
  split; [| exact Hdates].
  rewrite <- (length_map f_date), Hdates. apply length_date_range.
Qed.

Lemma forecast_dates_follow_history_witness :
  forecast_aqi_arima false failing_model (daily_values 0 ten_days) 3
  = Some (Spec.fallback (combine (date_range 0 10) ten_days) 3)
  /\ exists last : Z,
       index_last (regularize (daily_values 0 ten_days)) = Ok last /\
       (exists v, In (last, v) (daily_values 0 ten_days)) /\
       (forall p, In p (daily_values 0 ten_days) -> (fst p <= last)%Z) /\
       length (Spec.fallback (combine (date_range 0 10) ten_days) 3) = 3%nat /\
       map f_date (Spec.fallback (combine (date_range 0 10) ten_days) 3)
       = map (fun i => (last + 1 + Z.of_nat i)%Z) (seq 0 3).
Proof.
  assert (H : forecast_aqi_arima false failing_model (daily_values 0 ten_days) 3
              = Some (Spec.fallback (combine (date_range 0 10) ten_days) 3)).
  { unfold forecast_aqi_arima, forecast_aqi_simple. cbn [negb].
    rewrite (forecast_aqi_simple_body_spec (daily_values 0 ten_days) 3
               (combine (date_range 0 10) ten_days)).
    - reflexivity.
    - apply regularize_daily_values. discriminate.
    - simpl. lia. }
  split; [exact H |].
  exact (forecast_dates_follow_history false failing_model
           (daily_values 0 ten_days) 3 H).
Defined.

(** C6.  With the primary model unavailable, forty days at the constant value
    100 give, at every step, the point forecast 100 with lower and upper
    bound 100: the trend slope is 0, there is no seasonal pattern (fewer than
    365 days), the sample standard deviation of the window is 0 and is a
    number, so the confidence range is [1.96 * 0 = 0] and not
    [0.2 * recent_mean]. *)
Theorem constant_series_forecast (sm : statsmodels) (d0 : Z) (n : nat) :
  let df := daily_values d0 (repeat 100%R 40) in
  let df_ts := regularize df in
  let window := tail (Nat.min 7 (length df_ts)) (map snd df_ts) in
  trend_slope_of (tail (Nat.min 30 (length df_ts)) (map snd df_ts))
  = Ok (fin 0)
  /\ seasonal_pattern_of df_ts = None
  /\ series_std window = fin 0
  /\ confidence_range_of (series_mean window) (series_std window) = fin 0
  /\ forecast_aqi_arima false sm df n
     = Some (map (fun i => mkForecast (d0 + 40 + Z.of_nat i) (fin 100)
                                      (fin 100) (fin 100))
                 (seq 0 n)).
Proof.
  intros df df_ts window.
  assert (Hreg : df_ts = lift (combine (date_range d0 40) (repeat 100%R 40))).
  { unfold df_ts, df. rewrite regularize_daily_values by discriminate.
    reflexivity. }
  assert (Hw : window = map fin (repeat 100%R 7)).
  { unfold window. rewrite Hreg. rewrite tail_lift. reflexivity. }
  assert (Hstd : series_std window = fin 0).
  { rewrite Hw, series_std_fin by (simpl; lia).
    f_equal. apply sample_std_repeat. lia. }
  split; [| split; [| split; [| split]]].
  - rewrite Hreg, tail_lift.
    change (Spec.last_values 30 (combine (date_range d0 40) (repeat 100%R 40)))
      with (repeat 100%R 30).
    unfold trend_slope_of. rewrite length_map.
    change (1 <? length (repeat 100%R 30))%nat with true. cbv iota.
    rewrite polyfit_slope_fin by (simpl; lia).
    f_equal. f_equal. apply ols_slope_repeat. lia.
  - rewrite Hreg. reflexivity.
  - exact Hstd.
  - rewrite Hstd, Hw, series_mean_fin by discriminate.
    rewrite confidence_range_of_fin. f_equal. ring.
  - unfold forecast_aqi_arima, forecast_aqi_simple. cbn [negb].
    rewrite (forecast_aqi_simple_body_spec df n
               (combine (date_range d0 40) (repeat 100%R 40))).
    + now rewrite constant_fallback.
    + exact Hreg.
    + simpl. lia.
Qed.



(* ================================================================= *)
(** * The heap *)

Lemma deref_lt (l : nat) (s : state) (f : frame) :
  deref l s = Some f -> (l < length (heap s))%nat.
Proof.
  unfold deref. intros H. apply nth_error_Some. congruence.
Qed.

Lemma deref_alloc_new (f : frame) (s : state) :
  deref (fst (alloc f s)) (snd (alloc f s)) = Some f.
Proof.
  unfold deref, alloc. simpl.
  rewrite nth_error_app2 by lia. now rewrite Nat.sub_diag.
Qed.

Lemma deref_alloc_old (f g : frame) (s : state) (l : nat) :
  deref l s = Some g -> deref l (snd (alloc f s)) = Some g.
Proof.
  intros H. pose proof (deref_lt _ _ H) as Hlt.
  unfold deref, alloc in *. simpl. now rewrite nth_error_app1.
Qed.

Lemma nth_error_replace_same {A : Type} (l : list A) (n : nat) (x : A) :
  (n < length l)%nat -> nth_error (replace_nth n x l) n = Some x.
Proof.
  revert n. induction l as [| y l IH]; intros [| n] H; simpl in *;
    try lia; [reflexivity |].
  apply IH. lia.
Qed.

Lemma nth_error_replace_other {A : Type} (l : list A) (n m : nat) (x : A) :
  n <> m -> nth_error (replace_nth n x l) m = nth_error l m.
Proof.
  revert n m. induction l as [| y l IH]; intros [| n] [| m] H; simpl;
    try reflexivity; try congruence.
  apply IH. congruence.
Qed.

Lemma length_replace_nth {A : Type} (l : list A) (n : nat) (x : A) :
  length (replace_nth n x l) = length l.
Proof.
  revert n. induction l as [| y l IH]; intros [| n]; simpl;
    try reflexivity. now rewrite IH.
Qed.

Lemma deref_store_same (l : nat) (f g : frame) (s : state) :
  deref l s = Some g -> deref l (store l f s) = Some f.
Proof.
  intros H. apply deref_lt in H. unfold deref, store. simpl.
  now apply nth_error_replace_same.
Qed.

Lemma deref_store_other (l l' : nat) (f : frame) (s : state) :
  l <> l' -> deref l' (store l f s) = deref l' s.
Proof.
  intros H. unfold deref, store. simpl. now apply nth_error_replace_other.
Qed.

(** ** The preparer's fill steps on a table without missing cells *)

Lemma set_aqi_same (r : row) : set_aqi r (aqi r) = r.
Proof. destruct r. reflexivity. Qed.

Lemma assign_aqi_same (rows : list row) : assign_aqi rows (map aqi rows) = rows.
Proof.
  unfold assign_aqi. induction rows as [| r rows IH]; simpl; [reflexivity |].
  now rewrite set_aqi_same, IH.
Qed.

Lemma map_aqi_assign (rows : list row) (col : list float) :
  length col = length rows -> map aqi (assign_aqi rows col) = col.
Proof.
  unfold assign_aqi. revert col.
  induction rows as [| r rows IH]; intros [| a col] H; simpl in *;
    try reflexivity; try discriminate.
  f_equal. apply IH. lia.
Qed.

Lemma group_ffill_full (last : list (string * R)) (rows : list row) :
  labelled rows -> canonical rows -> group_ffill last rows = map aqi rows.
Proof.
  revert last. induction rows as [| r rows IH]; intros last Hl Hc;
    [reflexivity |].
  inversion Hl as [| ? ? Hr Hl']; inversion Hc as [| ? ? Ha Hc']; subst.
  simpl. destruct (city r) as [c |]; [| congruence].
  destruct (aqi r) as [v |]; [| now contradiction Ha].
  unfold fin. f_equal. now apply IH.
Qed.

Lemma bfill_full (l : list float) :
  Forall (fun a => a <> NaN) l -> bfill l = l.
Proof.
  induction 1 as [| a l Ha _ IH]; simpl; [reflexivity |].
  rewrite IH. destruct a; [reflexivity | now contradiction Ha].
Qed.

Lemma fillna_full (v : float) (l : list float) :
  Forall (fun a => a <> NaN) l -> fillna v l = l.
Proof.
  unfold fillna. induction 1 as [| a l Ha _ IH]; simpl; [reflexivity |].
  rewrite IH. destruct a; [reflexivity | now contradiction Ha].
Qed.

Lemma canonical_map_aqi (rows : list row) :
  canonical rows -> Forall (fun a => a <> NaN) (map aqi rows).
Proof.
  unfold canonical. intros H. apply Forall_map. exact H.
Qed.

(** On labelled rows without missing AQI the two assignments of lines
    161-167 write back the values that were there. *)
Lemma fill_missing_full (rows : list row) :
  labelled rows -> canonical rows -> fill_missing rows = rows.
Proof.
  intros Hl Hc. unfold fill_missing.
  rewrite group_ffill_full by assumption.
  rewrite bfill_full by now apply canonical_map_aqi.
  rewrite assign_aqi_same.
  rewrite fillna_full by now apply canonical_map_aqi.
  apply assign_aqi_same.
Qed.

Lemma city_mask_matches (wanted : string) (r : row) :
  city_mask wanted r = true <-> city_matches r wanted.
Proof.
  unfold city_mask, city_matches. destruct (city r) as [c |].
  - rewrite String.eqb_eq. split.
    + intros H. exists c. now split.
    + intros [c' [E H]]. injection E as <-. exact H.
  - split; [discriminate | intros [c' [E _]]; discriminate].
Qed.

Lemma filter_city_labelled (wanted : string) (rows : list row) :
  labelled (filter (city_mask wanted) rows).
Proof.
  unfold labelled. apply Forall_forall. intros r Hr.
  apply filter_In in Hr. destruct Hr as [_ Hm].
  unfold city_mask in Hm. destruct (city r); [discriminate | discriminate].
Qed.

Lemma filter_canonical (f : row -> bool) (rows : list row) :
  canonical rows -> canonical (filter f rows).
Proof.
  unfold canonical. rewrite !Forall_forall. intros H r Hr.
  apply filter_In in Hr. now apply H.
Qed.

(** ** Unfolding the preparer *)

Lemma load_full_dataset_cached (file : option csv) (s : state) (l0 : nat) :
  _data_cache s = Some l0 -> load_full_dataset file s = (Some l0, s).
Proof. intros H. unfold load_full_dataset. now rewrite H. Qed.

Lemma prepare_filtered (file : option csv) (city_arg : option string)
    (s s1 : state) (l0 : nat) (table : list row) :
  load_full_dataset file s = (Some l0, s1) ->
  deref l0 s1 = Some (Records table) ->
  city_filter_applies city_arg = true ->
  load_and_preprocess_data file city_arg s
  = let kept := filter (city_mask (city_text city_arg)) table in
    let s2 := snd (alloc (Records kept) s1) in
    if (length kept =? 0)%nat then (inl NoDataForCity, s2)
    else
      let s3 := store (length (heap s1)) (Records (fill_missing kept)) s2 in
      (inr (length (heap s3)),
       snd (alloc (Records (dedup_sort (fill_missing kept))) s3)).
Proof.
  intros Hload Hd Hf. unfold load_and_preprocess_data.
  rewrite Hload, Hd, Hf.
  pose proof (deref_alloc_new
                (Records (filter (city_mask (city_text city_arg)) table)) s1)
    as Hnew.
  unfold alloc at 1 2 in Hnew. cbn [fst snd] in Hnew.
  unfold alloc at 1. rewrite Hnew. cbn [andb].
  reflexivity.
Qed.

Lemma prepare_unfiltered (file : option csv) (city_arg : option string)
    (s s1 : state) (l0 : nat) (table : list row) :
  load_full_dataset file s = (Some l0, s1) ->
  deref l0 s1 = Some (Records table) ->
  city_filter_applies city_arg = false ->
  load_and_preprocess_data file city_arg s
  = let s3 := store l0 (Records (fill_missing table)) s1 in
    (inr (length (heap s3)),
     snd (alloc (Records (dedup_sort (fill_missing table))) s3)).
Proof.
  intros Hload Hd Hf. unfold load_and_preprocess_data.
  rewrite Hload, Hd, Hf, Hd. cbn [andb]. reflexivity.
Qed.

Lemma city_filter_applies_given (wanted : string) :
  wanted <> EmptyString -> wanted <> ALL_CITIES ->
  city_filter_applies (Some wanted) = true.
Proof.
  intros Hne Hall. unfold city_filter_applies.
  apply andb_true_intro. split.
  - destruct wanted; [congruence | reflexivity].
  - apply negb_true_iff, String.eqb_neq, Hall.
Qed.

Lemma same_city_date_refl (r : row) : same_city_date r r = true.
Proof.
  unfold same_city_date. rewrite Z.eqb_refl, andb_true_r.
  destruct (city r) as [c |]; simpl; [apply String.eqb_refl | reflexivity].
Qed.

Lemma same_city_date_eq (r r' : row) :
  same_city_date r r' = true -> city r = city r' /\ date r = date r'.
Proof.
  unfold same_city_date. intros H. apply andb_prop in H.
  destruct H as [Hc Hd]. apply Z.eqb_eq in Hd. split; [| exact Hd].
  destruct (city r) as [c |], (city r') as [c' |]; simpl in Hc;
    try discriminate; [| reflexivity].
  apply String.eqb_eq in Hc. now subst.
Qed.

Lemma dedup_sort_subset (rows : list row) (r : row) :
  In r (dedup_sort rows) -> In r rows.
Proof.
  unfold dedup_sort. rewrite sort_by_in. apply drop_duplicates_subset.
Qed.

Lemma dedup_sort_covers (rows : list row) (r : row) :
  In r rows ->
  exists r', In r' (dedup_sort rows) /\ city r' = city r /\ date r' = date r.
Proof.
  intros H.
  destruct (drop_duplicates_covers same_city_date same_city_date_refl rows r H)
    as [r' [Hin Hs]].
  apply same_city_date_eq in Hs. destruct Hs as [Hc Hd].
  exists r'. unfold dedup_sort. rewrite sort_by_in. auto.
Qed.

(* ================================================================= *)
(** * Series preparer: the claims *)

(** With a city filter the preparer works on a copy: every DataFrame that
    exists once the dataset is loaded, the cached one included, is left as it
    was. *)
Lemma prepare_filtered_keeps_frames (file : option csv) (wanted : string)
    (s s1 : state) (l0 : nat) (table : list row) (l : nat) (f : frame) :
  load_full_dataset file s = (Some l0, s1) ->
  deref l0 s1 = Some (Records table) ->
  wanted <> EmptyString -> wanted <> ALL_CITIES ->
  deref l s1 = Some f ->
  deref l (snd (load_and_preprocess_data file (Some wanted) s)) = Some f.
Proof.
  intros Hload Hd Hne Hall Hl.
  rewrite (prepare_filtered file (Some wanted) s Hload Hd
             (city_filter_applies_given Hne Hall)).
  cbv zeta.
  pose proof (deref_lt _ _ Hl) as Hlt.
  destruct (length (filter _ table) =? 0)%nat; cbn [snd].
  - now apply deref_alloc_old.
  - apply deref_alloc_old.
    rewrite deref_store_other by lia.
    now apply deref_alloc_old.
Qed.

(** Without a city filter the preparer assigns to the cached DataFrame; on a
    table whose rows all have a city label and an AQI the values written are
    the values that were there. *)
Lemma prepare_unfiltered_labelled (file : option csv) (s s1 : state)
    (l0 : nat) (table : list row) :
  load_full_dataset file s = (Some l0, s1) ->
  deref l0 s1 = Some (Records table) ->
  labelled table -> canonical table ->
  deref l0 (snd (load_and_preprocess_data file None s))
  = Some (Records table).
Proof.
  intros Hload Hd Hl Hcan.
  rewrite (prepare_unfiltered file None s Hload Hd eq_refl).
  cbv zeta. cbn [snd].
  rewrite fill_missing_full by assumption.
  eapply deref_alloc_old, deref_store_same, Hd.
Qed.

(** The table the loader caches has no missing AQI. *)
Lemma normalize_canonical (f : csv) : canonical (normalize f).
Proof.
  unfold canonical, normalize.
  eapply Permutation_Forall; [apply Permutation_sym, sort_by_perm |].
  apply Forall_forall. intros r Hr. apply in_flat_map in Hr.
  destruct Hr as [q [_ Hq]].
  destruct (raw_date q) as [d |]; [| contradiction].
  destruct (raw_aqi q) as [v |]; [| contradiction].
  destruct Hq as [<- | []]. discriminate.
Qed.


(** C5 (defect of the path without a city filter).  The claim: no component
    mutates a shared table, and the preparer, with or without a city filter,
    leaves the cached dataset unchanged.  With a filter it does
    ([prepare_filtered_keeps_frames]: the filter makes a copy).  Without one,
    [df] is the cached object and lines 162 and 167 assign to its column: for
    a file whose last reading has no city label, the cached AQI values are
    100, 200, 50 after loading and 100, 200, 150 after one call of the
    preparer. *)
Theorem preparer_overwrites_cache :
  _data_cache state_after_load = Some 0%nat
  /\ _data_cache state_after_prepare = Some 0%nat
  /\ (exists rows, deref 0 state_after_load = Some (Records rows)
                   /\ map city rows
                      = [Some "Delhi"%string; Some "Delhi"%string; None]
                   /\ map aqi rows = [fin 100; fin 200; fin 50])
  /\ (exists rows, deref 0 state_after_prepare = Some (Records rows)
                   /\ map aqi rows = [fin 100; fin 200; fin 150]).
Proof.
  split; [reflexivity |]. split; [reflexivity |]. split.
  - eexists. split; [reflexivity |]. split; reflexivity.
  - eexists. split; [reflexivity |].
    change (map aqi (fill_missing (normalize blank_city_file)))
      with [fin 100; fin 200; fin ((100 + (200 + 0)) / (1 + 1))].
    do 4 f_equal. lra.
Qed.

(** ** Trimming and case folding *)

Lemma is_space_whitespace (c : ascii) :
  is_space c = true <-> In c whitespace.
Proof.
  split.
  - destruct c as [[] [] [] [] [] [] [] []]; intros H;
      try discriminate H; vm_compute; tauto.
  - intros H. vm_compute in H.
    repeat (destruct H as [<- | H]; [reflexivity |]). contradiction.
Qed.

Lemma is_space_false (c : ascii) :
  is_space c = false <-> ~ In c whitespace.
Proof.
  rewrite <- is_space_whitespace. destruct (is_space c); split; intros H;
    congruence.
Qed.

Lemma blank_empty : blank EmptyString.
Proof. constructor. Qed.

Lemma blank_cons (c : ascii) (s : string) :
  blank (String c s) <-> is_space c = true /\ blank s.
Proof.
  unfold blank. simpl. rewrite is_space_whitespace. split.
  - intros H. inversion H; subst. now split.
  - intros [H1 H2]. now constructor.
Qed.

Lemma blank_app (l r : string) : blank l -> blank r -> blank (l ++ r).
Proof.
  induction l as [| c l IH]; intros Hl Hr; [exact Hr |].
  simpl. apply blank_cons in Hl. destruct Hl as [Hc Hl].
  apply blank_cons. split; [exact Hc | now apply IH].
Qed.

Lemma string_app_assoc (a b c : string) : ((a ++ b) ++ c = a ++ (b ++ c))%string.
Proof. induction a as [| x a IH]; simpl; [reflexivity | now rewrite IH]. Qed.

Lemma string_app_empty_r (a : string) : (a ++ EmptyString)%string = a.
Proof. induction a as [| x a IH]; simpl; [reflexivity | now rewrite IH]. Qed.

Lemma append_last_neq (u : string) (c : ascii) :
  (u ++ String c EmptyString)%string <> EmptyString.
Proof. destruct u; discriminate. Qed.

Lemma append_last_inj (u v : string) (c d : ascii) :
  (u ++ String c EmptyString)%string = (v ++ String d EmptyString)%string ->
  u = v /\ c = d.
Proof.
  revert v. induction u as [| x u IH]; intros [| y v] H; simpl in H.
  - injection H as ->. now split.
  - injection H as _ H. symmetry in H. now apply append_last_neq in H.
  - injection H as _ H. now apply append_last_neq in H.
  - injection H as -> H. apply IH in H. destruct H as [-> ->]. now split.
Qed.

Lemma last_char (s : string) :
  s = EmptyString \/ exists u c, s = (u ++ String c EmptyString)%string.
Proof.
  induction s as [| x s IH]; [now left |]. right.
  destruct IH as [-> | [u [c ->]]].
  - exists EmptyString, x. reflexivity.
  - exists (String x u), c. reflexivity.
Qed.

Lemma rstrip_blank (r : string) : blank r -> rstrip r = EmptyString.
Proof.
  induction r as [| c r IH]; intros H; [reflexivity |].
  apply blank_cons in H. destruct H as [Hc Hr].
  simpl. now rewrite (IH Hr), Hc.
Qed.

Lemma rstrip_app_blank (x r : string) :
  blank r -> rstrip (x ++ r) = rstrip x.
Proof.
  intros Hr. induction x as [| c x IH]; simpl.
  - now apply rstrip_blank.
  - now rewrite IH.
Qed.

Lemma rstrip_ends (u : string) (c : ascii) :
  is_space c = false ->
  rstrip (u ++ String c EmptyString) = (u ++ String c EmptyString)%string.
Proof.
  intros Hc. induction u as [| d u IH]; simpl.
  - now rewrite Hc.
  - rewrite IH. destruct (u ++ String c EmptyString)%string eqn:E;
      [| reflexivity].
    now apply append_last_neq in E.
Qed.

Lemma rstrip_last (s u : string) (c : ascii) :
  rstrip s = (u ++ String c EmptyString)%string -> is_space c = false.
Proof.
  revert u. induction s as [| d s IH]; intros u H; simpl in H.
  - symmetry in H. now apply append_last_neq in H.
  - destruct (rstrip s) as [| e t] eqn:E.
    + destruct (is_space d) eqn:Ed.
      * symmetry in H. now apply append_last_neq in H.
      * change (String d EmptyString)
          with (EmptyString ++ String d EmptyString)%string in H.
        apply append_last_inj in H. destruct H as [_ <-]. exact Ed.
    + destruct u as [| x u]; simpl in H.
      * injection H as _ H. discriminate.
      * injection H as _ H. now apply (IH u).
Qed.

Lemma rstrip_suffix (s : string) :
  exists r, s = (rstrip s ++ r)%string /\ blank r.
Proof.
  induction s as [| c s IH]; [exists EmptyString; split;
                               [reflexivity | apply blank_empty] |].
  destruct IH as [r [Hs Hr]]. simpl.
  destruct (rstrip s) as [| e t] eqn:E.
  - simpl in Hs. subst r. destruct (is_space c) eqn:Ec.
    + exists (String c s). split; [reflexivity |].
      apply blank_cons. now split.
    + exists s. split; [reflexivity | exact Hr].
  - exists r. split; [| exact Hr]. simpl. simpl in Hs. now rewrite <- Hs.
Qed.

Lemma lstrip_prefix (x : string) :
  exists l, x = (l ++ lstrip x)%string /\ blank l.
Proof.
  induction x as [| c x IH]; [exists EmptyString; split;
                               [reflexivity | apply blank_empty] |].
  simpl. destruct (is_space c) eqn:Ec.
  - destruct IH as [l [Hx Hl]]. exists (String c l). split.
    + simpl. now rewrite <- Hx.
    + apply blank_cons. now split.
  - exists EmptyString. split; [reflexivity | apply blank_empty].
Qed.

Lemma lstrip_first (x u : string) (c : ascii) :
  lstrip x = String c u -> is_space c = false.
Proof.
  induction x as [| d x IH]; intros H; simpl in H; [discriminate |].
  destruct (is_space d) eqn:Ed; [now apply IH |].
  injection H as <- _. exact Ed.
Qed.

Lemma lstrip_app_blank (l t : string) :
  blank l -> (forall c u, t = String c u -> is_space c = false) ->
  lstrip (l ++ t) = t.
Proof.
  intros Hl Ht. induction l as [| c l IH]; simpl.
  - destruct t as [| d u]; [reflexivity |].
    simpl. now rewrite (Ht d u eq_refl).
  - apply blank_cons in Hl. destruct Hl as [Hc Hl]. rewrite Hc. now apply IH.
Qed.

(** [strip] trims, and what it returns is the only trimmed form. *)
Lemma strip_trimmed (s : string) : trimmed s (strip s).
Proof.
  unfold trimmed, strip.
  destruct (rstrip_suffix s) as [r [Hs Hr]].
  destruct (lstrip_prefix (rstrip s)) as [l [Hx Hl]].
  exists l, r. split; [| split; [exact Hl | split; [exact Hr | split]]].
  - rewrite <- string_app_assoc, <- Hx. exact Hs.
  - intros c u E. apply is_space_false. now apply (lstrip_first _ E).
  - intros u c E. apply is_space_false.
    apply (rstrip_last s (l ++ u)).
    rewrite Hx at 1. rewrite E. now rewrite string_app_assoc.
Qed.

Lemma trimmed_strip (s t : string) : trimmed s t -> strip s = t.
Proof.
  intros (l & r & -> & Hl & Hr & Hfirst & Hlast). unfold strip.
  rewrite <- string_app_assoc, (@rstrip_app_blank (l ++ t) r Hr).
  destruct (last_char t) as [-> | [u [c E]]].
  - rewrite string_app_empty_r, (@rstrip_blank l Hl). reflexivity.
  - assert (Hc : is_space c = false) by (apply is_space_false; eauto).
    rewrite E at 1. rewrite <- string_app_assoc, (@rstrip_ends (l ++ u) c Hc).
    rewrite string_app_assoc, <- E.
    apply lstrip_app_blank; [exact Hl |].
    intros d v Ed. apply is_space_false. eauto.
Qed.

Lemma to_lower_upper (c : ascii) :
  is_upper c = true -> In (c, to_lower c) letter_cases.
Proof.
  destruct c as [[] [] [] [] [] [] [] []]; intros H; try discriminate H;
    vm_compute; tauto.
Qed.

Lemma to_lower_other (c : ascii) : is_upper c = false -> to_lower c = c.
Proof. unfold is_upper, to_lower. intros H. cbv zeta in *. now rewrite H. Qed.

Lemma letter_cases_lower (a b : ascii) :
  In (a, b) letter_cases -> to_lower a = b /\ to_lower b = b.
Proof.
  intros H. vm_compute in H.
  repeat (destruct H as [H | H];
          [injection H as <- <-; split; reflexivity |]).
  contradiction.
Qed.

Lemma letter_cases_upper (a b : ascii) :
  In (a, b) letter_cases -> a = ascii_of_nat (nat_of_ascii b - 32).
Proof.
  intros H. vm_compute in H.
  repeat (destruct H as [H | H]; [injection H as <- <-; reflexivity |]).
  contradiction.
Qed.

Lemma letter_cases_functional (a a' b : ascii) :
  In (a, b) letter_cases -> In (a', b) letter_cases -> a = a'.
Proof.
  intros H H'. apply letter_cases_upper in H, H'. congruence.
Qed.

Lemma to_lower_same_letter (a b : ascii) :
  to_lower a = to_lower b <-> same_letter a b.
Proof.
  unfold same_letter. split.
  - intros H. destruct (is_upper a) eqn:Ea, (is_upper b) eqn:Eb.
    + left. apply (@letter_cases_functional a b (to_lower a)).
      * now apply to_lower_upper.
      * rewrite H. now apply to_lower_upper.
    + right. left. rewrite <- (to_lower_other _ Eb), <- H.
      now apply to_lower_upper.
    + right. right. rewrite <- (to_lower_other _ Ea), H.
      now apply to_lower_upper.
    + left. now rewrite <- (to_lower_other _ Ea), <- (to_lower_other _ Eb).
  - intros [-> | [H | H]]; [reflexivity | |];
      apply letter_cases_lower in H; destruct H as [H1 H2]; congruence.
Qed.

Lemma lower_same_text (a b : string) : lower a = lower b <-> same_text a b.
Proof.
  unfold same_text. revert b.
  induction a as [| x a IH]; intros [| y b]; simpl.
  - split; [constructor | reflexivity].
  - split; [discriminate | intros H; inversion H].
  - split; [discriminate | intros H; inversion H].
  - split.
    + intros H. injection H as Hc Hs. constructor.
      * now apply to_lower_same_letter.
      * now apply IH.
    + intros H. inversion H as [| ? ? ? ? Hc Hs]; subst. f_equal.
      * now apply to_lower_same_letter.
      * now apply IH.
Qed.

(** The comparison of line 155 is the match of the specification. *)
Lemma label_matches_iff (label wanted : string) :
  lower (strip label) = lower (strip wanted) <-> label_matches label wanted.
Proof.
  unfold label_matches. split.
  - intros H. exists (strip label), (strip wanted).
    split; [apply strip_trimmed |]. split; [apply strip_trimmed |].
    now apply lower_same_text.
  - intros (a & b & Ha & Hb & Hs).
    apply trimmed_strip in Ha, Hb. subst a b. now apply lower_same_text.
Qed.

Lemma city_matches_row_matches (r : row) (wanted : string) :
  city_matches r wanted <-> row_matches r wanted.
Proof.
  unfold city_matches, row_matches.
  split; intros [c [Hc H]]; exists c; (split; [exact Hc |]);
    now apply label_matches_iff.
Qed.

(** C7.  For the table of the loader (no missing AQI) and a requested city
    that is given (a non-empty string) and is not "All Cities": the preparer
    fails, with "No data found for city", if and only if no row of the table
    matches the request, a row matching when its label and the request are
    equal up to the case of the letters once the whitespace on both sides of
    each is taken off; when a row matches, the preparer keeps in [df] exactly
    the matching rows of the table, every row it returns is one of the kept
    rows, and every kept row is represented in the result by the first row
    of its (city, date). *)
Theorem city_filter_spec (file : option csv) (s s1 : state) (l0 : nat)
    (table : list row) (wanted : string) :
  load_full_dataset file s = (Some l0, s1) ->
  deref l0 s1 = Some (Records table) ->
  canonical table ->
  wanted <> EmptyString -> wanted <> ALL_CITIES ->
  (fst (load_and_preprocess_data file (Some wanted) s) = inl NoDataForCity
   <-> forall r, In r table -> ~ row_matches r wanted)
  /\ ((exists r, In r table /\ row_matches r wanted) ->
      exists (out : nat) (s' : state) (kept rows : list row),
        load_and_preprocess_data file (Some wanted) s = (inr out, s') /\
        deref (length (heap s1)) s' = Some (Records kept) /\
        (forall r, In r kept <-> In r table /\ row_matches r wanted) /\
        deref out s' = Some (Records rows) /\
        (forall r, In r rows -> In r kept) /\
        (forall r, In r kept ->
           exists r', In r' rows /\ city r' = city r /\ date r' = date r)).
Proof.
  intros Hload Hd Hcan Hne Hall.
  rewrite (prepare_filtered file (Some wanted) s Hload Hd
             (city_filter_applies_given Hne Hall)).
  cbv zeta. cbn [city_text].
  set (kept := filter (city_mask wanted) table).
  assert (Hkept : forall r, In r kept <-> In r table /\ row_matches r wanted).
  { intros r. unfold kept.
    rewrite filter_In, city_mask_matches, city_matches_row_matches. tauto. }
  destruct kept as [| r0 kept'] eqn:Ek.
  - cbn [length Nat.eqb fst]. split.
    + split; [| reflexivity].
      intros _ r Hr Hm. apply (proj2 (Hkept r)). now split.
    + intros [r Hr]. now apply Hkept in Hr.
  - cbn [length Nat.eqb fst]. rewrite <- Ek in *.
    assert (Hfull : fill_missing kept = kept).
    { apply fill_missing_full.
      - unfold kept. apply filter_city_labelled.
      - unfold kept. now apply filter_canonical. }
    rewrite Hfull.
    split.
    { split; [discriminate |].
      intros Hno. exfalso.
      assert (Hr0 : In r0 kept) by (rewrite Ek; now left).
      apply Hkept in Hr0. destruct Hr0 as [Hin Hm]. exact (Hno r0 Hin Hm). }
    intros _.
    eexists _, _, kept, (dedup_sort kept).
    split; [reflexivity |].
    set (s2 := snd (alloc (Records kept) s1)).
    assert (Hdf : deref (length (heap s1)) s2 = Some (Records kept))
      by apply (deref_alloc_new (Records kept) s1).
    set (s3 := store (length (heap s1)) (Records kept) s2).
    assert (Hdf3 : deref (length (heap s1)) s3 = Some (Records kept))
      by (eapply deref_store_same, Hdf).
    split; [now apply deref_alloc_old |].
    split; [exact Hkept |].
    split; [apply (deref_alloc_new (Records (dedup_sort kept)) s3) |].
    split; [apply dedup_sort_subset | apply dedup_sort_covers].
Qed.

Lemma trimmed_between (l t r : string) (first last_ : ascii) (u v : string) :
  blank l -> blank r ->
  t = String first u -> t = (v ++ String last_ EmptyString)%string ->
  ~ In first whitespace -> ~ In last_ whitespace ->
  trimmed (l ++ t ++ r) t.
Proof.
  intros Hl Hr Hf Hlast Hnf Hnl. exists l, r.
  split; [reflexivity |]. split; [exact Hl |]. split; [exact Hr |]. split.
  - intros c w E. rewrite Hf in E. injection E as <- _. exact Hnf.
  - intros w c E. rewrite Hlast in E. apply append_last_inj in E.
    destruct E as [_ <-]. exact Hnl.
Qed.

Lemma city_filter_spec_witness :
  row_matches (mkRow 18262 (Some " Delhi"%string) (fin 100) 2020 1 1)
              " delhi "
  /\ exists (out : nat) (s' : state) (kept rows : list row),
       load_and_preprocess_data (Some spaced_city_file)
                                (Some " delhi "%string) empty_state
       = (inr out, s') /\
       deref 1 s' = Some (Records kept) /\
       (forall r, In r kept <->
                  In r (normalize spaced_city_file)
                  /\ row_matches r " delhi ") /\
       deref out s' = Some (Records rows) /\
       (forall r, In r rows -> In r kept) /\
       (forall r, In r kept ->
          exists r', In r' rows /\ city r' = city r /\ date r' = date r).
Proof.
  assert (Hblank : blank " ").
  { constructor; [| constructor]. right. right. right. right. right. right.
    right. right. right. left. reflexivity. }
  assert (Hlast_i : ~ In "i"%char whitespace).
  { intros H. simpl in H.
    repeat (destruct H as [H | H]; [discriminate H |]). exact H. }
  assert (Hfirst_D : ~ In "D"%char whitespace).
  { intros H. simpl in H.
    repeat (destruct H as [H | H]; [discriminate H |]). exact H. }
  assert (Hfirst_d : ~ In "d"%char whitespace).
  { intros H. simpl in H.
    repeat (destruct H as [H | H]; [discriminate H |]). exact H. }
  assert (Hm : row_matches
                 (mkRow 18262 (Some " Delhi"%string) (fin 100) 2020 1 1)
                 " delhi ").
  { exists " Delhi"%string. split; [reflexivity |].
    exists "Delhi"%string, "delhi"%string. split; [| split].
    - exact (@trimmed_between " " "Delhi" EmptyString "D" "i" "elhi" "Delh"
               Hblank blank_empty eq_refl eq_refl Hfirst_D Hlast_i).
    - exact (@trimmed_between " " "delhi" " " "d" "i" "elhi" "delh"
               Hblank Hblank eq_refl eq_refl Hfirst_d Hlast_i).
    - constructor; [right; left; vm_compute; tauto |].
      repeat (constructor; [left; reflexivity |]). constructor. }
  split; [exact Hm |].
  apply (proj2 (@city_filter_spec (Some spaced_city_file) empty_state
                  (snd (load_full_dataset (Some spaced_city_file) empty_state))
                  0%nat (normalize spaced_city_file) " delhi "%string
                  eq_refl eq_refl (normalize_canonical spaced_city_file)
                  ltac:(discriminate) ltac:(discriminate))).
  exists (mkRow 18262 (Some " Delhi"%string) (fin 100) 2020 1 1).
  split; [left; reflexivity | exact Hm].
Defined.

(* ================================================================= *)
(** * The civil calendar *)

Section CalendarFacts.
Local Open Scope Z_scope.

Lemma year_of_era_spec (doe : Z) :
  0 <= doe < 146097 ->
  0 <= year_of_era doe <= 399 /\
  year_start (year_of_era doe) <= doe /\
  (doe < year_start (year_of_era doe + 1) \/ year_of_era doe = 399).
Proof.
  intros H. unfold year_of_era, year_start.
  Z.div_mod_to_equations; lia.
Qed.

Lemma year_start_mono (a b : Z) :
  0 <= a <= b -> year_start a <= year_start b.
Proof. intros H. unfold year_start. Z.div_mod_to_equations; lia. Qed.

Lemma year_start_step (a : Z) :
  0 <= a -> year_start a + 365 <= year_start (a + 1) <= year_start a + 366.
Proof. intros H. unfold year_start. Z.div_mod_to_equations; lia. Qed.

Lemma year_of_era_unique (doe y : Z) :
  0 <= doe < 146097 -> 0 <= y <= 399 ->
  year_start y <= doe -> (doe < year_start (y + 1) \/ y = 399) ->
  year_of_era doe = y.
Proof.
  intros Hd Hy Hlo Hhi.
  destruct (@year_of_era_spec doe Hd) as (Hr & Hlo' & Hhi').
  set (y1 := year_of_era doe) in *.
  destruct (Z.lt_trichotomy y1 y) as [Hlt | [Heq | Hgt]]; [| exact Heq |].
  - exfalso. destruct Hhi' as [Hhi' | E]; [| lia].
    pose proof (@year_start_mono (y1 + 1) y). lia.
  - exfalso. destruct Hhi as [Hhi | E]; [| lia].
    pose proof (@year_start_mono (y + 1) y1). lia.
Qed.

Lemma month_index_range (doy : Z) :
  0 <= doy <= 365 ->
  0 <= (5 * doy + 2) / 153 <= 11
  /\ (153 * ((5 * doy + 2) / 153) + 2) / 5 <= doy.
Proof. intros H. Z.div_mod_to_equations; lia. Qed.

Lemma month_start_roundtrip (mp : Z) :
  0 <= mp <= 11 ->
  (5 * ((153 * mp + 2) / 5) + 2) / 153 = mp /\ 0 <= (153 * mp + 2) / 5 <= 337.
Proof. intros H. Z.div_mod_to_equations; lia. Qed.

(** The first day of the month of any date [z] is a date of the same year
    and month, with day 1. *)
Lemma civil_first_of_month (z : Z) :
  1 <= dt_month z <= 12 /\
  civil_from_days (days_from_civil (dt_year z) (dt_month z) 1)
  = (dt_year z, dt_month z, 1).
Proof.
  unfold dt_year, dt_month.
  unfold civil_from_days at 1 2 3 4 5. cbn [fst snd].
  set (z' := z + 719468).
  set (era := z' / 146097).
  set (doe := z' - era * 146097).
  assert (Hdoe : 0 <= doe < 146097).
  { unfold doe, era. Z.div_mod_to_equations; lia. }
  destruct (@year_of_era_spec doe Hdoe) as (Hy & Hlo & Hhi).
  set (yoe := year_of_era doe) in *.
  set (doy := doe - year_start yoe).
  assert (Hdoy : 0 <= doy <= 365).
  { unfold doy. pose proof (@year_start_step yoe).
    assert (year_start 399 = 145731) by reflexivity.
    destruct Hhi as [Hhi | E]; [lia | rewrite E in *; lia]. }
  destruct (@month_index_range doy Hdoy) as [Hmp Hms].
  set (mp := (5 * doy + 2) / 153) in *.
  destruct (@month_start_roundtrip mp Hmp) as [Hrt Hms'].
  set (ms := (153 * mp + 2) / 5) in *.
  set (m := if mp <? 10 then mp + 3 else mp - 9).
  assert (Hm : 1 <= m <= 12) by (unfold m; destruct (Z.ltb_spec mp 10); lia).
  split; [exact Hm |].
  set (y := if m <=? 2 then yoe + era * 400 + 1 else yoe + era * 400).
  assert (Hy' : (if m <=? 2 then y - 1 else y) = yoe + era * 400).
  { unfold y. destruct (m <=? 2); lia. }
  assert (Hmp' : (if 2 <? m then m - 3 else m + 9) = mp).
  { unfold m. destruct (Z.ltb_spec mp 10) as [H1 | H1];
      [destruct (Z.ltb_spec 2 (mp + 3)) | destruct (Z.ltb_spec 2 (mp - 9))];
      lia. }
  assert (Hdays : days_from_civil y m 1
                  = era * 146097 + (year_start yoe + ms) - 719468).
  { unfold days_from_civil. rewrite Hy', Hmp'. fold ms.
    assert (E : (yoe + era * 400) / 400 = era)
      by (Z.div_mod_to_equations; lia).
    rewrite E.
    replace (yoe + era * 400 - era * 400) with yoe by lia.
    unfold year_start. lia. }
  rewrite Hdays. unfold civil_from_days.
  set (doe1 := year_start yoe + ms).
  assert (Hdoe1 : 0 <= doe1 <= doe).
  { unfold doe1. pose proof (@year_start_mono 0 yoe).
    assert (year_start 0 = 0) by reflexivity. unfold doy in Hms. lia. }
  assert (Ez : era * 146097 + doe1 - 719468 + 719468 = era * 146097 + doe1)
    by lia.
  rewrite Ez.
  assert (Eera : (era * 146097 + doe1) / 146097 = era)
    by (Z.div_mod_to_equations; lia).
  rewrite Eera.
  assert (Edoe : era * 146097 + doe1 - era * 146097 = doe1) by lia.
  rewrite Edoe.
  assert (Eyoe : year_of_era doe1 = yoe).
  { apply year_of_era_unique; [lia | lia | unfold doe1; lia |].
    destruct Hhi as [Hhi | E]; [left; lia | right; exact E]. }
  rewrite Eyoe.
  assert (Edoy : doe1 - year_start yoe = ms) by (unfold doe1; lia).
  rewrite Edoy, Hrt. fold ms. fold m. fold y.
  f_equal. lia.
Qed.

Lemma first_of_month_year_month (z : Z) :
  year_month (days_from_civil (dt_year z) (dt_month z) 1) = year_month z
  /\ dt_day (days_from_civil (dt_year z) (dt_month z) 1) = 1.
Proof.
  destruct (civil_first_of_month z) as [_ H].
  set (d := days_from_civil (dt_year z) (dt_month z) 1) in *.
  unfold year_month. unfold dt_year at 1, dt_month at 1, dt_day.
  rewrite H. split; reflexivity.
Qed.

End CalendarFacts.

(* ================================================================= *)
(** * Aggregator: the claims *)

Lemma pair_eqb_eq (a b : Z * Z) : pair_eqb a b = true <-> a = b.
Proof.
  unfold pair_eqb. destruct a as [a1 a2], b as [b1 b2]. cbn [fst snd].
  rewrite andb_true_iff, !Z.eqb_eq. split.
  - intros [-> ->]. reflexivity.
  - intros E. injection E as -> ->. split; reflexivity.
Qed.

Lemma pair_eqb_refl (a : Z * Z) : pair_eqb a a = true.
Proof. now apply pair_eqb_eq. Qed.

Lemma filter_map_commute {A B : Type} (f : B -> bool) (g : A -> B)
    (l : list A) :
  filter f (map g l) = map g (filter (fun a => f (g a)) l).
Proof.
  induction l as [| a l IH]; simpl; [reflexivity |].
  destruct (f (g a)); simpl; now rewrite IH.
Qed.

Lemma with_year_month_keys (rows : list row) :
  map (fun r => (year r, month r)) (with_year_month rows)
  = map (fun r => year_month (date r)) rows.
Proof. unfold with_year_month. rewrite map_map. reflexivity. Qed.

Lemma with_year_month_group (rows : list row) (k : Z * Z) :
  map aqi (filter (fun r => pair_eqb (year r, month r) k)
                  (with_year_month rows))
  = map aqi (filter (fun r => pair_eqb (year_month (date r)) k) rows).
Proof.
  unfold with_year_month.
  rewrite (filter_map_commute (fun r => pair_eqb (year r, month r) k)).
  rewrite map_map. reflexivity.
Qed.

(** The keys of the monthly groups. *)
Lemma month_keys_in (rows : list row) (k : Z * Z) :
  In k (sort_by pair_leb (drop_duplicates pair_eqb
          (map (fun r => (year r, month r)) (with_year_month rows))))
  <-> exists r, In r rows /\ year_month (date r) = k.
Proof.
  rewrite sort_by_in, with_year_month_keys.
  rewrite (drop_duplicates_in pair_eqb pair_eqb_refl
             (fun x y H => proj1 (pair_eqb_eq x y) H)).
  rewrite in_map_iff. split; intros [r [H1 H2]]; exists r; tauto.
Qed.

Lemma month_keys_nodup (rows : list row) :
  NoDup (sort_by pair_leb (drop_duplicates pair_eqb
           (map (fun r => (year r, month r)) (with_year_month rows)))).
Proof.
  eapply Permutation_NoDup.
  - apply Permutation_sym, sort_by_perm.
  - apply drop_duplicates_nodup, pair_eqb_refl.
Qed.

Lemma series_mean_dropna (l : list float) :
  dropna l <> [] -> series_mean l = fin (Spec.mean (dropna l)).
Proof.
  intros H. unfold series_mean, Spec.mean.
  destruct (dropna l); [congruence | reflexivity].
Qed.

Lemma dropna_full (l : list float) :
  Forall (fun a => a <> NaN) l -> map fin (dropna l) = l.
Proof.
  induction 1 as [| a l Ha _ IH]; [reflexivity |].
  destruct a as [x |]; [| now contradiction Ha].
  simpl. unfold fin at 1. f_equal. exact IH.
Qed.

(** On a table without missing AQI the values of a month are all the AQI
    cells of the month's rows. *)
Lemma month_values_all (rows : list row) (ym : Z * Z) :
  canonical rows ->
  map fin (month_values rows ym)
  = map aqi (filter (fun r => pair_eqb (year_month (date r)) ym) rows).
Proof.
  intros H. unfold month_values. apply dropna_full.
  apply canonical_map_aqi, filter_canonical, H.
Qed.

(** The table built by lines 202-212 is the monthly series of the rows. *)
Lemma monthly_table_spec (rows : list row) :
  canonical rows ->
  is_monthly_series rows (monthly_table (with_year_month rows)).
Proof.
  intros Hcan. unfold is_monthly_series, monthly_table, groupby_mean.
  set (keys := sort_by pair_leb (drop_duplicates pair_eqb
                 (map (fun r => (year r, month r)) (with_year_month rows)))).
  rewrite map_map. cbn [fst snd].
  set (entry := fun k : Z * Z =>
                  (days_from_civil (fst k) (snd k) 1,
                   series_mean (map aqi (filter
                     (fun r => pair_eqb (year r, month r) k)
                     (with_year_month rows))))).
  assert (Hperm : Permutation (sort_by series_leb (map entry keys))
                              (map entry keys)) by apply sort_by_perm.
  assert (Hkey : forall k, In k keys ->
                   year_month (fst (entry k)) = k /\ dt_day (fst (entry k)) = 1%Z).
  { intros k Hk. apply month_keys_in in Hk. destruct Hk as [r [_ <-]].
    unfold entry. cbn [fst]. unfold year_month at 2 3. cbn [fst snd].
    apply first_of_month_year_month. }
  assert (Hin : forall e, In e (sort_by series_leb (map entry keys)) <->
                          exists k, In k keys /\ e = entry k).
  { intros e. rewrite sort_by_in, in_map_iff.
    split; intros [k [H1 H2]]; exists k; auto. }
  split; [| split; [| split]].
  - apply (sort_by_key_sorted (@fst Z float)).
  - eapply Permutation_NoDup.
    + apply Permutation_sym, Permutation_map, Hperm.
    + rewrite map_map.
      rewrite (map_ext_in (fun k => year_month (fst (entry k))) (fun k => k)).
      * rewrite map_id. apply month_keys_nodup.
      * intros k Hk. apply (Hkey k Hk).
  - intros r Hr.
    assert (Hk : In (year_month (date r)) keys)
      by (apply month_keys_in; eauto).
    exists (entry (year_month (date r))). split.
    + apply Hin. eauto.
    + apply (Hkey _ Hk).
  - intros e He. apply Hin in He. destruct He as [k [Hk ->]].
    destruct (Hkey k Hk) as [Hym Hday].
    split; [exact Hday |]. rewrite Hym. split.
    + apply month_keys_in in Hk. exact Hk.
    + unfold entry. cbn [snd]. rewrite with_year_month_group.
      apply series_mean_dropna.
      apply month_keys_in in Hk. destruct Hk as [r [Hr Hrk]].
      intros E.
      assert (Hv : In (aqi r) (map aqi (filter
                 (fun r0 => pair_eqb (year_month (date r0)) k) rows))).
      { apply in_map, filter_In. split; [exact Hr |]. now apply pair_eqb_eq. }
      unfold canonical in Hcan. rewrite Forall_forall in Hcan.
      specialize (Hcan r Hr). destruct (aqi r) as [x |] eqn:Ea;
        [| now contradiction Hcan].
      apply dropna_in in Hv. rewrite E in Hv. contradiction.
Qed.

Lemma calculate_daily_aqi_eq (df : nat) (s : state) (rows : list row) :
  deref df s = Some (Records rows) ->
  calculate_daily_aqi df s
  = (Ok (length (heap s)), snd (alloc (Series (daily_table rows)) s)).
Proof. intros H. unfold calculate_daily_aqi. now rewrite H. Qed.

Lemma calculate_monthly_aqi_eq (df : nat) (s : state) (rows : list row) :
  deref df s = Some (Records rows) ->
  calculate_monthly_aqi df s
  = (Ok (S (length (heap s))),
     snd (alloc (Series (monthly_table (with_year_month rows)))
                (store (length (heap s)) (Records (with_year_month rows))
                       (snd (alloc (Records rows) s))))).
Proof.
  intros H. unfold calculate_monthly_aqi. rewrite H.
  pose proof (deref_alloc_new (Records rows) s) as Hnew.
  unfold alloc in *. cbn [fst snd] in *.
  rewrite (@deref_store_same _ (Records (with_year_month rows)) _ _ Hnew).
  cbn [heap store]. rewrite length_replace_nth, length_app. cbn [length].
  f_equal. f_equal. lia.
Qed.

Lemma length_heap_alloc (f : frame) (s : state) :
  length (heap (snd (alloc f s))) = S (length (heap s)).
Proof. unfold alloc. cbn [snd heap]. rewrite length_app. simpl. lia. Qed.

Lemma length_heap_store (l : nat) (f : frame) (s : state) :
  length (heap (store l f s)) = length (heap s).
Proof. unfold store. cbn [heap]. apply length_replace_nth. Qed.

Lemma daily_repeatable (df : nat) (s : state) (rows : list row) :
  deref df s = Some (Records rows) -> repeatable calculate_daily_aqi df s.
Proof.
  intros H. unfold repeatable.
  set (t := daily_table rows).
  set (s1 := snd (alloc (Series t) s)).
  assert (H1 : deref df s1 = Some (Records rows)) by now apply deref_alloc_old.
  set (s2 := snd (alloc (Series t) s1)).
  exists (length (heap s)), (length (heap s1)), s1, s2, t.
  split; [exact (@calculate_daily_aqi_eq df s rows H) |].
  split; [exact (@calculate_daily_aqi_eq df s1 rows H1) |].
  assert (Ho1 : deref (length (heap s)) s1 = Some (Series t))
    by apply (deref_alloc_new (Series t) s).
  split; [exact Ho1 |].
  split; [apply (deref_alloc_new (Series t) s1) |].
  split; [now apply deref_alloc_old |].
  split; [reflexivity |].
  intros l f Hl. now apply deref_alloc_old, deref_alloc_old.
Qed.

Lemma monthly_call (df : nat) (s : state) (rows : list row) :
  deref df s = Some (Records rows) ->
  exists s1,
    calculate_monthly_aqi df s = (Ok (S (length (heap s))), s1)
    /\ deref (S (length (heap s))) s1
       = Some (Series (monthly_table (with_year_month rows)))
    /\ _data_cache s1 = _data_cache s
    /\ length (heap s1) = S (S (length (heap s)))
    /\ (forall l f, deref l s = Some f -> deref l s1 = Some f).
Proof.
  intros H. eexists. split; [exact (@calculate_monthly_aqi_eq df s rows H) |].
  set (sa := snd (alloc (Records rows) s)).
  set (sb := store (length (heap s)) (Records (with_year_month rows)) sa).
  assert (Hlen : length (heap sb) = S (length (heap s))).
  { unfold sb. rewrite length_heap_store. apply length_heap_alloc. }
  split.
  { pose proof (deref_alloc_new
                  (Series (monthly_table (with_year_month rows))) sb) as Hn.
    unfold alloc at 1 in Hn. cbn [fst] in Hn. now rewrite Hlen in Hn. }
  split; [reflexivity |].
  split; [rewrite length_heap_alloc, Hlen; reflexivity |].
  intros l f Hl. pose proof (deref_lt _ _ Hl) as Hlt.
  apply deref_alloc_old. unfold sb.
  rewrite deref_store_other by lia. now apply deref_alloc_old.
Qed.

Lemma monthly_repeatable (df : nat) (s : state) (rows : list row) :
  deref df s = Some (Records rows) -> repeatable calculate_monthly_aqi df s.
Proof.
  intros H. unfold repeatable.
  destruct (monthly_call df s H) as (s1 & Hc1 & Ho1 & Hk1 & Hl1 & Hf1).
  destruct (monthly_call df s1 (Hf1 _ _ H))
    as (s2 & Hc2 & Ho2 & Hk2 & Hl2 & Hf2).
  exists (S (length (heap s))), (S (length (heap s1))), s1, s2,
         (monthly_table (with_year_month rows)).
  split; [exact Hc1 |]. split; [exact Hc2 |]. split; [exact Ho1 |].
  split; [exact Ho2 |]. split; [now apply Hf2 |].
  split; [congruence |].
  intros l f Hl. now apply Hf2, Hf1.
Qed.

(** C8.  For every prepared table (no missing AQI), [calculate_monthly_aqi]
    returns a table with exactly one entry per (year, month) that occurs in
    the table; the entry's AQI is the arithmetic mean of the month's values,
    its date is the first of the month, and the entries are in ascending
    order of date. *)
Theorem monthly_aggregation_spec (df : nat) (s : state) (rows : list row) :
  deref df s = Some (Records rows) -> canonical rows ->
  exists (out : nat) (s' : state) (t : series),
    calculate_monthly_aqi df s = (Ok out, s')
    /\ deref out s' = Some (Series t)
    /\ is_monthly_series rows t
    /\ (forall ym, map fin (month_values rows ym)
                   = map aqi (filter (fun r => pair_eqb (year_month (date r)) ym)
                                     rows)).
Proof.
  intros H Hcan.
  destruct (monthly_call df s H) as (s1 & Hc1 & Ho1 & _).
  exists (S (length (heap s))), s1, (monthly_table (with_year_month rows)).
  split; [exact Hc1 |]. split; [exact Ho1 |].
  split; [now apply monthly_table_spec |].
  intros ym. now apply month_values_all.
Qed.

Lemma monthly_aggregation_spec_witness :
  exists (out : nat) (s' : state) (t : series),
    calculate_monthly_aqi 0 state_after_load = (Ok out, s')
    /\ deref out s' = Some (Series t)
    /\ is_monthly_series (normalize blank_city_file) t
    /\ (forall ym, map fin (month_values (normalize blank_city_file) ym)
                   = map aqi (filter (fun r => pair_eqb (year_month (date r)) ym)
                                     (normalize blank_city_file))).
Proof.
  apply (@monthly_aggregation_spec 0%nat state_after_load
           (normalize blank_city_file)).
  - reflexivity.
  - unfold canonical. repeat constructor; discriminate.
Defined.

(** C9.  The aggregator is pure: for a prepared table at [df], calling the
    daily or the monthly aggregation twice gives two tables with identical
    content, and the calls change neither the input table, nor any other
    DataFrame that existed before, nor the cache. *)
Theorem aggregator_is_pure (df : nat) (s : state) (rows : list row) :
  deref df s = Some (Records rows) ->
  repeatable calculate_daily_aqi df s
  /\ repeatable calculate_monthly_aqi df s.
Proof.
  intros H. split; [now apply (daily_repeatable df s (rows := rows))
                   | now apply (monthly_repeatable df s (rows := rows))].
Qed.

Lemma aggregator_is_pure_witness :
  repeatable calculate_daily_aqi 0 state_after_load
  /\ repeatable calculate_monthly_aqi 0 state_after_load.
Proof.
  apply (@aggregator_is_pure 0%nat state_after_load
           (normalize blank_city_file)).
  reflexivity.
Defined.

(* ================================================================= *)
(** * Further properties of the loader and the preparer *)

Lemma load_full_dataset_facts (file : option csv) (s s1 : state) (l0 : nat) :
  load_full_dataset file s = (Some l0, s1) ->
  _data_cache s1 = Some l0
  /\ (length (heap s) <= length (heap s1))%nat
  /\ (forall l f, deref l s = Some f -> deref l s1 = Some f)
  /\ (_data_cache s = None -> deref l0 s = None).
Proof.
  unfold load_full_dataset. destruct (_data_cache s) as [l |] eqn:Ec.
  - intros H. injection H as <- <-. repeat split; auto. discriminate.
  - destruct file as [f |]; [| discriminate].
    unfold alloc. intros H. injection H as <- <-. cbn [heap _data_cache].
    split; [reflexivity |]. split; [rewrite length_app; lia |].
    split.
    + intros l g Hl. apply (deref_alloc_old (Records (normalize f)) _ _ Hl).
    + intros _. unfold deref. apply nth_error_None. lia.
Qed.

Lemma length_fill_column (rows : list row) :
  length (bfill (group_ffill [] rows)) = length rows.
Proof.
  rewrite bfill_length. generalize (@nil (string * R)).
  induction rows as [| r rows IH]; intros last; [reflexivity |].
  simpl. destruct (city r) as [c |]; [destruct (aqi r) as [v |] |];
    try (destruct (find _ last)); simpl; now rewrite IH.
Qed.

Lemma map_row_key_assign (rows : list row) (col : list float) :
  length col = length rows ->
  map row_key (assign_aqi rows col) = map row_key rows.
Proof.
  unfold assign_aqi. revert col.
  induction rows as [| r rows IH]; intros [| a col] H; simpl in *;
    try reflexivity; try discriminate.
  f_equal. apply IH. lia.
Qed.

Lemma length_assign_aqi (rows : list row) (col : list float) :
  length col = length rows -> length (assign_aqi rows col) = length rows.
Proof.
  intros H. unfold assign_aqi. rewrite length_map, length_combine. lia.
Qed.

Lemma fill_missing_keys (rows : list row) :
  map row_key (fill_missing rows) = map row_key rows.
Proof.
  unfold fill_missing.
  rewrite map_row_key_assign.
  - apply map_row_key_assign, length_fill_column.
  - unfold fillna. rewrite !length_map. reflexivity.
Qed.

Lemma same_city_date_key (a b : row) :
  same_city_date a b = true <-> row_key a = row_key b.
Proof.
  unfold row_key. split.
  - intros H. apply same_city_date_eq in H. destruct H as [-> ->]. reflexivity.
  - intros H. injection H as Hc Hd. unfold same_city_date.
    rewrite Hc, Hd, Z.eqb_refl, andb_true_r.
    destruct (city b); simpl; [apply String.eqb_refl | reflexivity].
Qed.

Lemma existsb_false_all {A : Type} (f : A -> bool) (l : list A) (y : A) :
  existsb f l = false -> In y l -> f y = false.
Proof.
  intros H Hy. destruct (f y) eqn:E; [| reflexivity].
  assert (existsb f l = true) by (apply existsb_exists; eauto). congruence.
Qed.

Lemma drop_dups_from_key_nodup {A K : Type} (same : A -> A -> bool)
    (key : A -> K) (seen l : list A) :
  (forall a b, same a b = true <-> key a = key b) ->
  NoDup (map key (drop_dups_from same seen l)).
Proof.
  intros Hk. revert seen. induction l as [| x l IH]; intros seen; simpl;
    [constructor |].
  destruct (existsb (same x) seen); [apply IH |].
  simpl. constructor; [| apply IH].
  intros Hin. apply in_map_iff in Hin. destruct Hin as [y [Hy Hin]].
  apply drop_dups_from_unseen in Hin.
  apply (existsb_false_all _ _ x) in Hin; [| now left].
  assert (same y x = true) by now apply Hk. congruence.
Qed.

Lemma dedup_sort_keys_nodup (rows : list row) :
  NoDup (map row_key (dedup_sort rows)).
Proof.
  unfold dedup_sort.
  eapply Permutation_NoDup.
  - apply Permutation_map, Permutation_sym, sort_by_perm.
  - apply drop_dups_from_key_nodup. apply same_city_date_key.
Qed.

Lemma dedup_sort_sorted (rows : list row) :
  StronglySorted (key_le date) (dedup_sort rows).
Proof. unfold dedup_sort, date_leb. apply sort_by_key_sorted. Qed.

(** What a successful call of the preparer has done. *)
Lemma prepare_inversion (file : option csv) (city_arg : option string)
    (s s' : state) (out : nat) :
  load_and_preprocess_data file city_arg s = (inr out, s') ->
  exists (l0 : nat) (s1 : state) (table : list row),
    load_full_dataset file s = (Some l0, s1)
    /\ deref l0 s1 = Some (Records table)
    /\ deref out s'
       = Some (Records (dedup_sort (fill_missing
            (if city_filter_applies city_arg
             then filter (city_mask (city_text city_arg)) table
             else table))))
    /\ (length (heap s1) <= out)%nat
    /\ _data_cache s' = _data_cache s1.
Proof.
  intros H.
  destruct (load_full_dataset file s) as [[l0 |] s1] eqn:Hload.
  2:{ unfold load_and_preprocess_data in H. rewrite Hload in H. discriminate. }
  destruct (deref l0 s1) as [[table | pts] |] eqn:Hd.
  2,3: unfold load_and_preprocess_data in H; rewrite Hload, Hd in H;
       discriminate.
  exists l0, s1, table. split; [reflexivity |]. split; [exact Hd |].
  destruct (city_filter_applies city_arg) eqn:Hf.
  - rewrite (prepare_filtered file city_arg s Hload Hd Hf) in H.
    cbv zeta in H.
    destruct (length (filter (city_mask (city_text city_arg)) table) =? 0)%nat;
      [discriminate |].
    pose proof (f_equal fst H) as Ho. pose proof (f_equal snd H) as Hs.
    cbn [fst snd] in Ho, Hs. injection Ho as <-. subst s'.
    split; [exact (deref_alloc_new _ _) |].
    split; [| reflexivity].
    unfold store, alloc. cbn [heap snd].
    rewrite ?length_replace_nth, ?length_app. cbn [length]. lia.
  - rewrite (prepare_unfiltered file city_arg s Hload Hd Hf) in H.
    cbv zeta in H.
    pose proof (f_equal fst H) as Ho. pose proof (f_equal snd H) as Hs.
    cbn [fst snd] in Ho, Hs. injection Ho as <-. subst s'.
    split; [exact (deref_alloc_new _ _) |].
    split; [| reflexivity].
    unfold store. cbn [heap].
    rewrite ?length_replace_nth. lia.
Qed.



(** X2.  Every table the preparer returns is sorted by date in ascending
    order and has no two rows with the same (city, date). *)
Theorem prepared_table_sorted_unique (file : option csv)
    (city_arg : option string) (s s' : state) (out : nat) :
  load_and_preprocess_data file city_arg s = (inr out, s') ->
  exists rows,
    deref out s' = Some (Records rows)
    /\ StronglySorted (key_le date) rows
    /\ NoDup (map row_key rows).
Proof.
  intros H.
  destruct (prepare_inversion _ _ _ H) as (l0 & s1 & table & _ & _ & Ho & _).
  eexists. split; [exact Ho |].
  split; [apply dedup_sort_sorted | apply dedup_sort_keys_nodup].
Qed.

Lemma prepared_table_sorted_unique_witness :
  load_and_preprocess_data (Some blank_city_file) None empty_state
  = (inr 1%nat, state_after_prepare)
  /\ exists rows,
       deref 1 state_after_prepare = Some (Records rows)
       /\ StronglySorted (key_le date) rows
       /\ NoDup (map row_key rows).
Proof.
  assert (H : load_and_preprocess_data (Some blank_city_file) None empty_state
              = (inr 1%nat, state_after_prepare)) by reflexivity.
  split; [exact H |].
  exact (@prepared_table_sorted_unique _ _ _ _ _ H).
Defined.

(** X3.  The table the preparer returns is a new DataFrame: its address was
    not allocated before the call and it is not the cached DataFrame; the
    call does not change which DataFrame is cached once the dataset is
    loaded. *)
Theorem prepared_table_is_fresh (file : option csv) (city_arg : option string)
    (s s' : state) (out : nat) :
  load_and_preprocess_data file city_arg s = (inr out, s') ->
  deref out s = None
  /\ _data_cache s' <> Some out
  /\ (forall l, _data_cache s = Some l -> _data_cache s' = Some l).
Proof.
  intros H.
  destruct (prepare_inversion _ _ _ H)
    as (l0 & s1 & table & Hload & Hd & _ & Hge & Hc).
  destruct (load_full_dataset_facts _ _ Hload) as (Hc1 & Hlen & _ & _).
  split; [| split].
  - unfold deref. apply nth_error_None. lia.
  - rewrite Hc, Hc1. intros E. injection E as E.
    apply deref_lt in Hd. lia.
  - intros l Hl. rewrite Hc.
    rewrite (load_full_dataset_cached file s Hl) in Hload.
    injection Hload as <- <-. exact Hl.
Qed.

Lemma prepared_table_is_fresh_witness :
  load_and_preprocess_data (Some blank_city_file) None state_after_load
  = (inr 1%nat, state_after_prepare)
  /\ deref 1 state_after_load = None
  /\ _data_cache state_after_prepare <> Some 1%nat
  /\ (forall l, _data_cache state_after_load = Some l ->
                _data_cache state_after_prepare = Some l).
Proof.
  assert (H : load_and_preprocess_data (Some blank_city_file) None
                                       state_after_load
              = (inr 1%nat, state_after_prepare)) by reflexivity.
  split; [exact H |].
  exact (@prepared_table_is_fresh _ _ _ _ _ H).
Defined.

Lemma group_ffill_own (last : list (string * R)) (rows : list row) (r : row)
    (c : string) (v : R) :
  In r rows -> city r = Some c -> aqi r = fin v ->
  In (fin v) (group_ffill last rows).
Proof.
  revert last. induction rows as [| r0 rows IH]; intros last Hin Hc Ha;
    [contradiction |].
  destruct Hin as [-> | Hin].
  - simpl. rewrite Hc, Ha. left. reflexivity.
  - simpl. destruct (city r0) as [c0 |]; [destruct (aqi r0) as [v0 |] |];
      try (destruct (find _ last)); right; now apply IH.
Qed.

Lemma bfill_keeps_numbers (l : list float) (v : R) :
  In (fin v) l -> In (fin v) (bfill l).
Proof.
  induction l as [| a l IH]; intros H; [contradiction |].
  simpl. destruct H as [-> | H].
  - left. reflexivity.
  - destruct a; right; now apply IH.
Qed.

Lemma fillna_no_nan (m : R) (l : list float) :
  Forall (fun a => a <> NaN) (fillna (fin m) l).
Proof.
  unfold fillna. apply Forall_forall. intros a Ha.
  apply in_map_iff in Ha. destruct Ha as [b [<- _]].
  destruct b; simpl; discriminate.
Qed.

(** The three fill steps leave no missing AQI as soon as one row has a city
    label and an AQI. *)
Lemma fill_missing_no_nan (rows : list row) :
  (exists r, In r rows /\ city r <> None /\ aqi r <> NaN) ->
  canonical (fill_missing rows).
Proof.
  intros [r [Hr [Hc Ha]]].
  destruct (city r) as [c |] eqn:Ec; [| congruence].
  destruct (aqi r) as [v |] eqn:Ea; [| now contradiction Ha].
  unfold fill_missing.
  set (col1 := bfill (group_ffill [] rows)).
  assert (Hlen1 : length col1 = length rows) by apply length_fill_column.
  assert (Hv : In (fin v) col1).
  { unfold col1. apply bfill_keeps_numbers.
    now apply (group_ffill_own [] rows r Hr Ec). }
  rewrite (map_aqi_assign rows col1 Hlen1).
  destruct (series_mean_defined col1 v Hv) as [m Hm]. rewrite Hm.
  unfold canonical.
  apply (proj1 (@Forall_map _ _ aqi (fun a => a <> NaN) _)).
  rewrite map_aqi_assign.
  - apply fillna_no_nan.
  - unfold fillna. now rewrite length_map, length_assign_aqi.
Qed.

Lemma dedup_sort_canonical (rows : list row) :
  canonical rows -> canonical (dedup_sort rows).
Proof.
  unfold canonical. rewrite !Forall_forall. intros H r Hr.
  apply H. now apply dedup_sort_subset.
Qed.

(** X4.  Gap filling is complete: if the rows the preparer works on (the
    table, or with a city filter its matching rows) contain one row with a
    city label and an AQI, the call succeeds and the table it returns has no
    missing AQI, whatever was missing in the cached table. *)
Theorem prepare_fills_every_gap (file : option csv) (city_arg : option string)
    (s s1 : state) (l0 : nat) (table : list row) :
  load_full_dataset file s = (Some l0, s1) ->
  deref l0 s1 = Some (Records table) ->
  (exists r, In r table
             /\ (city_filter_applies city_arg = true ->
                 city_matches r (city_text city_arg))
             /\ city r <> None /\ aqi r <> NaN) ->
  exists (out : nat) (s' : state) (rows : list row),
    load_and_preprocess_data file city_arg s = (inr out, s')
    /\ deref out s' = Some (Records rows)
    /\ canonical rows.
Proof.
  intros Hload Hd [r (Hr & Hm & Hc & Ha)].
  destruct (city_filter_applies city_arg) eqn:Hf.
  - rewrite (prepare_filtered file city_arg s Hload Hd Hf). cbv zeta.
    set (kept := filter (city_mask (city_text city_arg)) table).
    assert (Hk : In r kept).
    { unfold kept. apply filter_In. split; [exact Hr |].
      apply city_mask_matches. now apply Hm. }
    destruct kept as [| r0 kept'] eqn:Ek; [contradiction |].
    cbn [length Nat.eqb]. rewrite <- Ek in *.
    eexists _, _, _. split; [reflexivity |].
    split; [exact (deref_alloc_new _ _) |].
    apply dedup_sort_canonical, fill_missing_no_nan. eauto.
  - rewrite (prepare_unfiltered file city_arg s Hload Hd Hf). cbv zeta.
    eexists _, _, _. split; [reflexivity |].
    split; [exact (deref_alloc_new _ _) |].
    apply dedup_sort_canonical, fill_missing_no_nan. eauto.
Qed.

Lemma prepare_fills_every_gap_witness :
  load_full_dataset (Some blank_city_file) empty_state
  = (Some 0%nat, state_after_load)
  /\ exists (out : nat) (s' : state) (rows : list row),
       load_and_preprocess_data (Some blank_city_file) None empty_state
       = (inr out, s')
       /\ deref out s' = Some (Records rows)
       /\ canonical rows.
Proof.
  split; [reflexivity |].
  apply (@prepare_fills_every_gap (Some blank_city_file) None empty_state
           state_after_load 0%nat (normalize blank_city_file)).
  - reflexivity.
  - reflexivity.
  - exists (mkRow 18262 (Some "Delhi"%string) (fin 100) 2020 1 1).
    split; [left; reflexivity |].
    split; [discriminate |].
    split; discriminate.
Defined.

(** X5.  With a city filter the preparer works on a copy: whether it
    succeeds or finds no row, every DataFrame that exists once the dataset is
    loaded, the cached one included, has the same content after the call. *)
Theorem prepare_with_filter_changes_no_frame (file : option csv)
    (wanted : string) (s s1 : state) (l0 : nat) (table : list row) :
  load_full_dataset file s = (Some l0, s1) ->
  deref l0 s1 = Some (Records table) ->
  wanted <> EmptyString -> wanted <> ALL_CITIES ->
  forall l f,
    deref l s1 = Some f ->
    deref l (snd (load_and_preprocess_data file (Some wanted) s)) = Some f.
Proof.
  intros Hload Hd Hne Hall l f Hl.
  exact (@prepare_filtered_keeps_frames file wanted s s1 l0 table l f
           Hload Hd Hne Hall Hl).
Qed.

Lemma prepare_with_filter_changes_no_frame_witness :
  load_full_dataset (Some blank_city_file) empty_state
  = (Some 0%nat, state_after_load)
  /\ forall l f,
       deref l state_after_load = Some f ->
       deref l (snd (load_and_preprocess_data (Some blank_city_file)
                       (Some "Mumbai"%string) empty_state))
       = Some f.
Proof.
  split; [reflexivity |].
  apply (@prepare_with_filter_changes_no_frame (Some blank_city_file)
           "Mumbai"%string empty_state state_after_load 0%nat
           (normalize blank_city_file)).
  - reflexivity.
  - reflexivity.
  - discriminate.
  - discriminate.
Defined.

(** X6.  Without a city filter the preparer assigns to the cached DataFrame,
    but when every cached row has a city label and an AQI the column it
    writes back is the column that was there: the cached content is the same
    after the call. *)
Theorem prepare_without_filter_keeps_labelled_cache (file : option csv)
    (s s1 : state) (l0 : nat) (table : list row) :
  load_full_dataset file s = (Some l0, s1) ->
  deref l0 s1 = Some (Records table) ->
  labelled table -> canonical table ->
  deref l0 (snd (load_and_preprocess_data file None s))
  = Some (Records table).
Proof.
  intros Hload Hd Hl Hc.
  exact (@prepare_unfiltered_labelled file s s1 l0 table Hload Hd Hl Hc).
Qed.

Lemma prepare_without_filter_keeps_labelled_cache_witness :
  deref 0 (snd (load_and_preprocess_data
                  (Some (mkCsv true
                     [mkRaw (Some 18262%Z) (Some "Delhi"%string) (fin 100);
                      mkRaw (Some 18263%Z) (Some "Delhi"%string) (fin 200)]))
                  None empty_state))
  = Some (Records
            [mkRow 18262 (Some "Delhi"%string) (fin 100) 2020 1 1;
             mkRow 18263 (Some "Delhi"%string) (fin 200) 2020 1 2]).
Proof.
  apply (@prepare_without_filter_keeps_labelled_cache
           (Some (mkCsv true
              [mkRaw (Some 18262%Z) (Some "Delhi"%string) (fin 100);
               mkRaw (Some 18263%Z) (Some "Delhi"%string) (fin 200)]))
           empty_state
           (snd (load_full_dataset
              (Some (mkCsv true
                 [mkRaw (Some 18262%Z) (Some "Delhi"%string) (fin 100);
                  mkRaw (Some 18263%Z) (Some "Delhi"%string) (fin 200)]))
              empty_state))
           0%nat).
  - reflexivity.
  - reflexivity.
  - unfold labelled. repeat constructor; discriminate.
  - unfold canonical. repeat constructor; discriminate.
Defined.

Section SortedTotal.

Variable A : Type.
Variable leb : A -> A -> bool.
Hypothesis leb_total : forall a b, leb a b = false -> leb b a = true.

Lemma insert_by_hdrel (y x : A) (l : list A) :
  HdRel (fun a b => leb a b = true) y l -> leb y x = true ->
  HdRel (fun a b => leb a b = true) y (insert_by leb x l).
Proof.
  intros Hh Hyx. destruct l as [| b l]; simpl.
  - constructor. exact Hyx.
  - destruct (leb x b); constructor; [exact Hyx |].
    now inversion Hh.
Qed.

Lemma insert_by_locally_sorted (x : A) (l : list A) :
  Sorted (fun a b => leb a b = true) l ->
  Sorted (fun a b => leb a b = true) (insert_by leb x l).
Proof.
  induction 1 as [| y l Hs IH Hh]; simpl.
  - constructor; constructor.
  - destruct (leb x y) eqn:E.
    + constructor; [constructor; assumption | constructor; exact E].
    + constructor; [exact IH |].
      apply insert_by_hdrel; [exact Hh | now apply leb_total].
Qed.

Lemma sort_by_locally_sorted (l : list A) :
  Sorted (fun a b => leb a b = true) (sort_by leb l).
Proof.
  induction l as [| x l IH]; simpl; [constructor |].
  now apply insert_by_locally_sorted.
Qed.

End SortedTotal.

Lemma city_date_leb_total (a b : row) :
  city_date_leb a b = false -> city_date_leb b a = true.
Proof.
  unfold city_date_leb.
  destruct (city a) as [x |], (city b) as [y |]; try discriminate;
    try reflexivity.
  - rewrite (String.compare_antisym y x).
    destruct (String.compare x y); simpl; try discriminate; [| reflexivity].
    intros H. apply Z.leb_gt in H. apply Z.leb_le. lia.
  - intros H. apply Z.leb_gt in H. apply Z.leb_le. lia.
Qed.

Lemma length_flat_map_complete (f : raw_row -> list row) (l : list raw_row) :
  (forall q, length (f q) = if complete q then 1%nat else 0%nat) ->
  length (flat_map f l) = length (filter complete l).
Proof.
  intros H. induction l as [| q l IH]; [reflexivity |].
  simpl. rewrite length_app, H, IH. destruct (complete q); reflexivity.
Qed.

(** X7.  The table the loader caches consists of exactly the rows of the
    file that have a date and an AQI, one row each, carrying the file's
    values, the label "All Cities" when the file has no city column, and the
    year, month and day of the date; no AQI is missing; the rows are in the
    order of [sort_values(['city', 'date'])]. *)
Theorem normalize_keeps_complete_rows (f : csv) :
  (forall r, In r (normalize f) <->
     exists q d v,
       In q (csv_rows f) /\ raw_date q = Some d /\ raw_aqi q = fin v
       /\ r = mkRow d (if has_city_column f then raw_city q
                       else Some ALL_CITIES)
                    (fin v) (dt_year d) (dt_month d) (dt_day d))
  /\ length (normalize f) = length (filter complete (csv_rows f))
  /\ canonical (normalize f)
  /\ Sorted (fun a b => city_date_leb a b = true) (normalize f).
Proof.
  split; [| split; [| split]].
  - intros r. unfold normalize. rewrite sort_by_in, in_flat_map. split.
    + intros [q [Hq Hr]].
      destruct (raw_date q) as [d |] eqn:Ed; [| contradiction].
      destruct (raw_aqi q) as [v |] eqn:Ev; [| contradiction].
      destruct Hr as [<- | []]. exists q, d, v. auto.
    + intros (q & d & v & Hq & Ed & Ev & ->). exists q.
      split; [exact Hq |]. rewrite Ed, Ev. left. reflexivity.
  - unfold normalize. rewrite sort_by_length.
    apply length_flat_map_complete. intros q. unfold complete.
    destruct (raw_date q), (raw_aqi q); reflexivity.
  - apply normalize_canonical.
  - unfold normalize. apply sort_by_locally_sorted, city_date_leb_total.
Qed.

(* ================================================================= *)
(** * Further properties of the aggregator *)

Lemma sorted_nodup_strict (l : list Z) :
  StronglySorted (key_le (fun z : Z => z)) l -> NoDup l ->
  StronglySorted Z.lt l.
Proof.
  induction 1 as [| x l Hs IH Hall]; intros Hnd; [constructor |].
  inversion Hnd as [| ? ? Hx Hnd']; subst.
  constructor; [now apply IH |].
  rewrite Forall_forall in *. intros y Hy.
  specialize (Hall y Hy). unfold key_le in Hall.
  assert (x <> y) by (intros ->; contradiction). lia.
Qed.

Lemma group_keys_strict {A : Type} (key : A -> Z) (l : list A) :
  StronglySorted Z.lt (sort_by Z.leb (drop_duplicates Z.eqb (map key l))).
Proof.
  apply sorted_nodup_strict.
  - change Z.leb with (key_leb (fun z : Z => z)).
    apply sort_by_key_sorted.
  - eapply Permutation_NoDup.
    + apply Permutation_sym, sort_by_perm.
    + apply drop_duplicates_nodup, Z.eqb_refl.
Qed.

Lemma groupby_mean_keys {A : Type} (key : A -> Z) (val : A -> float)
    (l : list A) :
  map fst (groupby_mean Z.eqb Z.leb key val l)
  = sort_by Z.leb (drop_duplicates Z.eqb (map key l)).
Proof.
  unfold groupby_mean. rewrite map_map. cbn [fst]. apply map_id.
Qed.

Lemma in_dropna (l : list float) (x : R) : In x (dropna l) <-> In (fin x) l.
Proof.
  split; [| apply dropna_in].
  unfold dropna. rewrite in_flat_map. intros [a [Ha Hx]].
  destruct a as [y |]; [| contradiction].
  destruct Hx as [-> | []]. exact Ha.
Qed.

(** The table built by [calculate_daily_aqi] is the daily series of the
    rows. *)
Lemma daily_table_spec (rows : list row) :
  canonical rows -> is_daily_series rows (daily_table rows).
Proof.
  intros Hcan. unfold is_daily_series, daily_table.
  rewrite groupby_mean_keys.
  split; [apply group_keys_strict |].
  split; [intros d; apply groupby_keys_in |].
  intros e He. unfold groupby_mean in He. apply in_map_iff in He.
  destruct He as [k [<- Hk]]. cbn [fst snd].
  apply series_mean_dropna.
  apply groupby_keys_in in Hk. destruct Hk as [r [Hr Hrk]].
  unfold canonical in Hcan. rewrite Forall_forall in Hcan.
  specialize (Hcan r Hr). destruct (aqi r) as [x |] eqn:Ea;
    [| now contradiction Hcan].
  intros E.
  assert (Hv : In x (dropna (map aqi (filter (fun r0 => (date r0 =? k)%Z)
                                             rows)))).
  { apply in_dropna. unfold fin. rewrite <- Ea. apply in_map, filter_In.
    split; [exact Hr | now apply Z.eqb_eq]. }
  rewrite E in Hv. contradiction.
Qed.

(** X8.  For a prepared table without missing AQI, [calculate_daily_aqi]
    returns a new table whose dates are strictly increasing (so unique), with
    one entry for every date that occurs in the table and no other, each
    holding the arithmetic mean of the readings of that date. *)
Theorem daily_aggregation_spec (df : nat) (s : state) (rows : list row) :
  deref df s = Some (Records rows) -> canonical rows ->
  exists (out : nat) (s' : state) (t : series),
    calculate_daily_aqi df s = (Ok out, s')
    /\ deref out s' = Some (Series t)
    /\ is_daily_series rows t
    /\ (forall d, map fin (date_values rows d)
                  = map aqi (filter (fun r => (date r =? d)%Z) rows)).
Proof.
  intros H Hcan.
  exists (length (heap s)), (snd (alloc (Series (daily_table rows)) s)),
         (daily_table rows).
  split; [exact (@calculate_daily_aqi_eq df s rows H) |].
  split; [exact (deref_alloc_new _ _) |].
  split; [now apply daily_table_spec |].
  intros d. unfold date_values. apply dropna_full.
  apply canonical_map_aqi, filter_canonical, Hcan.
Qed.

Lemma daily_aggregation_spec_witness :
  exists (out : nat) (s' : state) (t : series),
    calculate_daily_aqi 0 state_after_load = (Ok out, s')
    /\ deref out s' = Some (Series t)
    /\ is_daily_series (normalize blank_city_file) t
    /\ (forall d, map fin (date_values (normalize blank_city_file) d)
                  = map aqi (filter (fun r => (date r =? d)%Z)
                                    (normalize blank_city_file))).
Proof.
  apply (@daily_aggregation_spec 0%nat state_after_load
           (normalize blank_city_file)).
  - reflexivity.
  - apply normalize_canonical.
Defined.







(* ================================================================= *)
(** * Further properties of the forecast engine *)

(** ** Regularization *)

(** The sort is stable: the rows of one date keep their order. *)
Lemma filter_insert_by_key {A : Type} (key : A -> Z) (d : Z) (x : A)
    (l : list A) :
  filter (fun p => (key p =? d)%Z) (insert_by (key_leb key) x l)
  = if (key x =? d)%Z then x :: filter (fun p => (key p =? d)%Z) l
    else filter (fun p => (key p =? d)%Z) l.
Proof.
  induction l as [| y l IH]; simpl; [reflexivity |].
  unfold key_leb at 1. destruct (Z.leb_spec (key x) (key y)) as [Hle | Hgt].
  - reflexivity.
  - simpl. rewrite IH.
    destruct (Z.eqb_spec (key y) d) as [Ey | Ny];
      destruct (Z.eqb_spec (key x) d) as [Ex | Nx]; try reflexivity. lia.
Qed.

Lemma filter_sort_by_key {A : Type} (key : A -> Z) (d : Z) (l : list A) :
  filter (fun p => (key p =? d)%Z) (sort_by (key_leb key) l)
  = filter (fun p => (key p =? d)%Z) l.
Proof.
  induction l as [| x l IH]; simpl; [reflexivity |].
  rewrite filter_insert_by_key, IH. reflexivity.
Qed.

Lemma ffill_from_spec (l : list float) (prev : float) (i : nat) (v : float) :
  nth_error (ffill_from prev l) i = Some v ->
  (exists j x, (j <= i)%nat /\ nth_error l j = Some (fin x)
               /\ (forall k, (j < k <= i)%nat -> nth_error l k = Some NaN)
               /\ v = fin x)
  \/ ((forall k, (k <= i)%nat -> nth_error l k = Some NaN) /\ v = prev).
Proof.
  revert prev i. induction l as [| a l IH]; intros prev i H.
  - destruct i; discriminate.
  - destruct i as [| i].
    + destruct a as [x |]; simpl in H; injection H as <-.
      * left. exists 0%nat, x.
        split; [lia |]. split; [reflexivity |]. split; [| reflexivity].
        intros k Hk. lia.
      * right. split; [| reflexivity].
        intros k Hk. assert (k = 0%nat) by lia. subst. reflexivity.
    + assert (H' : nth_error (ffill_from (match a with Some x => Some x
                                           | None => prev end) l) i = Some v).
      { destruct a; exact H. }
      destruct (IH _ _ H') as [(j & x & Hj & Hx & Hk & Hv) | [Hk Hv]].
      * left. exists (S j), x.
        split; [lia |]. split; [exact Hx |]. split; [| exact Hv].
        intros k Hk'. destruct k as [| k]; [lia |]. simpl. apply Hk. lia.
      * destruct a as [x |].
        -- left. exists 0%nat, x.
           split; [lia |]. split; [reflexivity |]. split; [| exact Hv].
           intros k Hk'. destruct k as [| k]; [lia |]. simpl. apply Hk. lia.
        -- right. split; [| exact Hv].
           intros k Hk'. destruct k as [| k]; [reflexivity |].
           simpl. apply Hk. lia.
Qed.

Lemma nth_error_day_range (d0 d1 : Z) (i : nat) (d : Z) :
  nth_error (day_range d0 d1) i = Some d ->
  d = (d0 + Z.of_nat i)%Z /\ (i < Z.to_nat (d1 - d0 + 1))%nat.
Proof.
  intros H. unfold day_range in H.
  assert (Hi : (i < Z.to_nat (d1 - d0 + 1))%nat).
  { assert (Hl : (i < length (map (fun i => (d0 + Z.of_nat i)%Z)
                                  (seq 0 (Z.to_nat (d1 - d0 + 1)))))%nat)
      by (apply nth_error_Some; congruence).
    now rewrite length_map, length_seq in Hl. }
  split; [| exact Hi].
  rewrite nth_error_map, nth_error_seq in H.
  destruct (Nat.ltb_spec i (Z.to_nat (d1 - d0 + 1))) as [_ | Hge]; [| lia].
  cbn in H. injection H as <-. reflexivity.
Qed.

Lemma nth_error_combine {A B : Type} (l1 : list A) (l2 : list B) (a : A)
    (b : B) :
  In (a, b) (combine l1 l2) ->
  exists i, nth_error l1 i = Some a /\ nth_error l2 i = Some b.
Proof.
  revert l2. induction l1 as [| x l1 IH]; intros [| y l2] H; simpl in H;
    try contradiction.
  destruct H as [E | H].
  - injection E as -> ->. exists 0%nat. split; reflexivity.
  - destruct (IH _ H) as [i [H1 H2]]. exists (S i). split; assumption.
Qed.

Lemma series_mean_observed (l : list float) :
  series_mean l = match dropna l with
                  | [] => NaN
                  | _ :: _ => fin (Spec.mean (dropna l))
                  end.
Proof. unfold series_mean, Spec.mean. destruct (dropna l); reflexivity. Qed.

(** The regularized series of a table of numbers, before any naming of its
    values: the forward fill of the daily means over the grid of days. *)
Lemma regularize_unfold (df : series) :
  df <> [] -> no_nan df ->
  exists d0 d1 : Z,
    (d0 <= d1)%Z
    /\ observations df d0 <> []
    /\ regularize df
       = combine (day_range d0 d1)
           (ffill (map (fun d => series_mean
                                   (map snd (filter (fun p => (fst p =? d)%Z)
                                                    df)))
                       (day_range d0 d1))).
Proof.
  intros Hne Hnan. unfold regularize.
  pose proof (sort_by_key_sorted (@fst Z float) df) as Hsorted.
  pose proof (sort_by_perm series_leb df) as Hperm.
  pose proof (no_nan_sort_index Hnan) as Hnan'.
  pose proof (fun d => filter_sort_by_key (@fst Z float) d df) as Hstable.
  unfold sort_index, series_leb in *.
  destruct (sort_by (key_leb fst) df) as [| p0 ts] eqn:Ets.
  { apply Permutation_nil in Hperm. contradiction. }
  change (0 <? length (p0 :: ts))%nat with true. cbv iota.
  pose (all := p0 :: ts).
  pose (d0 := fst p0). pose (d1 := fst (last all p0)).
  assert (Hin0 : In p0 all) by (left; reflexivity).
  assert (Hle : (d0 <= d1)%Z).
  { exact (@sorted_last_max _ fst all p0 p0 Hsorted Hin0). }
  pose (h := fun d : Z =>
               series_mean (map snd (filter (fun p => (fst p =? d)%Z) all))).
  change (resample_D_mean (p0 :: ts))
    with (map (fun d : Z => (d, h d)) (day_range d0 d1)).
  rewrite (map_pair_combine h).
  rewrite on_values_combine by now rewrite length_map.
  rewrite on_values_combine
    by (unfold ffill; now rewrite ffill_from_length, length_map).
  destruct (day_range_cons Hle) as [rest Hrange].
  assert (Hh0 : exists m, h d0 = fin m).
  { destruct p0 as [d v]. destruct v as [v |].
    - apply (series_mean_defined _ v). apply in_map_iff.
      exists (d, fin v). split; [reflexivity |].
      apply filter_In. split; [exact Hin0 |]. apply Z.eqb_refl.
    - inversion Hnan' as [| ? ? Hv _]. now contradiction Hv. }
  destruct Hh0 as [m Hm].
  assert (Hfill : exists xs, ffill (map h (day_range d0 d1)) = map fin xs).
  { rewrite Hrange. simpl. rewrite Hm. unfold ffill. simpl.
    destruct (ffill_from_fin m (map h rest)) as [xs Hxs].
    exists (m :: xs). simpl. rewrite <- Hxs. reflexivity. }
  destruct Hfill as [xs Hxs].
  assert (Hh : forall d, h d = series_mean
                 (map snd (filter (fun p => (fst p =? d)%Z) df))).
  { intros d. unfold h, all. now rewrite Hstable. }
  exists d0, d1. split; [exact Hle |]. split.
  - unfold observations. rewrite <- Hstable. fold all.
    intros E. unfold h in Hm. rewrite series_mean_observed, E in Hm.
    discriminate.
  - rewrite Hxs, bfill_map_fin, <- Hxs. f_equal. f_equal.
    apply map_ext. exact Hh.
Qed.

(** X10.  Regularization gives a gap-free daily grid: for any non-empty
    table (missing values allowed) the regularized series has exactly one
    entry per calendar day from the earliest to the latest date of the table,
    in order, so its length is the number of days of that span. *)
Theorem regularize_is_gap_free (df : series) :
  df <> [] ->
  exists earliest latest : Z,
    (exists v, In (earliest, v) df) /\ (exists v, In (latest, v) df)
    /\ (forall p, In p df -> (earliest <= fst p <= latest)%Z)
    /\ length (regularize df) = Z.to_nat (latest - earliest + 1)
    /\ map fst (regularize df)
       = map (fun i => (earliest + Z.of_nat i)%Z)
             (seq 0 (Z.to_nat (latest - earliest + 1))).
Proof.
  intros Hne.
  destruct (regularize_dates Hne) as (d0 & d1 & Hle & Hd & Hall & H0 & H1).
  exists d0, d1. split; [exact H0 |]. split; [exact H1 |].
  split; [exact Hall |]. split; [| exact Hd].
  rewrite <- (length_map fst), Hd. apply length_day_range.
Qed.

Lemma regularize_is_gap_free_witness :
  [(5%Z, fin 10); (2%Z, NaN); (9%Z, fin 30)] <> ([] : series)
  /\ exists earliest latest : Z,
       (exists v, In (earliest, v) [(5%Z, fin 10); (2%Z, NaN); (9%Z, fin 30)])
       /\ (exists v, In (latest, v) [(5%Z, fin 10); (2%Z, NaN); (9%Z, fin 30)])
       /\ (forall p, In p [(5%Z, fin 10); (2%Z, NaN); (9%Z, fin 30)] ->
                     (earliest <= fst p <= latest)%Z)
       /\ length (regularize [(5%Z, fin 10); (2%Z, NaN); (9%Z, fin 30)])
          = Z.to_nat (latest - earliest + 1)
       /\ map fst (regularize [(5%Z, fin 10); (2%Z, NaN); (9%Z, fin 30)])
          = map (fun i => (earliest + Z.of_nat i)%Z)
                (seq 0 (Z.to_nat (latest - earliest + 1))).
Proof.
  assert (H : [(5%Z, fin 10); (2%Z, NaN); (9%Z, fin 30)] <> ([] : series))
    by discriminate.
  split; [exact H |].
  exact (@regularize_is_gap_free _ H).
Defined.

(** X11.  Regularization fills forward: in the regularized series of a table
    of numbers, the value of a day is the arithmetic mean of the readings of
    the latest day, at or before it, that has readings. *)
Theorem regularize_forward_fills (df : series) (d : Z) (v : float) :
  no_nan df -> In (d, v) (regularize df) ->
  exists d' : Z,
    (d' <= d)%Z
    /\ observations df d' <> []
    /\ (forall d'', (d' < d'' <= d)%Z -> observations df d'' = [])
    /\ v = fin (Spec.mean (observations df d')).
Proof.
  intros Hnan Hin.
  assert (Hne : df <> []) by (intros ->; contradiction).
  destruct (regularize_unfold Hne Hnan) as (d0 & d1 & Hle & Hobs0 & Hreg).
  rewrite Hreg in Hin. clear Hreg.
  set (h := fun d => series_mean
                      (map snd (filter (fun p => (fst p =? d)%Z) df))) in *.
  assert (Hh : forall e, h e = match observations df e with
                               | [] => NaN
                               | _ :: _ => fin (Spec.mean (observations df e))
                               end).
  { intros e. unfold h, observations. apply series_mean_observed. }
  apply nth_error_combine in Hin. destruct Hin as [i [Hd Hv]].
  apply nth_error_day_range in Hd. destruct Hd as [-> Hi].
  assert (Hcell : forall k, (k < Z.to_nat (d1 - d0 + 1))%nat ->
            nth_error (map h (day_range d0 d1)) k
            = Some (h (d0 + Z.of_nat k)%Z)).
  { intros k Hk. unfold day_range. rewrite !nth_error_map, nth_error_seq.
    destruct (Nat.ltb_spec k (Z.to_nat (d1 - d0 + 1))); [reflexivity | lia]. }
  unfold ffill in Hv.
  destruct (ffill_from_spec _ _ _ Hv)
    as [(j & x & Hj & Hx & Hk & ->) | [Hk _]].
  - rewrite Hcell in Hx by lia. injection Hx as Hx.
    exists (d0 + Z.of_nat j)%Z.
    rewrite Hh in Hx.
    destruct (observations df (d0 + Z.of_nat j)) as [| o os] eqn:Eo;
      [discriminate |].
    split; [lia |]. split; [discriminate |]. split.
    + intros d'' Hd''.
      specialize (Hk (Z.to_nat (d'' - d0)) ltac:(lia)).
      rewrite Hcell in Hk by lia. injection Hk as Hk.
      replace (d0 + Z.of_nat (Z.to_nat (d'' - d0)))%Z with d'' in Hk by lia.
      rewrite Hh in Hk.
      destruct (observations df d''); [reflexivity | discriminate].
    + now rewrite Hx.
  - exfalso. specialize (Hk 0%nat ltac:(lia)).
    rewrite Hcell in Hk by lia. injection Hk as Hk.
    rewrite Z.add_0_r, Hh in Hk.
    destruct (observations df d0); [now apply Hobs0 | discriminate].
Qed.

Lemma regularize_forward_fills_witness :
  no_nan [(0%Z, fin 10); (2%Z, fin 30)]
  /\ In (1%Z, fin ((10 + 0) / INR 1))
        (regularize [(0%Z, fin 10); (2%Z, fin 30)])
  /\ exists d' : Z,
       (d' <= 1)%Z
       /\ observations [(0%Z, fin 10); (2%Z, fin 30)] d' <> []
       /\ (forall d'', (d' < d'' <= 1)%Z ->
                       observations [(0%Z, fin 10); (2%Z, fin 30)] d'' = [])
       /\ fin ((10 + 0) / INR 1)
          = fin (Spec.mean (observations [(0%Z, fin 10); (2%Z, fin 30)] d')).
Proof.
  assert (Hnan : no_nan [(0%Z, fin 10); (2%Z, fin 30)])
    by (unfold no_nan; repeat constructor; discriminate).
  assert (Hin : In (1%Z, fin ((10 + 0) / INR 1))
                   (regularize [(0%Z, fin 10); (2%Z, fin 30)]))
    by (right; left; reflexivity).
  split; [exact Hnan |]. split; [exact Hin |].
  exact (@regularize_forward_fills _ _ _ Hnan Hin).
Defined.

(** X12.  Regularization is idempotent on tables of numbers: the regularized
    series is already regular, and regularizing it again gives it back. *)
Theorem regularize_idempotent (df : series) :
  no_nan df -> regularize (regularize df) = regularize df.
Proof.
  intros Hnan. destruct df as [| p df]; [reflexivity |].
  destruct (@regularize_shape (p :: df))
    as (d0 & d1 & xs & Hle & Hlen & Hreg & _); [discriminate | exact Hnan |].
  rewrite Hreg.
  assert (Hr : day_range d0 d1 = date_range d0 (length xs)).
  { unfold day_range, date_range. now rewrite Hlen. }
  rewrite Hr. apply regularize_gap_free.
  intros ->. simpl in Hlen. lia.
Qed.

Lemma regularize_idempotent_witness :
  no_nan [(0%Z, fin 10); (2%Z, fin 30)]
  /\ regularize (regularize [(0%Z, fin 10); (2%Z, fin 30)])
     = regularize [(0%Z, fin 10); (2%Z, fin 30)].
Proof.
  assert (Hnan : no_nan [(0%Z, fin 10); (2%Z, fin 30)])
    by (unfold no_nan; repeat constructor; discriminate).
  split; [exact Hnan |].
  exact (@regularize_idempotent _ Hnan).
Defined.

(** ** Fallback and primary path *)

(** X13.  The fallback keeps the invariant of the forecast series: on a table
    of numbers, every entry [forecast_aqi_simple] returns has
    [0 <= lower_bound <= aqi <= upper_bound <= 500]. *)
Theorem fallback_entries_in_bounds (df : series) (n : nat)
    (out : list forecast_row) :
  no_nan df -> forecast_aqi_simple df n = Some out ->
  Forall entry_in_bounds out.
Proof.
  intros Hnan H. exact (@forecast_aqi_simple_in_bounds df n out Hnan H).
Qed.

Lemma fallback_entries_in_bounds_witness :
  no_nan (daily_values 0 ten_days)
  /\ forecast_aqi_simple (daily_values 0 ten_days) 3
     = Some (Spec.fallback (combine (date_range 0 10) ten_days) 3)
  /\ Forall entry_in_bounds
            (Spec.fallback (combine (date_range 0 10) ten_days) 3).
Proof.
  assert (Hnan : no_nan (daily_values 0 ten_days)) by apply no_nan_lift.
  assert (H : forecast_aqi_simple (daily_values 0 ten_days) 3
              = Some (Spec.fallback (combine (date_range 0 10) ten_days) 3)).
  { unfold forecast_aqi_simple.
    rewrite (forecast_aqi_simple_body_spec (daily_values 0 ten_days) 3
               (combine (date_range 0 10) ten_days)).
    - reflexivity.
    - apply regularize_daily_values. discriminate.
    - simpl. lia. }
  split; [exact Hnan |]. split; [exact H |].
  exact (@fallback_entries_in_bounds _ _ _ Hnan H).
Defined.

Lemma daily_values_in_range : horizon_in_range (daily_values 0 five_days) 3.
Proof.
  intros p Hp. unfold daily_values in Hp. simpl in Hp.
  repeat (destruct Hp as [<- | Hp]; [reflexivity |]). contradiction.
Qed.

(** X14.  On a table of numbers, and for a horizon whose days pandas can
    hold (the latest date plus the horizon stays before 2262-04-11), the
    fallback fails exactly when the regularized series has fewer than seven
    days, the empty table included; and when it fails the exception raised
    inside it is the ValueError "Not enough data for forecasting". *)
Theorem fallback_fails_iff_short (df : series) (n : nat) :
  no_nan df -> horizon_in_range df n ->
  (forecast_aqi_simple df n = None <-> (length (regularize df) < 7)%nat)
  /\ (forall e, forecast_aqi_simple_body df n = Raise e ->
                e = ValueError "Not enough data for forecasting").
Proof.
  intros Hnan _. split.
  - exact (@forecast_aqi_simple_none_iff df n Hnan).
  - intros e He.
    exact (proj1 (@forecast_aqi_simple_body_raises df n e Hnan He)).
Qed.

Lemma fallback_fails_iff_short_witness :
  no_nan (daily_values 0 five_days)
  /\ horizon_in_range (daily_values 0 five_days) 3
  /\ (forecast_aqi_simple (daily_values 0 five_days) 3 = None
      <-> (length (regularize (daily_values 0 five_days)) < 7)%nat)
  /\ (forall e,
        forecast_aqi_simple_body (daily_values 0 five_days) 3 = Raise e ->
        e = ValueError "Not enough data for forecasting").
Proof.
  assert (Hnan : no_nan (daily_values 0 five_days)) by apply no_nan_lift.
  assert (Hrange : horizon_in_range (daily_values 0 five_days) 3)
    by apply daily_values_in_range.
  split; [exact Hnan |]. split; [exact Hrange |].
  exact (@fallback_fails_iff_short (daily_values 0 five_days) 3 Hnan Hrange).
Defined.

(** X15.  No error of statsmodels reaches the caller: whatever the library
    does (raises at any point, returns columns of the wrong length), on a
    table of numbers and for a horizon whose days pandas can hold (the
    latest date plus the horizon stays before 2262-04-11), a failure of
    [forecast_aqi_arima] means that the regularized series has fewer than
    seven days. *)
Theorem arima_failure_means_short_series (ARIMA_AVAILABLE : bool)
    (sm : statsmodels) (df : series) (n : nat) :
  no_nan df -> horizon_in_range df n ->
  forecast_aqi_arima ARIMA_AVAILABLE sm df n = None ->
  (length (regularize df) < 7)%nat.
Proof.
  intros Hnan _ H.
  exact (@forecast_aqi_arima_none ARIMA_AVAILABLE sm df n Hnan H).
Qed.

Lemma arima_failure_means_short_series_witness :
  no_nan (daily_values 0 five_days)
  /\ horizon_in_range (daily_values 0 five_days) 3
  /\ forecast_aqi_arima true failing_model (daily_values 0 five_days) 3 = None
  /\ (length (regularize (daily_values 0 five_days)) < 7)%nat.
Proof.
  assert (Hnan : no_nan (daily_values 0 five_days)) by apply no_nan_lift.
  assert (H : forecast_aqi_arima true failing_model
                                 (daily_values 0 five_days) 3 = None).
  { unfold forecast_aqi_arima, forecast_aqi_arima_body, forecast_aqi_simple.
    cbn [negb]. cbn [fit_ladder failing_model ARIMA_fit bind].
    rewrite forecast_aqi_simple_short; [reflexivity |].
    rewrite regularize_daily_values by discriminate.
    rewrite length_daily_values. simpl. lia. }
  assert (Hrange : horizon_in_range (daily_values 0 five_days) 3)
    by apply daily_values_in_range.
  split; [exact Hnan |]. split; [exact Hrange |]. split; [exact H |].
  exact (@arima_failure_means_short_series true failing_model _ 3 Hnan
           Hrange H).
Defined.

Lemma DataFrame_columns (dates : list Z) (v l u : list float)
    (out : list forecast_row) :
  DataFrame dates v l u = Ok out ->
  map f_date out = dates /\ map f_aqi out = v
  /\ map lower_bound out = l /\ map upper_bound out = u.
Proof.
  intros H. split; [exact (DataFrame_dates _ _ _ _ H) |].
  unfold DataFrame in H.
  destruct ((length v =? length dates) && (length l =? length dates)
            && (length u =? length dates))%nat eqn:E; [| discriminate].
  apply andb_prop in E. destruct E as [E Eu]. apply andb_prop in E.
  destruct E as [Ev El].
  apply Nat.eqb_eq in Ev, El, Eu.
  injection H as <-. rewrite !map_map. cbn [f_aqi lower_bound upper_bound].
  assert (L1 : length (combine dates v) = length l)
    by (rewrite length_combine, Ev, Nat.min_id; now rewrite El).
  assert (L2 : length (combine (combine dates v) l) = length u)
    by (rewrite length_combine, L1, Nat.min_id; now rewrite Eu).
  split; [| split].
  - rewrite <- (map_map (fun q => fst (fst q)) snd).
    rewrite <- (map_map fst fst).
    rewrite (map_fst_combine_eq _ _ L2), (map_fst_combine_eq _ _ L1).
    apply map_snd_combine_eq. now rewrite Ev.
  - rewrite <- (map_map fst snd).
    rewrite (map_fst_combine_eq _ _ L2). now apply map_snd_combine_eq.
  - now apply map_snd_combine_eq.
Qed.

(** X16.  The primary path returns either the fallback's table or the
    library's columns unchanged: whenever [forecast_aqi_arima] returns a
    table, it is the table of [forecast_aqi_simple], or statsmodels is
    available, one of the three orders was fitted, and the columns aqi,
    lower_bound and upper_bound are exactly the point forecast and the
    interval of the fitted model, nothing being clamped or reordered. *)
Theorem arima_table_is_library_output_or_fallback (ARIMA_AVAILABLE : bool)
    (sm : statsmodels) (df : series) (n : nat) (out : list forecast_row) :
  forecast_aqi_arima ARIMA_AVAILABLE sm df n = Some out ->
  forecast_aqi_simple df n = Some out
  \/ (ARIMA_AVAILABLE = true
      /\ exists (m : fitted_model sm) (fc : list float)
                (ci : list (float * float)),
           fit_ladder sm (regularize df) = Ok m
           /\ forecast sm m n = Ok fc
           /\ conf_int sm m n = Ok ci
           /\ map f_aqi out = fc
           /\ map lower_bound out = map fst ci
           /\ map upper_bound out = map snd ci).
Proof.
  unfold forecast_aqi_arima. destruct ARIMA_AVAILABLE; cbn [negb];
    [| intros H; now left].
  destruct (forecast_aqi_arima_body sm df n) as [o | e] eqn:E;
    [| intros H; now left].
  intros H. injection H as <-. right. split; [reflexivity |].
  unfold forecast_aqi_arima_body in E.
  destruct (fit_ladder sm (regularize df)) as [m | e] eqn:Em;
    [| discriminate].
  cbn [bind] in E.
  destruct (forecast sm m n) as [fc | e] eqn:Ef; [| discriminate].
  cbn [bind] in E.
  destruct (conf_int sm m n) as [ci | e] eqn:Ec; [| discriminate].
  cbn [bind] in E.
  destruct (index_last (regularize df)) as [last | e]; [| discriminate].
  cbn [bind] in E. apply DataFrame_columns in E.
  destruct E as (_ & Ha & Hl & Hu).
  exists m, fc, ci. repeat split; assumption.
Qed.

Lemma arima_table_is_library_output_or_fallback_witness :
  forecast_aqi_arima true (constant_model 12 8 16)
                     (daily_values 0 five_days) 2
  = Some [mkForecast 5 (fin 12) (fin 8) (fin 16);
          mkForecast 6 (fin 12) (fin 8) (fin 16)]
  /\ (forecast_aqi_simple (daily_values 0 five_days) 2
      = Some [mkForecast 5 (fin 12) (fin 8) (fin 16);
              mkForecast 6 (fin 12) (fin 8) (fin 16)]
      \/ (true = true
          /\ exists (m : fitted_model (constant_model 12 8 16))
                    (fc : list float) (ci : list (float * float)),
               fit_ladder (constant_model 12 8 16)
                          (regularize (daily_values 0 five_days)) = Ok m
               /\ forecast (constant_model 12 8 16) m 2 = Ok fc
               /\ conf_int (constant_model 12 8 16) m 2 = Ok ci
               /\ map f_aqi [mkForecast 5 (fin 12) (fin 8) (fin 16);
                             mkForecast 6 (fin 12) (fin 8) (fin 16)] = fc
               /\ map lower_bound [mkForecast 5 (fin 12) (fin 8) (fin 16);
                                   mkForecast 6 (fin 12) (fin 8) (fin 16)]
                  = map fst ci
               /\ map upper_bound [mkForecast 5 (fin 12) (fin 8) (fin 16);
                                   mkForecast 6 (fin 12) (fin 8) (fin 16)]
                  = map snd ci)).
Proof.
  assert (H : forecast_aqi_arima true (constant_model 12 8 16)
                                 (daily_values 0 five_days) 2
              = Some [mkForecast 5 (fin 12) (fin 8) (fin 16);
                      mkForecast 6 (fin 12) (fin 8) (fin 16)]).
  { unfold forecast_aqi_arima, forecast_aqi_arima_body. cbn [negb].
    rewrite regularize_daily_values by discriminate.
    reflexivity. }
  split; [exact H |].
  exact (@arima_table_is_library_output_or_fallback true
           (constant_model 12 8 16) _ 2 _ H).
Defined.

(** ** A flat history *)







(* ================================================================= *)
(** * Further properties: the HTTP endpoints *)

(** ** Order of strings *)

Lemma ascii_compare_lt (a b : ascii) :
  Ascii.compare a b = Lt <-> (N_of_ascii a < N_of_ascii b)%N.
Proof. unfold Ascii.compare. apply N.compare_lt_iff. Qed.

Lemma string_compare_trans (a b c : string) :
  String.compare a b <> Gt -> String.compare b c <> Gt ->
  String.compare a c <> Gt.
Proof.
  revert b c. induction a as [| x a IH]; intros [| y b] [| z c]; simpl;
    try congruence.
  destruct (Ascii.compare x y) eqn:Exy; [| | congruence].
  - apply Ascii.compare_eq_iff in Exy. subst y.
    destruct (Ascii.compare x z) eqn:Exz; try congruence.
    apply IH.
  - destruct (Ascii.compare y z) eqn:Eyz; [| | congruence].
    + apply Ascii.compare_eq_iff in Eyz. subst z. rewrite Exy. congruence.
    + apply ascii_compare_lt in Exy, Eyz.
      assert (Exz : Ascii.compare x z = Lt)
        by (apply ascii_compare_lt; eapply N.lt_trans; eassumption).
      rewrite Exz. congruence.
Qed.

Lemma string_leb_trans (a b c : string) :
  String.leb a b = true -> String.leb b c = true -> String.leb a c = true.
Proof.
  unfold String.leb. intros Hab Hbc.
  assert (H : String.compare a c <> Gt).
  { apply (string_compare_trans a b c).
    - destruct (String.compare a b); congruence.
    - destruct (String.compare b c); congruence. }
  destruct (String.compare a c); congruence.
Qed.

Lemma string_leb_total (a b : string) :
  String.leb a b = false -> String.leb b a = true.
Proof.
  intros H. destruct (String.leb_total a b) as [H' | H']; congruence.
Qed.

Lemma string_leb_neq_ltb (a b : string) :
  String.leb a b = true -> a <> b -> String.ltb a b = true.
Proof.
  unfold String.leb, String.ltb. intros H Hne.
  destruct (String.compare a b) eqn:E; try congruence.
  apply String.compare_eq_iff in E. contradiction.
Qed.

Section SortedTransitive.

Variable A : Type.
Variable leb : A -> A -> bool.
Hypothesis leb_total : forall a b, leb a b = false -> leb b a = true.
Hypothesis leb_trans :
  forall a b c, leb a b = true -> leb b c = true -> leb a c = true.

Lemma insert_by_strongly_sorted (x : A) (l : list A) :
  StronglySorted (fun a b => leb a b = true) l ->
  StronglySorted (fun a b => leb a b = true) (insert_by leb x l).
Proof.
  induction 1 as [| y l Hs IH Hall]; simpl.
  - constructor; constructor.
  - destruct (leb x y) eqn:E.
    + constructor; [constructor; assumption |].
      constructor; [exact E |].
      eapply Forall_impl; [| exact Hall].
      intros a Ha. exact (@leb_trans x y a E Ha).
    + constructor; [exact IH |].
      apply (Permutation_Forall (Permutation_sym (insert_by_perm leb x l))).
      constructor; [now apply leb_total | exact Hall].
Qed.

Lemma sort_by_strongly_sorted (l : list A) :
  StronglySorted (fun a b => leb a b = true) (sort_by leb l).
Proof.
  induction l as [| x l IH]; simpl; [constructor |].
  now apply insert_by_strongly_sorted.
Qed.

End SortedTransitive.

Lemma StronglySorted_filter_keep {A : Type} (R : A -> A -> Prop)
    (f : A -> bool) (l : list A) :
  StronglySorted R l -> StronglySorted R (filter f l).
Proof.
  induction 1 as [| x l Hs IH Hall]; simpl; [constructor |].
  destruct (f x); [| exact IH].
  constructor; [exact IH |].
  rewrite Forall_forall in *. intros y Hy. apply filter_In in Hy.
  now apply Hall.
Qed.

Lemma sorted_strings_strict (l : list string) :
  StronglySorted (fun a b => String.leb a b = true) l -> NoDup l ->
  StronglySorted (fun a b => String.ltb a b = true) l.
Proof.
  induction 1 as [| x l Hs IH Hall]; intros Hnd; [constructor |].
  inversion Hnd as [| ? ? Hx Hnd']; subst.
  constructor; [now apply IH |].
  rewrite Forall_forall in *. intros y Hy.
  apply string_leb_neq_ltb; [now apply Hall |].
  intros ->. contradiction.
Qed.

(** ** Lists of labels *)

Lemma option_string_eqb_eq (a b : option string) :
  option_string_eqb a b = true <-> a = b.
Proof.
  destruct a as [x |], b as [y |]; simpl; try (split; congruence).
  rewrite String.eqb_eq. split; congruence.
Qed.

Lemma option_string_eqb_refl (a : option string) :
  option_string_eqb a a = true.
Proof. now apply option_string_eqb_eq. Qed.

Lemma drop_dups_from_map {A B : Type} (f : A -> B) (same : A -> A -> bool)
    (same' : B -> B -> bool) (seen l : list A) :
  (forall a b, same' (f a) (f b) = same a b) ->
  drop_dups_from same' (map f seen) (map f l)
  = map f (drop_dups_from same seen l).
Proof.
  intros H. revert seen. induction l as [| x l IH]; intros seen; simpl;
    [reflexivity |].
  assert (E : existsb (same' (f x)) (map f seen) = existsb (same x) seen).
  { clear IH. induction seen as [| y seen IHs]; simpl; [reflexivity |].
    now rewrite H, IHs. }
  rewrite E. destruct (existsb (same x) seen).
  - apply IH.
  - simpl. f_equal. apply (IH (x :: seen)).
Qed.

Lemma insert_by_map {A B : Type} (f : A -> B) (leb : A -> A -> bool)
    (leb' : B -> B -> bool) (x : A) (l : list A) :
  (forall a b, leb' (f a) (f b) = leb a b) ->
  insert_by leb' (f x) (map f l) = map f (insert_by leb x l).
Proof.
  intros H. induction l as [| y l IH]; simpl; [reflexivity |].
  rewrite H. destruct (leb x y); simpl; [reflexivity | now rewrite IH].
Qed.

Lemma sort_by_map {A B : Type} (f : A -> B) (leb : A -> A -> bool)
    (leb' : B -> B -> bool) (l : list A) :
  (forall a b, leb' (f a) (f b) = leb a b) ->
  sort_by leb' (map f l) = map f (sort_by leb l).
Proof.
  intros H. induction l as [| x l IH]; simpl; [reflexivity |].
  rewrite IH. now apply insert_by_map.
Qed.

Lemma labelled_cities (rows : list row) :
  labelled rows ->
  map city rows = map Some (flat_map (fun r => label_text (city r)) rows).
Proof.
  induction 1 as [| r rows Hr _ IH]; [reflexivity |].
  simpl. destruct (city r) as [c |]; [| congruence].
  simpl. now rewrite IH.
Qed.

Lemma existsb_missing_labels (l : list string) :
  existsb is_missing (map Some l) = false.
Proof. induction l as [| x l IH]; simpl; [reflexivity | exact IH]. Qed.

Lemma filter_shown_labels (l : list string) :
  flat_map label_text (filter shown_city (map Some l))
  = filter (fun x => negb (String.eqb (strip x) EmptyString)) l.
Proof.
  induction l as [| x l IH]; simpl; [reflexivity |].
  destruct (negb (String.eqb (strip x) EmptyString)); simpl; now rewrite IH.
Qed.

Lemma in_labels (rows : list row) (x : string) :
  In x (flat_map (fun r => label_text (city r)) rows)
  <-> exists r, In r rows /\ city r = Some x.
Proof.
  rewrite in_flat_map. split; intros [r [Hr Hx]]; exists r;
    (split; [exact Hr |]).
  - destruct (city r) as [c |]; [| contradiction].
    destruct Hx as [-> | []]. reflexivity.
  - rewrite Hx. now left.
Qed.

(** The city list of a table whose rows all have a label. *)
Lemma get_cities_labelled (file : option csv) (s s1 : state) (df : nat)
    (rows : list row) :
  load_full_dataset file s = (Some df, s1) ->
  deref df s1 = Some (Records rows) ->
  labelled rows ->
  Api.get_cities file s
  = (Json (filter (fun x => negb (String.eqb (strip x) EmptyString))
             (sort_by String.leb
                (drop_duplicates String.eqb
                   (flat_map (fun r => label_text (city r)) rows)))),
     s1).
Proof.
  intros Hload Hd Hl. unfold Api.get_cities. rewrite Hload, Hd.
  rewrite (labelled_cities Hl).
  unfold drop_duplicates.
  change (@nil (option string)) with (map (@Some string) []).
  rewrite (drop_dups_from_map (@Some string) String.eqb option_string_eqb)
    by reflexivity.
  unfold py_sorted. rewrite existsb_missing_labels. cbn [andb].
  rewrite (sort_by_map (@Some string) String.leb label_leb) by reflexivity.
  now rewrite filter_shown_labels.
Qed.

(** X18.  [GET /api/cities] on a dataset whose rows all have a city label
    answers with the labels of the dataset that are not blank, each once, in
    strictly ascending order. *)
Theorem get_cities_lists_labels (file : option csv) (s s1 : state) (df : nat)
    (rows : list row) :
  load_full_dataset file s = (Some df, s1) ->
  deref df s1 = Some (Records rows) ->
  labelled rows ->
  exists cities : list string,
    Api.get_cities file s = (Json cities, s1)
    /\ StronglySorted (fun a b => String.ltb a b = true) cities
    /\ (forall x, In x cities <->
                  (exists r, In r rows /\ city r = Some x)
                  /\ strip x <> EmptyString).
Proof.
  intros Hload Hd Hl. eexists.
  split; [exact (get_cities_labelled file s Hload Hd Hl) |]. split.
  - apply sorted_strings_strict.
    + apply StronglySorted_filter_keep.
      apply sort_by_strongly_sorted;
        [exact string_leb_total | exact string_leb_trans].
    + apply NoDup_filter. eapply Permutation_NoDup.
      * apply Permutation_sym, sort_by_perm.
      * apply drop_duplicates_nodup, String.eqb_refl.
  - intros x. rewrite filter_In, sort_by_in.
    rewrite (drop_duplicates_in String.eqb String.eqb_refl
               (fun a b H => proj1 (String.eqb_eq a b) H)).
    rewrite in_labels, negb_true_iff, String.eqb_neq. tauto.
Qed.

Lemma get_cities_lists_labels_witness :
  exists cities : list string,
    Api.get_cities
      (Some (mkCsv true
         [mkRaw (Some 18262%Z) (Some "Mumbai"%string) (fin 100);
          mkRaw (Some 18263%Z) (Some "Delhi"%string) (fin 200);
          mkRaw (Some 18264%Z) (Some " "%string) (fin 50)]))
      empty_state
    = (Json cities,
       snd (load_full_dataset
         (Some (mkCsv true
            [mkRaw (Some 18262%Z) (Some "Mumbai"%string) (fin 100);
             mkRaw (Some 18263%Z) (Some "Delhi"%string) (fin 200);
             mkRaw (Some 18264%Z) (Some " "%string) (fin 50)]))
         empty_state))
    /\ StronglySorted (fun a b => String.ltb a b = true) cities
    /\ (forall x, In x cities <->
          (exists r,
             In r (normalize (mkCsv true
                [mkRaw (Some 18262%Z) (Some "Mumbai"%string) (fin 100);
                 mkRaw (Some 18263%Z) (Some "Delhi"%string) (fin 200);
                 mkRaw (Some 18264%Z) (Some " "%string) (fin 50)]))
             /\ city r = Some x)
          /\ strip x <> EmptyString).
Proof.
  apply (@get_cities_lists_labels _ empty_state _ 0%nat).
  - reflexivity.
  - reflexivity.
  - unfold labelled. repeat constructor; discriminate.
Defined.

(** X19.  [GET /api/cities] fails on a missing label: once the dataset is
    loaded, the endpoint answers 500 with the text of an exception exactly
    when the dataset has both a row without a city label and a row with one
    ([sorted] cannot compare a NaN with a string); the filter that drops
    missing labels comes after the sort. *)
Theorem get_cities_fails_on_mixed_labels (file : option csv) (s s1 : state)
    (df : nat) (rows : list row) :
  load_full_dataset file s = (Some df, s1) ->
  deref df s1 = Some (Records rows) ->
  Api.get_cities file s = (ErrorJson 500 ExceptionText, s1)
  <-> (exists r, In r rows /\ city r = None)
      /\ (exists r, In r rows /\ city r <> None).
Proof.
  intros Hload Hd. unfold Api.get_cities. rewrite Hload, Hd.
  unfold py_sorted.
  set (labels := drop_duplicates option_string_eqb (map city rows)).
  assert (Hin : forall c, In c labels <-> exists r, In r rows /\ city r = c).
  { intros c. unfold labels.
    rewrite (drop_duplicates_in option_string_eqb option_string_eqb_refl
               (fun a b H => proj1 (option_string_eqb_eq a b) H)).
    rewrite in_map_iff. split; intros [r [H1 H2]]; exists r; tauto. }
  destruct (existsb is_missing labels) eqn:Em;
    destruct (existsb (fun c => negb (is_missing c)) labels) eqn:Es;
    cbn [andb].
  - split; [intros _ | reflexivity].
    apply existsb_exists in Em, Es.
    destruct Em as [c [Hc Hm]], Es as [c' [Hc' Hs]].
    destruct c as [x |]; [discriminate |].
    destruct c' as [y |]; [| discriminate].
    apply Hin in Hc, Hc'. destruct Hc as [r [Hr Er]], Hc' as [r' [Hr' Er']].
    split; [exists r; auto | exists r'; split; [exact Hr' | congruence]].
  - split; [discriminate |].
    intros [_ [r [Hr Hc]]]. exfalso.
    destruct (city r) as [x |] eqn:Ex; [| congruence].
    assert (existsb (fun c => negb (is_missing c)) labels = true).
    { apply existsb_exists. exists (Some x). split; [| reflexivity].
      apply Hin. eauto. }
    congruence.
  - split; [discriminate |].
    intros [[r [Hr Hc]] _]. exfalso.
    assert (existsb is_missing labels = true).
    { apply existsb_exists. exists None. split; [| reflexivity].
      apply Hin. eauto. }
    congruence.
  - split; [discriminate |].
    intros [[r [Hr Hc]] _]. exfalso.
    assert (existsb is_missing labels = true).
    { apply existsb_exists. exists None. split; [| reflexivity].
      apply Hin. eauto. }
    congruence.
Qed.

Lemma get_cities_fails_on_mixed_labels_witness :
  Api.get_cities (Some blank_city_file) empty_state
  = (ErrorJson 500 ExceptionText, state_after_load)
  <-> (exists r, In r (normalize blank_city_file) /\ city r = None)
      /\ (exists r, In r (normalize blank_city_file) /\ city r <> None).
Proof.
  apply (@get_cities_fails_on_mixed_labels (Some blank_city_file) empty_state
           state_after_load 0%nat (normalize blank_city_file)).
  - reflexivity.
  - reflexivity.
Defined.

(** ** The preparer as the endpoints call it *)

Lemma rows_worked_on_filtered (wanted : string) (table : list row) :
  wanted <> EmptyString -> wanted <> ALL_CITIES ->
  rows_worked_on (Some wanted) table = filter (city_mask wanted) table.
Proof.
  intros Hne Hall. unfold rows_worked_on.
  now rewrite (city_filter_applies_given Hne Hall).
Qed.

Lemma prepare_no_rows (file : option csv) (city_arg : option string)
    (s s1 : state) (l0 : nat) (table : list row) :
  load_full_dataset file s = (Some l0, s1) ->
  deref l0 s1 = Some (Records table) ->
  city_filter_applies city_arg = true ->
  rows_worked_on city_arg table = [] ->
  fst (load_and_preprocess_data file city_arg s) = inl NoDataForCity.
Proof.
  intros Hload Hd Hf Hw. unfold rows_worked_on in Hw. rewrite Hf in Hw.
  rewrite (prepare_filtered file city_arg s Hload Hd Hf). cbv zeta.
  rewrite Hw. reflexivity.
Qed.

Lemma prepare_success (file : option csv) (city_arg : option string)
    (s s1 : state) (l0 : nat) (table : list row) :
  load_full_dataset file s = (Some l0, s1) ->
  deref l0 s1 = Some (Records table) ->
  rows_worked_on city_arg table <> [] ->
  exists (out : nat) (s' : state),
    load_and_preprocess_data file city_arg s = (inr out, s')
    /\ deref out s'
       = Some (Records (dedup_sort (fill_missing
                                      (rows_worked_on city_arg table)))).
Proof.
  intros Hload Hd Hne. unfold rows_worked_on in *.
  destruct (city_filter_applies city_arg) eqn:Hf.
  - rewrite (prepare_filtered file city_arg s Hload Hd Hf). cbv zeta.
    destruct (filter (city_mask (city_text city_arg)) table) as [| r0 kept]
      eqn:Ek; [congruence |].
    cbn [length Nat.eqb]. eexists _, _. split; [reflexivity |].
    exact (deref_alloc_new _ _).
  - rewrite (prepare_unfiltered file city_arg s Hload Hd Hf). cbv zeta.
    eexists _, _. split; [reflexivity |].
    exact (deref_alloc_new _ _).
Qed.

Lemma prepared_rows_canonical (city_arg : option string) (table : list row) :
  (exists r, In r (rows_worked_on city_arg table)
             /\ city r <> None /\ aqi r <> NaN) ->
  canonical (dedup_sort (fill_missing (rows_worked_on city_arg table))).
Proof. intros H. now apply dedup_sort_canonical, fill_missing_no_nan. Qed.

Lemma fill_missing_dates (rows : list row) (d : Z) :
  (exists r, In r (fill_missing rows) /\ date r = d)
  <-> (exists r, In r rows /\ date r = d).
Proof.
  assert (H : forall l, (exists r, In r l /\ date r = d)
                        <-> In d (map snd (map row_key l))).
  { intros l. rewrite map_map. cbn [row_key snd]. rewrite in_map_iff.
    split; intros [r Hr]; exists r; tauto. }
  rewrite !H, fill_missing_keys. reflexivity.
Qed.

Lemma prepared_dates (rows : list row) (d : Z) :
  (exists r, In r (dedup_sort (fill_missing rows)) /\ date r = d)
  <-> (exists r, In r rows /\ date r = d).
Proof.
  rewrite <- (fill_missing_dates rows d). split.
  - intros [r [Hr Hd]]. exists r. split; [| exact Hd].
    now apply dedup_sort_subset.
  - intros [r [Hr Hd]].
    destruct (dedup_sort_covers _ _ Hr) as [r' [Hr' [_ Hd']]].
    exists r'. split; [exact Hr' | congruence].
Qed.

(** ** The endpoints after a successful preparation *)

Lemma daily_trend_eq (file : option csv) (city_arg : option string)
    (s s' : state) (out : nat) (rows : list row) :
  load_and_preprocess_data file city_arg s = (inr out, s') ->
  deref out s' = Some (Records rows) ->
  fst (Api.daily_trend file city_arg s)
  = Json (mkTrend (city_label city_arg)
                  (map strftime (map fst (daily_table rows)))
                  (map snd (daily_table rows))).
Proof.
  intros H Hd. unfold Api.daily_trend. rewrite H.
  rewrite (@calculate_daily_aqi_eq out s' rows Hd).
  unfold Api.trend_response.
  pose proof (deref_alloc_new (Series (daily_table rows)) s') as Hnew.
  cbn [alloc fst] in Hnew. rewrite Hnew. cbn [fst].
  now rewrite map_map.
Qed.

Lemma monthly_trend_eq (file : option csv) (city_arg : option string)
    (s s' : state) (out : nat) (rows : list row) :
  load_and_preprocess_data file city_arg s = (inr out, s') ->
  deref out s' = Some (Records rows) ->
  fst (Api.monthly_trend file city_arg s)
  = Json (mkTrend (city_label city_arg)
                  (map strftime
                       (map fst (monthly_table (with_year_month rows))))
                  (map snd (monthly_table (with_year_month rows)))).
Proof.
  intros H Hd. unfold Api.monthly_trend. rewrite H.
  destruct (@monthly_call out s' rows Hd) as (s2 & Hc & Hd2 & _).
  rewrite Hc. unfold Api.trend_response. rewrite Hd2. cbn [fst].
  now rewrite map_map.
Qed.

Lemma forecast_eq (ARIMA_AVAILABLE : bool) (sm : statsmodels)
    (file : option csv) (days : option nat) (city_arg : option string)
    (s s' : state) (out : nat) (rows : list row) :
  load_and_preprocess_data file city_arg s = (inr out, s') ->
  deref out s' = Some (Records rows) ->
  fst (Api.forecast ARIMA_AVAILABLE sm file days city_arg s)
  = match forecast_aqi_arima ARIMA_AVAILABLE sm (daily_table rows)
                             (forecast_days days) with
    | None => ErrorJson 500 (Text "Failed to generate forecast")
    | Some forecast_df =>
        Json (mkForecastBody
                (city_label city_arg)
                (map strftime (map fst (daily_table rows)))
                (map snd (daily_table rows))
                (map strftime (map f_date forecast_df))
                (map f_aqi forecast_df)
                (map lower_bound forecast_df)
                (map upper_bound forecast_df))
    end.
Proof.
  intros H Hd. unfold Api.forecast. rewrite H.
  rewrite (@calculate_daily_aqi_eq out s' rows Hd).
  pose proof (deref_alloc_new (Series (daily_table rows)) s') as Hnew.
  cbn [alloc fst] in Hnew. rewrite Hnew. fold (forecast_days days).
  destruct (forecast_aqi_arima _ _ _ _); cbn [fst]; [| reflexivity].
  now rewrite !map_map.
Qed.

Lemma daily_series_no_nan (rows : list row) (t : series) :
  is_daily_series rows t -> no_nan t.
Proof.
  intros (_ & _ & Hv). unfold no_nan. apply Forall_forall.
  intros e He. rewrite (Hv e He). discriminate.
Qed.

(** The regularized series is short exactly when the dates of the table lie
    within six days. *)
Lemma regularize_short_iff (df : series) :
  df <> [] ->
  (length (regularize df) < 7)%nat
  <-> (forall p q, In p df -> In q df -> (fst q - fst p < 6)%Z).
Proof.
  intros Hne.
  destruct (regularize_dates Hne)
    as (d0 & d1 & Hle & Hd & Hall & [v0 H0] & [v1 H1]).
  assert (Hlen : length (regularize df) = Z.to_nat (d1 - d0 + 1)).
  { rewrite <- (length_map fst), Hd. apply length_day_range. }
  rewrite Hlen. split.
  - intros Hlt p q Hp Hq. apply Hall in Hp, Hq. lia.
  - intros H. specialize (H _ _ H0 H1). cbn [fst] in H. lia.
Qed.

Lemma daily_table_short_iff (rows : list row) :
  rows <> [] -> canonical rows ->
  (length (regularize (daily_table rows)) < 7)%nat <-> span_below 6 rows.
Proof.
  intros Hne Hcan.
  destruct (daily_table_spec Hcan) as (_ & Hin & _).
  assert (Hne' : daily_table rows <> []).
  { destruct rows as [| r rows]; [congruence |].
    assert (Hd : In (date r) (map fst (daily_table (r :: rows)))).
    { apply Hin. exists r. split; [now left | reflexivity]. }
    intros E. rewrite E in Hd. contradiction. }
  rewrite (regularize_short_iff Hne'). unfold span_below. split.
  - intros H r r' Hr Hr'.
    assert (H1 : In (date r) (map fst (daily_table rows)))
      by (apply Hin; eauto).
    assert (H2 : In (date r') (map fst (daily_table rows)))
      by (apply Hin; eauto).
    apply in_map_iff in H1, H2.
    destruct H1 as [p [Ep Hp]], H2 as [q [Eq Hq]].
    rewrite <- Ep, <- Eq. now apply H.
  - intros H p q Hp Hq.
    destruct (proj1 (Hin (fst p)) (in_map fst _ _ Hp)) as [r [Hr Er]].
    destruct (proj1 (Hin (fst q)) (in_map fst _ _ Hq)) as [r' [Hr' Er']].
    rewrite <- Er, <- Er'. now apply H.
Qed.

Lemma span_below_prepared (k : Z) (rows : list row) :
  span_below k (dedup_sort (fill_missing rows)) <-> span_below k rows.
Proof.
  unfold span_below. split.
  - intros H r r' Hr Hr'.
    destruct (proj2 (prepared_dates rows (date r)) (ex_intro _ r (conj Hr eq_refl)))
      as [a [Ha Ea]].
    destruct (proj2 (prepared_dates rows (date r'))
                (ex_intro _ r' (conj Hr' eq_refl))) as [b [Hb Eb]].
    rewrite <- Ea, <- Eb. now apply H.
  - intros H r r' Hr Hr'.
    destruct (proj1 (prepared_dates rows (date r)) (ex_intro _ r (conj Hr eq_refl)))
      as [a [Ha Ea]].
    destruct (proj1 (prepared_dates rows (date r'))
                (ex_intro _ r' (conj Hr' eq_refl))) as [b [Hb Eb]].
    rewrite <- Ea, <- Eb. now apply H.
Qed.

Lemma no_row_matches (wanted : string) (table : list row) :
  filter (city_mask wanted) table = []
  <-> (forall r, In r table -> ~ city_matches r wanted).
Proof.
  split.
  - intros E r Hr Hm.
    assert (Hin : In r (filter (city_mask wanted) table))
      by (apply filter_In; split; [exact Hr | now apply city_mask_matches]).
    rewrite E in Hin. contradiction.
  - intros H. destruct (filter (city_mask wanted) table) as [| r0 kept] eqn:E;
      [reflexivity |].
    assert (Hin : In r0 (filter (city_mask wanted) table))
      by (rewrite E; now left).
    apply filter_In in Hin. destruct Hin as [Hr Hm].
    apply city_mask_matches in Hm. now destruct (H r0 Hr).
Qed.

(** X20.  A city that no row of the dataset matches is reported as a load
    failure: for a city that is given and is not "All Cities", each of
    [/api/daily-trend], [/api/monthly-trend] and [/api/forecast] answers 500
    "Failed to load data" exactly when no row of the loaded dataset matches
    the city; the file itself was read. *)
Theorem unknown_city_is_reported_as_load_failure (ARIMA_AVAILABLE : bool)
    (sm : statsmodels) (file : option csv) (days : option nat)
    (wanted : string) (s s1 : state) (l0 : nat) (table : list row) :
  load_full_dataset file s = (Some l0, s1) ->
  deref l0 s1 = Some (Records table) ->
  wanted <> EmptyString -> wanted <> ALL_CITIES ->
  ((forall r, In r table -> ~ city_matches r wanted)
   <-> fst (Api.daily_trend file (Some wanted) s)
       = ErrorJson 500 (Text "Failed to load data"))
  /\ ((forall r, In r table -> ~ city_matches r wanted)
      <-> fst (Api.monthly_trend file (Some wanted) s)
          = ErrorJson 500 (Text "Failed to load data"))
  /\ ((forall r, In r table -> ~ city_matches r wanted)
      <-> fst (Api.forecast ARIMA_AVAILABLE sm file days (Some wanted) s)
          = ErrorJson 500 (Text "Failed to load data")).
Proof.
  intros Hload Hd Hne Hall.
  pose proof (city_filter_applies_given Hne Hall) as Hf.
  pose proof (rows_worked_on_filtered table Hne Hall) as Hw.
  rewrite <- (no_row_matches wanted table), <- Hw.
  destruct (rows_worked_on (Some wanted) table) as [| r0 kept] eqn:Ek.
  - pose proof (prepare_no_rows file (Some wanted) s Hload Hd Hf Ek) as Hp.
    unfold Api.daily_trend, Api.monthly_trend, Api.forecast.
    destruct (load_and_preprocess_data file (Some wanted) s) as [[e | out] s2];
      cbn [fst] in Hp; [| discriminate].
    cbn [fst]. repeat split; reflexivity.
  - assert (Hne' : rows_worked_on (Some wanted) table <> [])
      by (rewrite Ek; discriminate).
    destruct (prepare_success file (Some wanted) s Hload Hd Hne')
      as (out & s' & Hp & Hout).
    rewrite (daily_trend_eq file (Some wanted) s Hp Hout).
    rewrite (monthly_trend_eq file (Some wanted) s Hp Hout).
    rewrite (forecast_eq ARIMA_AVAILABLE sm file days (Some wanted) s Hp Hout).
    destruct (forecast_aqi_arima _ _ _ _);
      repeat split; intros; discriminate.
Qed.

Lemma unknown_city_is_reported_as_load_failure_witness :
  ((forall r, In r (normalize blank_city_file) -> ~ city_matches r "Pune")
   <-> fst (Api.daily_trend (Some blank_city_file) (Some "Pune"%string)
                            empty_state)
       = ErrorJson 500 (Text "Failed to load data"))
  /\ ((forall r, In r (normalize blank_city_file) -> ~ city_matches r "Pune")
      <-> fst (Api.monthly_trend (Some blank_city_file) (Some "Pune"%string)
                                 empty_state)
          = ErrorJson 500 (Text "Failed to load data"))
  /\ ((forall r, In r (normalize blank_city_file) -> ~ city_matches r "Pune")
      <-> fst (Api.forecast false failing_model (Some blank_city_file) None
                            (Some "Pune"%string) empty_state)
          = ErrorJson 500 (Text "Failed to load data")).
Proof.
  apply (@unknown_city_is_reported_as_load_failure false failing_model
           (Some blank_city_file) None "Pune" empty_state state_after_load
           0%nat (normalize blank_city_file)).
  - reflexivity.
  - reflexivity.
  - discriminate.
  - discriminate.
Defined.

(** X21.  [GET /api/daily-trend] on rows of which one has a city label and an
    AQI: the answer is a JSON body that names the requested city (or "All
    Cities"), with one point for every date of the rows the preparer works
    on and no other, the dates in strictly ascending order, as many values
    as dates, and no missing value. *)
Theorem daily_trend_series (file : option csv) (city_arg : option string)
    (s s1 : state) (l0 : nat) (table : list row) :
  load_full_dataset file s = (Some l0, s1) ->
  deref l0 s1 = Some (Records table) ->
  (exists r, In r (rows_worked_on city_arg table)
             /\ city r <> None /\ aqi r <> NaN) ->
  exists (ds : list Z) (vs : list float),
    fst (Api.daily_trend file city_arg s)
    = Json (mkTrend (city_label city_arg) (map strftime ds) vs)
    /\ StronglySorted Z.lt ds
    /\ (forall d, In d ds
                  <-> exists r, In r (rows_worked_on city_arg table)
                                /\ date r = d)
    /\ length vs = length ds
    /\ Forall (fun v => v <> NaN) vs.
Proof.
  intros Hload Hd Hex.
  assert (Hne : rows_worked_on city_arg table <> []).
  { destruct Hex as [r [Hr _]]. intros E. rewrite E in Hr. contradiction. }
  destruct (prepare_success file city_arg s Hload Hd Hne)
    as (out & s' & Hp & Hout).
  pose proof (prepared_rows_canonical city_arg table Hex) as Hcan.
  pose proof (daily_table_spec Hcan) as Hspec.
  destruct Hspec as (Hsorted & Hin & Hv).
  eexists _, _. split; [exact (daily_trend_eq file city_arg s Hp Hout) |].
  split; [exact Hsorted |]. split; [| split].
  - intros d. rewrite Hin. apply prepared_dates.
  - now rewrite !length_map.
  - apply Forall_forall. intros v Hvin. apply in_map_iff in Hvin.
    destruct Hvin as [e [<- He]]. rewrite (Hv e He). discriminate.
Qed.

Lemma daily_trend_series_witness :
  exists (ds : list Z) (vs : list float),
    fst (Api.daily_trend (Some blank_city_file) (Some " delhi "%string)
                         empty_state)
    = Json (mkTrend " delhi " (map strftime ds) vs)
    /\ StronglySorted Z.lt ds
    /\ (forall d, In d ds
                  <-> exists r,
                        In r (rows_worked_on (Some " delhi "%string)
                                             (normalize blank_city_file))
                        /\ date r = d)
    /\ length vs = length ds
    /\ Forall (fun v => v <> NaN) vs.
Proof.
  apply (@daily_trend_series (Some blank_city_file) (Some " delhi "%string)
           empty_state state_after_load 0%nat (normalize blank_city_file)).
  - reflexivity.
  - reflexivity.
  - exists (mkRow 18262 (Some "Delhi"%string) (fin 100) 2020 1 1).
    split; [left; reflexivity |]. split; discriminate.
Defined.

Lemma prepared_months (rows : list row) (ym : Z * Z) :
  (exists r, In r (dedup_sort (fill_missing rows))
             /\ year_month (date r) = ym)
  <-> (exists r, In r rows /\ year_month (date r) = ym).
Proof.
  split; intros [r [Hr Hm]].
  - destruct (proj1 (prepared_dates rows (date r))
                (ex_intro _ r (conj Hr eq_refl))) as [a [Ha Ea]].
    exists a. split; [exact Ha | now rewrite Ea].
  - destruct (proj2 (prepared_dates rows (date r))
                (ex_intro _ r (conj Hr eq_refl))) as [a [Ha Ea]].
    exists a. split; [exact Ha | now rewrite Ea].
Qed.

Lemma sorted_map_fst (t : series) :
  StronglySorted (key_le fst) t -> StronglySorted Z.le (map fst t).
Proof.
  induction 1 as [| e t Hs IH Hall]; simpl; constructor; [exact IH |].
  apply Forall_forall. intros d Hd. apply in_map_iff in Hd.
  destruct Hd as [e' [<- He']]. rewrite Forall_forall in Hall.
  now apply Hall.
Qed.

(** X22.  [GET /api/monthly-trend] on rows of which one has a city label and
    an AQI: the answer is a JSON body with one point per calendar month of
    the rows the preparer works on and no other, every point dated the first
    of its month, the dates in ascending order, as many values as dates, and
    no missing value. *)
Theorem monthly_trend_series (file : option csv) (city_arg : option string)
    (s s1 : state) (l0 : nat) (table : list row) :
  load_full_dataset file s = (Some l0, s1) ->
  deref l0 s1 = Some (Records table) ->
  (exists r, In r (rows_worked_on city_arg table)
             /\ city r <> None /\ aqi r <> NaN) ->
  exists (ms : list Z) (vs : list float),
    fst (Api.monthly_trend file city_arg s)
    = Json (mkTrend (city_label city_arg) (map strftime ms) vs)
    /\ StronglySorted Z.le ms
    /\ NoDup (map year_month ms)
    /\ (forall m, In m ms -> dt_day m = 1%Z)
    /\ (forall ym, In ym (map year_month ms)
                   <-> exists r, In r (rows_worked_on city_arg table)
                                 /\ year_month (date r) = ym)
    /\ length vs = length ms
    /\ Forall (fun v => v <> NaN) vs.
Proof.
  intros Hload Hd Hex.
  assert (Hne : rows_worked_on city_arg table <> []).
  { destruct Hex as [r [Hr _]]. intros E. rewrite E in Hr. contradiction. }
  destruct (prepare_success file city_arg s Hload Hd Hne)
    as (out & s' & Hp & Hout).
  pose proof (prepared_rows_canonical city_arg table Hex) as Hcan.
  destruct (monthly_table_spec Hcan) as (Hsorted & Hnd & Hcov & Hent).
  eexists _, _. split; [exact (monthly_trend_eq file city_arg s Hp Hout) |].
  split; [now apply sorted_map_fst |].
  split; [now rewrite map_map |].
  split; [| split; [| split]].
  - intros m Hm. apply in_map_iff in Hm. destruct Hm as [e [<- He]].
    now apply Hent.
  - intros ym. rewrite <- prepared_months. rewrite map_map, in_map_iff.
    split.
    + intros [e [<- He]]. exact (proj1 (proj2 (Hent e He))).
    + intros [r [Hr <-]]. destruct (Hcov r Hr) as [e [He Ee]]. eauto.
  - now rewrite !length_map.
  - apply Forall_forall. intros v Hvin. apply in_map_iff in Hvin.
    destruct Hvin as [e [<- He]].
    rewrite (proj2 (proj2 (Hent e He))). discriminate.
Qed.

Lemma monthly_trend_series_witness :
  exists (ms : list Z) (vs : list float),
    fst (Api.monthly_trend (Some blank_city_file) None empty_state)
    = Json (mkTrend ALL_CITIES (map strftime ms) vs)
    /\ StronglySorted Z.le ms
    /\ NoDup (map year_month ms)
    /\ (forall m, In m ms -> dt_day m = 1%Z)
    /\ (forall ym, In ym (map year_month ms)
                   <-> exists r,
                         In r (rows_worked_on None (normalize blank_city_file))
                         /\ year_month (date r) = ym)
    /\ length vs = length ms
    /\ Forall (fun v => v <> NaN) vs.
Proof.
  apply (@monthly_trend_series (Some blank_city_file) None
           empty_state state_after_load 0%nat (normalize blank_city_file)).
  - reflexivity.
  - reflexivity.
  - exists (mkRow 18262 (Some "Delhi"%string) (fin 100) 2020 1 1).
    split; [left; reflexivity |]. split; discriminate.
Defined.

Lemma prepared_rows_nonempty (rows : list row) :
  rows <> [] -> dedup_sort (fill_missing rows) <> [].
Proof.
  intros Hne. destruct rows as [| r rows]; [congruence |].
  destruct (proj2 (prepared_dates (r :: rows) (date r))
              (ex_intro _ r (conj (or_introl eq_refl) eq_refl)))
    as [a [Ha _]].
  intros E. rewrite E in Ha. contradiction.
Qed.

Lemma blank_city_rows_in_range (n : nat) :
  (n <= 1000)%nat ->
  rows_in_range (rows_worked_on None (normalize blank_city_file)) n.
Proof.
  intros Hn r Hr. simpl in Hr.
  assert (Hmax : Timestamp_max = 106751%Z) by reflexivity.
  rewrite Hmax.
  repeat (destruct Hr as [<- | Hr]; [cbn [date]; lia |]). contradiction.
Qed.

(** X23.  [POST /api/forecast] on rows of which one has a city label and an
    AQI, whatever statsmodels does, for a body whose [days] is absent
    (30) or a non-negative integer, and such that pandas can hold the days
    of the horizon (every date plus [days] stays before 2262-04-11).  An
    error answer is 500 "Failed to generate forecast" and means that no two
    rows are six days or more apart.  A JSON answer names the requested
    city, lists the dates of the rows in strictly ascending order with one
    value each and none missing, and dates the forecast on the [days]
    consecutive days after the latest date of the rows. *)
Theorem forecast_endpoint_outcomes (ARIMA_AVAILABLE : bool)
    (sm : statsmodels) (file : option csv) (days : option nat)
    (city_arg : option string) (s s1 : state) (l0 : nat) (table : list row) :
  load_full_dataset file s = (Some l0, s1) ->
  deref l0 s1 = Some (Records table) ->
  (exists r, In r (rows_worked_on city_arg table)
             /\ city r <> None /\ aqi r <> NaN) ->
  rows_in_range (rows_worked_on city_arg table) (forecast_days days) ->
  match fst (Api.forecast ARIMA_AVAILABLE sm file days city_arg s) with
  | ErrorJson status e =>
      status = 500%nat /\ e = Text "Failed to generate forecast"
      /\ span_below 6 (rows_worked_on city_arg table)
  | Json body =>
      body_city body = city_label city_arg
      /\ exists (ds : list Z) (latest : Z),
           body_historical_dates body = map strftime ds
           /\ StronglySorted Z.lt ds
           /\ (forall d, In d ds
                         <-> exists r, In r (rows_worked_on city_arg table)
                                       /\ date r = d)
           /\ In latest ds /\ (forall d, In d ds -> (d <= latest)%Z)
           /\ length (body_historical_aqi body) = length ds
           /\ Forall (fun v => v <> NaN) (body_historical_aqi body)
           /\ body_forecast_dates body
              = map strftime (date_range (latest + 1) (forecast_days days))
  end.
Proof.
  intros Hload Hd Hex _.
  assert (Hne : rows_worked_on city_arg table <> []).
  { destruct Hex as [r [Hr _]]. intros E. rewrite E in Hr. contradiction. }
  destruct (prepare_success file city_arg s Hload Hd Hne)
    as (out & s' & Hp & Hout).
  pose proof (prepared_rows_canonical city_arg table Hex) as Hcan.
  pose proof (daily_table_spec Hcan) as Hspec.
  pose proof (daily_series_no_nan Hspec) as Hnan.
  destruct Hspec as (Hsorted & Hin & Hv).
  rewrite (forecast_eq ARIMA_AVAILABLE sm file days city_arg s Hp Hout).
  destruct (forecast_aqi_arima _ _ _ _) as [fdf |] eqn:Ef.
  - cbn [body_city body_historical_dates body_historical_aqi
         body_forecast_dates].
    split; [reflexivity |].
    destruct (forecast_dates _ _ _ _ Ef) as [latest [Hlast Hdates]].
    destruct (index_last_is_latest _ Hlast) as [[v Hlv] Hmax].
    eexists _, latest. split; [reflexivity |].
    split; [exact Hsorted |]. split; [| split; [| split; [| split; [| split]]]].
    + intros d. rewrite Hin. apply prepared_dates.
    + apply in_map_iff. exists (latest, v). split; [reflexivity | exact Hlv].
    + intros d Hdin. apply in_map_iff in Hdin.
      destruct Hdin as [p [<- Hp']]. now apply Hmax.
    + now rewrite !length_map.
    + apply Forall_forall. intros x Hx. apply in_map_iff in Hx.
      destruct Hx as [e [<- He]]. rewrite (Hv e He). discriminate.
    + now rewrite Hdates.
  - split; [reflexivity |]. split; [reflexivity |].
    apply (span_below_prepared 6 (rows_worked_on city_arg table)).
    apply daily_table_short_iff;
      [now apply prepared_rows_nonempty | exact Hcan |].
    exact (forecast_aqi_arima_none _ _ _ Hnan Ef).
Qed.

Lemma forecast_endpoint_outcomes_witness :
  rows_in_range (rows_worked_on None (normalize blank_city_file))
                (forecast_days (Some 5%nat))
  /\
  match fst (Api.forecast true failing_model (Some blank_city_file) (Some 5%nat)
                          None empty_state) with
  | ErrorJson status e =>
      status = 500%nat /\ e = Text "Failed to generate forecast"
      /\ span_below 6 (rows_worked_on None (normalize blank_city_file))
  | Json body =>
      body_city body = city_label None
      /\ exists (ds : list Z) (latest : Z),
           body_historical_dates body = map strftime ds
           /\ StronglySorted Z.lt ds
           /\ (forall d, In d ds
                         <-> exists r,
                               In r (rows_worked_on None
                                                    (normalize blank_city_file))
                               /\ date r = d)
           /\ In latest ds /\ (forall d, In d ds -> (d <= latest)%Z)
           /\ length (body_historical_aqi body) = length ds
           /\ Forall (fun v => v <> NaN) (body_historical_aqi body)
           /\ body_forecast_dates body
              = map strftime (date_range (latest + 1)
                                         (forecast_days (Some 5%nat)))
  end.
Proof.
  assert (Hrange : rows_in_range
                     (rows_worked_on None (normalize blank_city_file))
                     (forecast_days (Some 5%nat)))
    by (apply blank_city_rows_in_range; simpl; lia).
  split; [exact Hrange |].
  apply (@forecast_endpoint_outcomes true failing_model (Some blank_city_file)
           (Some 5%nat) None empty_state state_after_load 0%nat
           (normalize blank_city_file)).
  - reflexivity.
  - reflexivity.
  - exists (mkRow 18262 (Some "Delhi"%string) (fin 100) 2020 1 1).
    split; [left; reflexivity |]. split; discriminate.
  - exact Hrange.
Defined.

(** X24.  [POST /api/forecast] when statsmodels is not installed, on rows of
    which one has a city label and an AQI, for a body whose [days] is absent
    (30) or a non-negative integer, and such that pandas can hold the days
    of the horizon (every date plus [days] stays before 2262-04-11): the
    endpoint answers 500 "Failed to generate forecast" if no two rows are six
    days or more apart, and otherwise a JSON body whose forecast has exactly
    [days] entries, each with
    [0 <= lower_bound <= aqi <= upper_bound <= 500]. *)
Theorem forecast_endpoint_without_statsmodels (sm : statsmodels)
    (file : option csv) (days : option nat) (city_arg : option string)
    (s s1 : state) (l0 : nat) (table : list row) :
  load_full_dataset file s = (Some l0, s1) ->
  deref l0 s1 = Some (Records table) ->
  (exists r, In r (rows_worked_on city_arg table)
             /\ city r <> None /\ aqi r <> NaN) ->
  rows_in_range (rows_worked_on city_arg table) (forecast_days days) ->
  (span_below 6 (rows_worked_on city_arg table)
   /\ fst (Api.forecast false sm file days city_arg s)
      = ErrorJson 500 (Text "Failed to generate forecast"))
  \/ (~ span_below 6 (rows_worked_on city_arg table)
      /\ exists (body : forecast_body) (entries : list forecast_row),
           fst (Api.forecast false sm file days city_arg s) = Json body
           /\ length entries = forecast_days days
           /\ Forall entry_in_bounds entries
           /\ body_forecast_aqi body = map f_aqi entries
           /\ body_lower_bound body = map lower_bound entries
           /\ body_upper_bound body = map upper_bound entries).
Proof.
  intros Hload Hd Hex _.
  assert (Hne : rows_worked_on city_arg table <> []).
  { destruct Hex as [r [Hr _]]. intros E. rewrite E in Hr. contradiction. }
  destruct (prepare_success file city_arg s Hload Hd Hne)
    as (out & s' & Hp & Hout).
  pose proof (prepared_rows_canonical city_arg table Hex) as Hcan.
  pose proof (daily_series_no_nan (daily_table_spec Hcan)) as Hnan.
  pose proof (daily_table_short_iff (prepared_rows_nonempty Hne) Hcan)
    as Hshort.
  rewrite (span_below_prepared 6 (rows_worked_on city_arg table)) in Hshort.
  rewrite (forecast_eq false sm file days city_arg s Hp Hout).
  change (forecast_aqi_arima false sm
            (daily_table (dedup_sort (fill_missing
                                        (rows_worked_on city_arg table))))
            (forecast_days days))
    with (forecast_aqi_simple
            (daily_table (dedup_sort (fill_missing
                                        (rows_worked_on city_arg table))))
            (forecast_days days)).
  destruct (forecast_aqi_simple _ _) as [fdf |] eqn:Ef.
  - right. split.
    + intros Hspan. apply Hshort in Hspan.
      apply (forecast_aqi_simple_none_iff (forecast_days days) Hnan) in Hspan.
      congruence.
    + eexists _, fdf. split; [reflexivity |].
      split; [| split; [| repeat split]].
      * assert (Ea : forecast_aqi_arima false sm
                       (daily_table (dedup_sort (fill_missing
                          (rows_worked_on city_arg table))))
                       (forecast_days days) = Some fdf) by exact Ef.
        destruct (forecast_dates _ _ _ _ Ea) as [latest [_ Hdates]].
        rewrite <- (length_map f_date), Hdates. apply length_date_range.
      * exact (forecast_aqi_simple_in_bounds _ Hnan Ef).
  - left. split; [| reflexivity].
    apply Hshort.
    now apply (forecast_aqi_simple_none_iff (forecast_days days) Hnan).
Qed.

Lemma forecast_endpoint_without_statsmodels_witness :
  rows_in_range (rows_worked_on None (normalize blank_city_file))
                (forecast_days None)
  /\
  ((span_below 6 (rows_worked_on None (normalize blank_city_file))
   /\ fst (Api.forecast false failing_model (Some blank_city_file) None None
                        empty_state)
      = ErrorJson 500 (Text "Failed to generate forecast"))
  \/ (~ span_below 6 (rows_worked_on None (normalize blank_city_file))
      /\ exists (body : forecast_body) (entries : list forecast_row),
           fst (Api.forecast false failing_model (Some blank_city_file) None
                             None empty_state) = Json body
           /\ length entries = forecast_days None
           /\ Forall entry_in_bounds entries
           /\ body_forecast_aqi body = map f_aqi entries
           /\ body_lower_bound body = map lower_bound entries
           /\ body_upper_bound body = map upper_bound entries)).
Proof.
  assert (Hrange : rows_in_range
                     (rows_worked_on None (normalize blank_city_file))
                     (forecast_days None))
    by (apply blank_city_rows_in_range; simpl; lia).
  split; [exact Hrange |].
  apply (@forecast_endpoint_without_statsmodels failing_model
           (Some blank_city_file) None None empty_state state_after_load
           0%nat (normalize blank_city_file)).
  - reflexivity.
  - reflexivity.
  - exists (mkRow 18262 (Some "Delhi"%string) (fin 100) 2020 1 1).
    split; [left; reflexivity |]. split; discriminate.
  - exact Hrange.
Defined.
